(** * Smart-Dabba: the data layer (app.py), the modeller (water_modeler.py)
      and the treatment jobs (ml_api.py)

    A shallow embedding of the parts of the three services that the
    specification talks about, followed by the theorems that settle each
    claim of the specification against the code.

    Conventions.
    - A Python [int] is a [Z].
    - A Python [float] is an IEEE 754 binary64 value, a [spec_float] of the
      standard library with [prec = 53] and [emax = 1024]; every operation
      is the correctly rounded one of [SpecFloat].
    - A Python [str] is a [string]; a [dict] that is used as a map is a
      [gmap]; [None] / an absent key is [None].
    - A handler returns an HTTP status with a body; an exception that
      leaves a function is a value of [outcome]. *)

From Stdlib Require Import ZArith Lia List Ascii String SpecFloat Sorted.
From stdpp Require Import base option list strings gmap.

Local Open Scope Z_scope.

(* ================================================================= *)
(** * Python built-ins on integers and strings *)

Module Py.

(** ** [str(n)] for an integer: decimal digits, no padding, ['-'] sign *)

Definition digit_char (d : Z) : ascii := ascii_of_N (48 + Z.to_N d).

(** The digits of a non-negative [n], least significant first, pushed in
    front of [acc]; [fuel] bounds the number of digits. *)
Fixpoint digits_acc (fuel : nat) (n : Z) (acc : string) : string :=
  match fuel with
  | O => acc
  | S fuel' =>
      let acc' := String (digit_char (n mod 10)) acc in
      if n <? 10 then acc' else digits_acc fuel' (n / 10) acc'
  end.

(** A number has at most as many decimal digits as binary ones. *)
Definition digit_fuel (n : Z) : nat := S (Z.to_nat (Z.log2 n)).

Definition str (n : Z) : string :=
  if n <? 0 then String "-"%char (digits_acc (digit_fuel (- n)) (- n) EmptyString)
  else digits_acc (digit_fuel n) n EmptyString.

(** ** [int(s)] for a string of decimal digits ([ValueError] is [None]) *)

Definition digit_val (c : ascii) : option Z :=
  let n := Z.of_N (N_of_ascii c) in
  if (48 <=? n) && (n <=? 57) then Some (n - 48) else None.

Fixpoint int_acc (s : string) (acc : Z) : option Z :=
  match s with
  | EmptyString => Some acc
  | String c s' =>
      match digit_val c with
      | Some d => int_acc s' (10 * acc + d)
      | None => None
      end
  end.

Definition int (s : string) : option Z :=
  match s with
  | EmptyString => None
  | _ => int_acc s 0
  end.

(** ** [s.replace(a, b)] for single characters *)

Fixpoint replace (a b : ascii) (s : string) : string :=
  match s with
  | EmptyString => EmptyString
  | String c s' => String (if Ascii.eqb c a then b else c) (replace a b s')
  end.

(** ** Zero padding of a non-negative field, as [%m], [%d], [%H] ... do *)

Fixpoint zeros (k : nat) : string :=
  match k with
  | O => EmptyString
  | S k' => String "0"%char (zeros k')
  end.

Definition zero_pad (width : nat) (n : Z) : string :=
  let s := str n in
  zeros (width - String.length s) +:+ s.

(** ** The [k] low decimal digits of [n], most significant first: what a
       fixed-width rendering of [n] in [k] columns is *)

Fixpoint fixed (k : nat) (n : Z) : string :=
  match k with
  | O => EmptyString
  | S k' => fixed k' (n / 10) +:+ String (digit_char (n mod 10)) EmptyString
  end.

(** [n] is written with exactly [S k] digits. *)
Definition has_digits (n : Z) (k : nat) : Prop :=
  0 <= n < 10 ^ Z.of_nat (S k) /\ (k <> O -> 10 ^ Z.of_nat k <= n).

(** ** Lexicographic order of strings, as [<] on [str] and as the key
       order of the store *)

Definition str_lt (s1 s2 : string) : Prop := String.compare s1 s2 = Lt.
Definition str_gt (s1 s2 : string) : Prop := String.compare s1 s2 = Gt.

End Py.

(* ================================================================= *)
(** * Python floats: IEEE 754 binary64 *)

Module F.

Definition prec : Z := 53.
Definition emax : Z := 1024.

Definition float := spec_float.

Definition add : float -> float -> float := SFadd prec emax.
Definition sub : float -> float -> float := SFsub prec emax.
Definition mul : float -> float -> float := SFmul prec emax.
Definition div : float -> float -> float := SFdiv prec emax.
Definition ltb : float -> float -> bool := SFltb.
Definition leb : float -> float -> bool := SFleb.

(** The double nearest to an integer (exact below [2^53]). *)
Definition of_Z (z : Z) : float := binary_normalize prec emax z 0 false.

(** A decimal literal [num / den] of the source, [den] a power of ten: the
    double nearest to the fraction, which the correctly rounded quotient of
    the two (exactly represented) integers is. *)
Definition lit (num den : Z) : float := div (of_Z num) (of_Z den).

Definition is_nan (x : float) : bool :=
  match x with S754_nan => true | _ => false end.

Definition is_finite (x : float) : bool :=
  match x with S754_zero _ | S754_finite _ _ _ => true | _ => false end.

(** The integer nearest to [n / d] for [d > 0], ties to the even one. *)
Definition round_half_even (n d : Z) : Z :=
  let q := n / d in
  match 2 * (n mod d) ?= d with
  | Lt => q
  | Gt => q + 1
  | Eq => if Z.even q then q else q + 1
  end.

(** [round(x, 2)] on a float. CPython prints [x] with two decimals,
    correctly rounded from the exact binary value with ties to even, and
    reads the decimal string back to the nearest double. With
    [r = round_half_even (|x| * 100)] that double is the correctly rounded
    quotient [r / 100]; once [r] needs more than 53 bits (|x| above 2^46)
    the spacing of doubles exceeds 0.01 and the nearest double is [x]
    itself. Infinities, NaN and zeros round to themselves. *)
Definition round2 (x : float) : float :=
  match x with
  | S754_finite s m e =>
      let r := if 0 <=? e then round_half_even (Zpos m * 100 * 2 ^ e) 1
               else round_half_even (Zpos m * 100) (2 ^ (- e)) in
      if r <? 2 ^ 53 then
        div (if r =? 0 then S754_zero s else of_Z (if s then - r else r)) (of_Z 100)
      else x
  | _ => x
  end.

(** [int(x)] on a float truncates toward zero; NaN and the infinities make
    it raise, which is [None] here. *)
Definition trunc (x : float) : option Z :=
  match x with
  | S754_zero _ => Some 0
  | S754_finite s m e =>
      let a := if 0 <=? e then Zpos m * 2 ^ e else Zpos m / 2 ^ (- e) in
      Some (if s then - a else a)
  | _ => None
  end.

(** Exact comparison of a float with an integer, as Python compares an
    [int] with a [float]; [None] when the float is NaN. *)
Definition compare_Z (x : float) (z : Z) : option comparison :=
  match x with
  | S754_nan => None
  | S754_infinity s => Some (if s then Lt else Gt)
  | S754_zero _ => Some (0 ?= z)
  | S754_finite s m e =>
      let v := if s then Zneg m else Zpos m in
      if 0 <=? e then Some (v * 2 ^ e ?= z) else Some (v ?= z * 2 ^ (- e))
  end.

(** [max(a, b)] of two floats as the built-in computes it: the second
    argument wins only when it is strictly greater. *)
Definition max (a b : float) : float := if ltb a b then b else a.

End F.

(* ================================================================= *)
(** * Python values, exceptions and the operators the services use *)

Module Value.

Inductive exn :=
  | KeyError | TypeError | ValueError | AttributeError | IndexError
  | OverflowError | ZeroDivisionError
  | UpstreamError.   (* raised by the Firebase client or by [requests] *)

Inductive outcome (A : Type) :=
  | Ok (a : A)
  | Raise (e : exn).
Arguments Ok {A} a.
Arguments Raise {A} e.

Definition bind {A B} (m : outcome A) (k : A -> outcome B) : outcome B :=
  match m with
  | Ok a => k a
  | Raise e => Raise e
  end.

Definition succeeds {A} (m : outcome A) : bool :=
  match m with Ok _ => true | Raise _ => false end.

(** [try: m except Exception as e: h e] *)
Definition try_except {A} (m : outcome A) (h : exn -> A) : A :=
  match m with
  | Ok a => a
  | Raise e => h e
  end.

Declare Scope py_scope.
Delimit Scope py_scope with py.
Notation "x <- m ;; k" := (bind m (fun x => k))
  (at level 100, m at next level, right associativity) : py_scope.
Notation "m ;;; k" := (bind m (fun _ => k))
  (at level 100, right associativity) : py_scope.

(** What a decoded JSON document or a stored reading holds. *)
#[warnings="-register-all"]
Inductive value :=
  | VNone
  | VBool (b : bool)
  | VInt (z : Z)
  | VFloat (f : F.float)
  | VStr (s : string)
  | VList (l : list value)
  | VDict (kvs : list (string * value)).

Definition is_none (v : value) : bool :=
  match v with VNone => true | _ => false end.

(** A [dict] with string keys. *)
Abbreviation record := (gmap string value).

(** [d.get(k)] and [d[k]] *)
Definition get (d : record) (k : string) : value := default VNone (d !! k).

Definition getitem (d : record) (k : string) : outcome value :=
  match d !! k with
  | Some v => Ok v
  | None => Raise KeyError
  end.

(** [float(z)] of an integer; too large an integer raises. *)
Definition float_of_int (z : Z) : outcome F.float :=
  let f := F.of_Z z in
  if F.is_finite f then Ok f else Raise OverflowError.

(** The float a number is promoted to next to a float operand; [bool] is
    a subclass of [int]. *)
Definition promote (v : value) : outcome F.float :=
  match v with
  | VFloat f => Ok f
  | VInt z => float_of_int z
  | VBool b => float_of_int (if b then 1 else 0)
  | _ => Raise TypeError
  end.

(** [v * c] for a float constant [c] *)
Definition mul_const (v : value) (c : F.float) : outcome F.float :=
  (x <- promote v ;; Ok (F.mul x c))%py.

(** The integer a [bool] or an [int] is. *)
Definition as_int (v : value) : option Z :=
  match v with
  | VInt z => Some z
  | VBool b => Some (if b then 1 else 0)
  | _ => None
  end.

Definition is_lt (c : option comparison) : bool :=
  match c with Some Lt => true | _ => false end.
Definition is_le (c : option comparison) : bool :=
  match c with Some (Lt | Eq) => true | _ => false end.
Definition is_ge (c : option comparison) : bool :=
  match c with Some (Gt | Eq) => true | _ => false end.
Definition is_gt (c : option comparison) : bool :=
  match c with Some Gt => true | _ => false end.
Definition is_eq (c : option comparison) : bool :=
  match c with Some Eq => true | _ => false end.

(** The three-way comparison of a number with an integer; [Ok None] is the
    unordered case of a NaN, [TypeError] anything that is not a number. *)
Definition compare_int (v : value) (k : Z) : outcome (option comparison) :=
  match v with
  | VFloat f => Ok (F.compare_Z f k)
  | _ => match as_int v with
         | Some z => Ok (Some (z ?= k))
         | None => Raise TypeError
         end
  end.

(** [v < k], [v <= k] and [v >= k] for an integer [k] *)
Definition lt_int (v : value) (k : Z) : outcome bool :=
  (c <- compare_int v k ;; Ok (is_lt c))%py.
Definition le_int (v : value) (k : Z) : outcome bool :=
  (c <- compare_int v k ;; Ok (is_le c))%py.
Definition ge_int (v : value) (k : Z) : outcome bool :=
  (c <- compare_int v k ;; Ok (is_ge c))%py.

(** [d.get(k)] on the items of a decoded [dict]. *)
Fixpoint item (kvs : list (string * value)) (k : string) : option value :=
  match kvs with
  | [] => None
  | (k', v) :: rest => if String.eqb k k' then Some v else item rest k
  end.

(** [a is b or a == b], the test by which a [list] or a [dict] compares
    its items. Numbers are equal across [bool], [int] and [float] when
    their values are; decoded values are distinct objects, except that
    the JSON decoder gives one object for every NaN. *)
Fixpoint same (a b : value) {struct a} : bool :=
  match a, b with
  | VNone, VNone => true
  | VStr s1, VStr s2 => String.eqb s1 s2
  | VFloat x, VFloat y => SFeqb x y || (F.is_nan x && F.is_nan y)
  | VFloat x, (VInt _ | VBool _) =>
      match as_int b with Some z => is_eq (F.compare_Z x z) | None => false end
  | (VInt _ | VBool _), VFloat y =>
      match as_int a with Some z => is_eq (F.compare_Z y z) | None => false end
  | (VInt _ | VBool _), (VInt _ | VBool _) =>
      match as_int a, as_int b with Some x, Some y => x =? y | _, _ => false end
  | VList l1, VList l2 =>
      (fix items (l1 l2 : list value) {struct l1} : bool :=
         match l1, l2 with
         | [], [] => true
         | x :: l1', y :: l2' => same x y && items l1' l2'
         | _, _ => false
         end) l1 l2
  | VDict d1, VDict d2 =>
      Nat.eqb (length d1) (length d2) &&
      (fix entries (d : list (string * value)) {struct d} : bool :=
         match d with
         | [] => true
         | (k, v) :: d' =>
             match item d2 k with
             | Some w => same v w && entries d'
             | None => false
             end
         end) d1
  | _, _ => false
  end.

(** [a < b] between two values as [list.sort] needs it: strings among
    themselves, numbers among themselves, and lists among themselves by
    their first pair of items that are not the same (the shorter list
    first when there is none); anything else is not ordered. *)
Fixpoint lt_value (a b : value) {struct a} : outcome bool :=
  match a, b with
  | VStr s1, VStr s2 => Ok (String.ltb s1 s2)
  | VList l1, VList l2 =>
      (fix items (l1 l2 : list value) {struct l1} : outcome bool :=
         match l1, l2 with
         | x :: l1', y :: l2' => if same x y then items l1' l2' else lt_value x y
         | [], _ :: _ => Ok true
         | _, [] => Ok false
         end) l1 l2
  | VFloat x, VFloat y => Ok (F.ltb x y)
  | VFloat x, _ =>
      match as_int b with
      | Some z => Ok (is_lt (F.compare_Z x z))
      | None => Raise TypeError
      end
  | _, VFloat y =>
      match as_int a with
      | Some z => Ok (is_gt (F.compare_Z y z))
      | None => Raise TypeError
      end
  | _, _ =>
      match as_int a, as_int b with
      | Some x, Some y => Ok (x <? y)
      | _, _ => Raise TypeError
      end
  end.

(** Truthiness, as [if v], [not v] and [v or d] test it. *)
Definition truthy (v : value) : bool :=
  match v with
  | VNone => false
  | VBool b => b
  | VInt z => negb (z =? 0)
  | VFloat (S754_zero _) => false
  | VFloat _ => true
  | VStr s => negb (String.eqb s EmptyString)
  | VList l => match l with [] => false | _ => true end
  | VDict kvs => match kvs with [] => false | _ => true end
  end.

(** Truthiness of an optional string: [not area] *)
Definition falsy_str (s : option string) : bool :=
  match s with
  | None => true
  | Some s => String.eqb s EmptyString
  end.

End Value.

(* ================================================================= *)
(** * Time stamps and storage keys (app.py, [ingest_data]) *)

Module Key.

(** A [datetime] at second precision. *)
Record datetime := {
  year : Z; month : Z; day : Z;
  hour : Z; minute : Z; second : Z
}.

Definition is_leap (y : Z) : bool :=
  ((y mod 4 =? 0) && negb (y mod 100 =? 0)) || (y mod 400 =? 0).

Definition days_in_month (y m : Z) : Z :=
  if m =? 2 then (if is_leap y then 29 else 28)
  else if (m =? 4) || (m =? 6) || (m =? 9) || (m =? 11) then 30
  else 31.

(** The dates [datetime] can hold and [%Y] prints with four digits on
    every platform: years 1000 to 9999. *)
Definition valid (t : datetime) : Prop :=
  1000 <= year t <= 9999 /\ 1 <= month t <= 12 /\
  1 <= day t <= days_in_month (year t) (month t) /\
  0 <= hour t <= 23 /\ 0 <= minute t <= 59 /\ 0 <= second t <= 59.

(** Chronological order. *)
Definition as_tuple (t : datetime) : list Z :=
  [year t; month t; day t; hour t; minute t; second t].

Fixpoint lex_lt (a b : list Z) : Prop :=
  match a, b with
  | x :: a', y :: b' => x < y \/ (x = y /\ lex_lt a' b')
  | _, _ => False
  end.

Definition before (t1 t2 : datetime) : Prop := lex_lt (as_tuple t1) (as_tuple t2).

(** [t.strftime("%Y-%m-%d %H:%M:%S")], the stored [timestamp] field. *)
Definition strftime_iso (t : datetime) : string :=
  Py.zero_pad 4 (year t) +:+ "-" +:+ Py.zero_pad 2 (month t) +:+ "-" +:+
  Py.zero_pad 2 (day t) +:+ " " +:+ Py.zero_pad 2 (hour t) +:+ ":" +:+
  Py.zero_pad 2 (minute t) +:+ ":" +:+ Py.zero_pad 2 (second t).

(** [t.strftime("%Y%m%d%H%M%S")], the 14-digit form [timestamp_key]. *)
Definition timestamp_key (t : datetime) : string :=
  Py.zero_pad 4 (year t) +:+ Py.zero_pad 2 (month t) +:+
  Py.zero_pad 2 (day t) +:+ Py.zero_pad 2 (hour t) +:+
  Py.zero_pad 2 (minute t) +:+ Py.zero_pad 2 (second t).

Definition LARGE_CONSTANT : Z := 99999999999999.

(** [reversed_key = str(99999999999999 - int(timestamp_key))] *)
Definition reversed_key (t : datetime) : option string :=
  match Py.int (timestamp_key t) with
  | Some n => Some (Py.str (LARGE_CONSTANT - n))
  | None => None
  end.

(** The number the 14 digits spell. *)
Definition numeric (t : datetime) : Z :=
  year t * 10000000000 + month t * 100000000 + day t * 1000000 +
  hour t * 10000 + minute t * 100 + second t.

(** Two readings, of 2024 and of the year 9000. *)
Definition new_year_2024 : datetime :=
  {| year := 2024; month := 1; day := 1; hour := 0; minute := 0; second := 0 |}.
Definition new_year_9000 : datetime :=
  {| year := 9000; month := 1; day := 1; hour := 0; minute := 0; second := 0 |}.
Definition leap_day_2024 : datetime :=
  {| year := 2024; month := 2; day := 29; hour := 23; minute := 59; second := 59 |}.

(** The order the reversed keys are meant to have: the earlier reading
    gets the greater key. *)
Definition keys_descend (t1 t2 : datetime) : Prop :=
  exists k1 k2, reversed_key t1 = Some k1 /\ reversed_key t2 = Some k2 /\
                Py.str_gt k1 k2.

End Key.

(* ================================================================= *)
(** * The Reading Store: the Firebase tree under [water_data] *)

Module Store.
Import Value.
Local Open Scope py_scope.

(** The three calls the data layer makes on [DB_REF]. *)
Inductive call :=
  | ShallowGet                                  (* DB_REF.get(shallow=True) *)
  | RangeGet (area_key : string)                (* ...order_by_key().limit_to_first(n).get() *)
  | SetAt (area_key key : string).              (* ...child(k).set(data) *)

(** The tree [area_key -> storage key -> reading], and which calls the
    client raises on: a failure of the backing service, or a path that
    [child] refuses (an empty one, or one that holds a bracket, a dot, a
    question mark, a hash or a dollar sign). *)
Record firebase := {
  fb_data : gmap string (gmap string record);
  fb_raises : call -> bool
}.

(** [child(path)] splits its path on [/]: a key is the name of one child
    when it holds no [/]. The tree is addressed two levels deep, by such a
    name for the area and the storage key under it; for an area key with
    a [/], [children] below is the node that [child(area_key)] reaches,
    which is not a child of the root. *)
Fixpoint segment (area_key : string) : bool :=
  match area_key with
  | EmptyString => true
  | String c rest => negb (Ascii.eqb c "/") && segment rest
  end.

Definition children (fb : firebase) (area_key : string) : gmap string record :=
  default ∅ (fb_data fb !! area_key).

(** Keys come back in ascending key order; storage keys have more digits
    than a 32-bit integer, so that order is the one of strings. *)
Fixpoint insert_sorted {A} (x : string * A) (l : list (string * A)) : list (string * A) :=
  match l with
  | [] => [x]
  | y :: l' => if String.leb x.1 y.1 then x :: y :: l' else y :: insert_sorted x l'
  end.

Definition order_by_key {A} (m : gmap string A) : list (string * A) :=
  foldr insert_sorted [] (map_to_list m).

(** [DB_REF.get(shallow=True)]: the area keys that have data; an empty
    list stands for the [None] of an empty tree. The keys listed are the
    children of the root, which the area keys written are when they are
    [segment]s. *)
Definition shallow_get (fb : firebase) : outcome (list string) :=
  if fb_raises fb ShallowGet then Raise UpstreamError
  else Ok ((order_by_key (filter (fun kv => size kv.2 ≠ 0%nat) (fb_data fb))).*1).

(** [DB_REF.child(area_key).order_by_key().limit_to_first(n).get()]; an
    empty list stands for the [None] of a path without data. *)
Definition range_get (fb : firebase) (area_key : string) (n : nat)
  : outcome (list (string * record)) :=
  if fb_raises fb (RangeGet area_key) then Raise UpstreamError
  else Ok (take n (order_by_key (children fb area_key))).

(** [DB_REF.child(area_key).child(key).set(data)]: an upsert; the service
    does not keep null fields. The write replaces what the node
    [child(area_key).child(key)] held. For an area key that is a
    [segment] nothing else changes; for one with a [/] the node lies
    deeper in the tree, under the area named by the first segment, whose
    content this map does not follow. *)
Definition set_at (fb : firebase) (area_key key : string) (data : record)
  : outcome firebase :=
  if fb_raises fb (SetAt area_key key) then Raise UpstreamError
  else
    let stored := filter (fun kv => is_none kv.2 = false) data in
    Ok {| fb_data := <[area_key := <[key := stored]> (children fb area_key)]> (fb_data fb);
          fb_raises := fb_raises fb |}.

End Store.

(* ================================================================= *)
(** * app.py: the data layer *)

Module App.
Import Value Store.
Local Open Scope py_scope.

Definition CA_FACTOR : F.float := F.lit 2497 1000.   (* 2.497 *)
Definition MG_FACTOR : F.float := F.lit 4118 1000.   (* 4.118 *)

Definition calculate_total_hardness (ca mg : value) : outcome value :=
  if is_none ca || is_none mg then Ok (VInt 0)
  else
    x <- mul_const ca CA_FACTOR ;;
    y <- mul_const mg MG_FACTOR ;;
    Ok (VFloat (F.round2 (F.add x y))).

Record classification := {
  hardness_class : string;
  tds_status : string;
  is_safe_for_drinking : bool
}.

Definition classify_water_quality (tds total_hardness : value)
  : outcome classification :=
  soft <- lt_int total_hardness 60 ;;
  hc <- (if soft then Ok "Soft"
         else
           moderate <- lt_int total_hardness 120 ;;
           if moderate then Ok "Moderately Hard"
           else
             hard <- lt_int total_hardness 180 ;;
             Ok (if hard then "Hard" else "Very Hard")) ;;
  safe_tds <- le_int tds 500 ;;
  let ts := if safe_tds then "Safe" else "Above Recommended Limit" in
  safe <- (t <- le_int tds 500 ;;
           if t then le_int total_hardness 200 else Ok false) ;;
  Ok {| hardness_class := hc; tds_status := ts; is_safe_for_drinking := safe |}.

(** The [dict] the classification is returned as. *)
Definition classification_value (c : classification) : value :=
  VDict [("hardness_class", VStr (hardness_class c));
         ("tds_status", VStr (tds_status c));
         ("is_safe_for_drinking", VBool (is_safe_for_drinking c))].

(** The read-time enrichment of one reading, the same statements in
    [get_latest] and in the loop of [get_history]. *)
Definition enrich (r : record) : outcome record :=
  hardness <- calculate_total_hardness (get r "Ca") (get r "Mg") ;;
  tds <- getitem r "TDS" ;;
  c <- classify_water_quality tds hardness ;;
  Ok (<["classification" := classification_value c]>
        (<["total_hardness" := hardness]> r)).

(** ** Responses *)

Inductive body :=
  | Error (msg : string) (cause : option exn)   (* {"error": msg + str(e)} *)
  | Message (msg : string)                      (* {"message": msg} *)
  | Areas (areas : list string)
  | Latest (latest_data : gmap string record)
  | History (area : string) (record_count : nat) (data : list record)
  | Ingested (timestamp : string).

Record response := { status : Z; payload : body }.

Definition display_name (area_key : string) : string :=
  Py.replace "_" " " area_key.
Definition storage_name (area : string) : string :=
  Py.replace " " "_" area.

(** ** [/get_areas] *)

Definition get_areas (DB_REF : option firebase) : response :=
  match DB_REF with
  | None => {| status := 503; payload := Error "Database not initialized." None |}
  | Some fb =>
      try_except
        (areas_data <- shallow_get fb ;;
         Ok {| status := 200; payload := Areas (display_name <$> areas_data) |})
        (fun e => {| status := 500;
                     payload := Error "Internal server error: " (Some e) |})
  end.

(** ** [/get_latest] *)

(** The body of the loop over the area keys. *)
Definition latest_step (fb : firebase) (latest_data : gmap string record)
    (area_key : string) : outcome (gmap string record) :=
  result <- range_get fb area_key 1 ;;
  match result with
  | [] => Ok latest_data
  | (_, latest_record) :: _ =>
      enriched <- enrich latest_record ;;
      Ok (<[display_name area_key := enriched]> latest_data)
  end.

Fixpoint latest_loop (fb : firebase) (area_keys : list string)
    (latest_data : gmap string record) : outcome (gmap string record) :=
  match area_keys with
  | [] => Ok latest_data
  | area_key :: rest =>
      latest_data' <- latest_step fb latest_data area_key ;;
      latest_loop fb rest latest_data'
  end.

Definition get_latest (DB_REF : option firebase) : response :=
  match DB_REF with
  | None => {| status := 500; payload := Error "Database connection error." None |}
  | Some fb =>
      try_except
        (all_area_keys <- shallow_get fb ;;
         match all_area_keys with
         | [] => Ok {| status := 200; payload := Message "No data available." |}
         | _ =>
             latest_data <- latest_loop fb all_area_keys ∅ ;;
             Ok {| status := 200; payload := Latest latest_data |}
         end)
        (fun e => {| status := 500;
                     payload := Error "Failed to fetch latest data: " (Some e) |})
  end.

(** ** [/get_history] *)

(** [history.sort(key=lambda x: x['timestamp'])]: the keys are taken
    first, then a stable sort compares them with [<]. *)
Fixpoint with_keys (history : list record) : outcome (list (value * record)) :=
  match history with
  | [] => Ok []
  | r :: rest =>
      k <- getitem r "timestamp" ;;
      keyed <- with_keys rest ;;
      Ok ((k, r) :: keyed)
  end.

Fixpoint insert_value (x : value * record) (l : list (value * record))
  : outcome (list (value * record)) :=
  match l with
  | [] => Ok [x]
  | y :: l' =>
      b <- lt_value x.1 y.1 ;;
      if b then Ok (x :: y :: l')
      else (r <- insert_value x l' ;; Ok (y :: r))
  end.

Fixpoint sort_acc (sorted todo : list (value * record))
  : outcome (list (value * record)) :=
  match todo with
  | [] => Ok sorted
  | x :: rest => sorted' <- insert_value x sorted ;; sort_acc sorted' rest
  end.

Definition sort_by_timestamp (history : list record) : outcome (list record) :=
  keyed <- with_keys history ;;
  sorted <- sort_acc [] keyed ;;
  Ok (sorted.*2).

Fixpoint process (history : list record) : outcome (list record) :=
  match history with
  | [] => Ok []
  | r :: rest =>
      r' <- enrich r ;;
      processed <- process rest ;;
      Ok (r' :: processed)
  end.

Definition get_history (area : option string) (DB_REF : option firebase) : response :=
  if falsy_str area then
    {| status := 400; payload := Error "Missing 'area' query parameter." None |}
  else
    let area := default EmptyString area in
    match DB_REF with
    | None => {| status := 500; payload := Error "Database connection error." None |}
    | Some fb =>
        try_except
          (let area_key := storage_name area in
           data <- range_get fb area_key 100 ;;
           match data with
           | [] => Ok {| status := 404;
                         payload := Message ("No data found for " +:+ area +:+ ".") |}
           | _ =>
               history <- sort_by_timestamp (data.*2) ;;
               processed_history <- process history ;;
               Ok {| status := 200;
                     payload := History area (length processed_history)
                                        processed_history |}
           end)
          (fun e => {| status := 500;
                       payload := Error "Failed to fetch history: " (Some e) |})
    end.

(** ** [/ingest] *)

Definition required_fields : list string :=
  ["area"; "TDS"; "Ca"; "Mg"; "pH"; "turbidity"; "chlorine"].

(** [f"Bearer {os.getenv('IOT_DEVICE_SECRET')}"]; an unset variable
    formats as [None]. *)
Definition expected_token (IOT_DEVICE_SECRET : option string) : string :=
  "Bearer " +:+ default "None" IOT_DEVICE_SECRET.

Definition has_all_fields (data : record) : bool :=
  forallb (fun field => bool_decide (is_Some (data !! field))) required_fields.

(** [data['area'].replace(" ", "_")] *)
Definition area_key_of (data : record) : outcome string :=
  a <- getitem data "area" ;;
  match a with
  | VStr s => Ok (storage_name s)
  | _ => Raise AttributeError
  end.

(** One request: the [Authorization] header if any, what
    [request.get_json()] returns (a JSON object, or [None] for a body that
    is the JSON [null]), the secret of the environment, the store and the
    clock. The result is the response together with the store after the
    request. A body that is no JSON document does not get past
    [get_json]: the framework answers for it, not these statements. *)
Definition ingest_data (authorization : option string)
    (IOT_DEVICE_SECRET : option string) (DB_REF : option firebase)
    (json : option record) (now : Key.datetime)
  : response * option firebase :=
  let auth_header := default EmptyString authorization in
  if negb (String.eqb auth_header (expected_token IOT_DEVICE_SECRET)) then
    ({| status := 401;
        payload := Error "Authentication Failed. Invalid IOT_DEVICE_SECRET." None |},
     DB_REF)
  else
    match DB_REF with
    | None =>
        ({| status := 500; payload := Error "Database connection error." None |},
         DB_REF)
    | Some fb =>
        match json with
        | Some data =>
            if has_all_fields data then
              try_except
                (let timestamp := Key.strftime_iso now in
                 let data := <["timestamp" := VStr timestamp]> data in
                 area_key <- area_key_of data ;;
                 reversed_key <- match Key.reversed_key now with
                                 | Some k => Ok k
                                 | None => Raise ValueError
                                 end ;;
                 fb' <- set_at fb area_key reversed_key data ;;
                 Ok ({| status := 201; payload := Ingested timestamp |}, Some fb'))
                (fun e =>
                   ({| status := 500;
                       payload := Error "Internal server error during write: " (Some e) |},
                    DB_REF))
            else
              ({| status := 400;
                  payload := Error "Invalid or incomplete data payload. Requires all fields: area, TDS, Ca, Mg, pH, turbidity, chlorine" None |},
               DB_REF)
        | None =>
            ({| status := 400;
                payload := Error "Invalid or incomplete data payload. Requires all fields: area, TDS, Ca, Mg, pH, turbidity, chlorine" None |},
             DB_REF)
        end
    end.

End App.

(* ================================================================= *)
(** * water_modeler.py: classification and the forecast *)

Module Modeler.
Import Value.
Local Open Scope py_scope.

Definition CA_FACTOR : F.float := F.lit 2497 1000.   (* 2.497 *)
Definition MG_FACTOR : F.float := F.lit 4118 1000.   (* 4.118 *)

Definition HARDNESS_STANDARDS : gmap string Z :=
  <["Soft" := 75]> (<["Moderately Hard" := 150]> (<["Hard" := 300]> ∅)).

Definition standard (name : string) : Z := default 0 (HARDNESS_STANDARDS !! name).

Definition calculate_total_hardness (ca_mg_l mg_mg_l : value) : outcome value :=
  x <- mul_const ca_mg_l CA_FACTOR ;;
  y <- mul_const mg_mg_l MG_FACTOR ;;
  Ok (VFloat (F.add x y)).

Definition classify_hardness (hardness : value) : outcome string :=
  soft <- lt_int hardness (standard "Soft") ;;
  if soft then Ok "Soft"
  else
    moderate <- lt_int hardness (standard "Moderately Hard") ;;
    if moderate then Ok "Moderately Hard"
    else
      hard <- lt_int hardness (standard "Hard") ;;
      Ok (if hard then "Hard" else "Very Hard").

(** ** History frames *)

(** One row of the frame the forecast works on: the time stamp, parsed, as
    seconds on the time line, and the TDS cell, [None] when the record has
    no [TDS] key. *)
Record sample := { timestamp : Z; TDS : option F.float }.

Abbreviation frame := (list sample).

(** ['TDS' in df.columns]: some record carries the key. *)
Definition has_TDS_column (df : frame) : bool :=
  existsb (fun r => match TDS r with Some _ => true | None => false end) df.

(** [df.empty] *)
Definition empty (df : frame) : bool :=
  match df with [] => true | _ => false end.

(** What one call of [/get_history] on the data layer gives: an exception
    of [requests] (connection, time-out, error status, undecodable body),
    or the decoded [data] list. *)
Inductive reply :=
  | CallFailed
  | Data (rows : list sample).

Definition DAY : Z := 86400.

Definition max_retries : Z := 3.
Definition base_delay : F.float := F.lit 5 10.        (* 0.5 *)

(** The retry loop over the attempts still to make: the rows fetched if an
    attempt brought some, and the durations slept on the way. *)
Fixpoint fetch_attempts (P1 : Z -> reply) (attempts : list Z)
  : option (list sample) * list F.float :=
  match attempts with
  | [] => (None, [])
  | attempt :: rest =>
      match P1 attempt with
      | Data (r :: rows) => (Some (r :: rows), [])
      | _ =>
          let slept :=
            if attempt <? max_retries
            then [F.mul base_delay (F.of_Z (2 ^ (attempt - 1)))] else [] in
          let '(found, sleeps) := fetch_attempts P1 rest in
          (found, slept ++ sleeps)
      end
  end.

(** [self.areas.index(area)] *)
Fixpoint index (areas : list string) (area : string) : outcome Z :=
  match areas with
  | [] => Raise ValueError
  | a :: rest =>
      if String.eqb a area then Ok 0
      else (i <- index rest area ;; Ok (i + 1))
  end.

(** The generated series: [uniform i] is what [random.uniform(-10, 10)]
    returns in iteration [i], and [now i] what [datetime.now()] reads
    there, in seconds. *)
Definition mock_row (base_tds : Z) (uniform : Z -> F.float) (now : Z -> Z)
    (limit : Z) (i : Z) : sample :=
  let tds_value :=
    F.add (F.add (F.of_Z base_tds) (uniform i))
          (F.mul (F.div (F.of_Z i) (F.of_Z 10)) (F.of_Z 5)) in
  {| timestamp := now i - DAY * (limit - 1 - i);
     TDS := Some (F.round2 tds_value) |}.

Definition range (n : Z) : list Z := Z.of_nat <$> seq 0 (Z.to_nat n).

(** The rows generated for the area at position [i] of the known areas. *)
Definition mock_data (i : Z) (uniform : Z -> F.float) (now : Z -> Z)
    (limit : Z) : frame :=
  let base_tds := 350 + (i * 50) mod 200 in
  mock_row base_tds uniform now limit <$> range limit.

Record history := { df : frame; source : string; slept : list F.float }.

Definition _get_history_df (areas : list string) (P1 : Z -> reply)
    (uniform : Z -> F.float) (now : Z -> Z) (area : string) (limit : Z)
  : outcome history :=
  let '(found, sleeps) := fetch_attempts P1 [1; 2; 3] in
  match found with
  | Some data => Ok {| df := data; source := "real"; slept := sleeps |}
  | None =>
      i <- index areas area ;;
      Ok {| df := mock_data i uniform now limit; source := "mock"; slept := sleeps |}
  end.

(** ** The forecast *)

Inductive trend :=
  | Insufficient      (* "Insufficient historical data to generate a reliable forecast." *)
  | TrainingError     (* "Prediction failed due to model training error." *)
  | Stable (tds_change : F.float)         (* "... remain **stable** ..." *)
  | Increasing (tds_change : F.float)     (* "... slight **increasing trend** ..." *)
  | Decreasing (tds_change : F.float).    (* "... slight **decreasing trend** ..." *)

Record prediction := { date : Z; predicted_tds : F.float }.

(** The [dict] [predict_area_trend] returns; [result_source] is [None]
    when the dictionary has no ["source"] key. *)
Record forecast := {
  result_area : string;
  predictions : list prediction;
  model_used : string;
  trend_message : trend;
  result_source : option string
}.

(** [df.sort_values(by='timestamp')]; rows of the same instant keep their
    order. *)
Fixpoint insert_sample (x : sample) (l : frame) : frame :=
  match l with
  | [] => [x]
  | y :: l' => if timestamp x <? timestamp y then x :: y :: l'
               else y :: insert_sample x l'
  end.

Definition sort_values (d : frame) : frame :=
  fold_left (fun sorted x => insert_sample x sorted) d [].

(** [.min()] and [.max()] of a column ([d] for an empty one). *)
Definition minimum (l : list Z) (d : Z) : Z :=
  match l with [] => d | x :: rest => fold_left Z.min rest x end.
Definition maximum (l : list Z) (d : Z) : Z :=
  match l with [] => d | x :: rest => fold_left Z.max rest x end.

(** The cell of the [TDS] column, NaN where the record has none. *)
Definition cell (r : sample) : F.float := default S754_nan (TDS r).

(** [enumerate(predicted_tds)], the dates one day apart after [last]. *)
Fixpoint dated (last : Z) (i : Z) (predicted : list F.float) : list prediction :=
  match predicted with
  | [] => []
  | tds :: rest =>
      {| date := last + DAY * (i + 1); predicted_tds := tds |}
        :: dated last (i + 1) rest
  end.

(** The columns the regression is trained on: the frame sorted by time,
    the whole days since its first row, and the TDS cells. *)
Definition time_index (df_history : frame) : list Z :=
  let first := minimum (timestamp <$> df_history) 0 in
  (fun r => (timestamp r - first) / DAY) <$> df_history.

Section Forecast.

(** The regression routine is scikit-learn's [LinearRegression]: [fit]
    takes the day offsets and the values and raises [ValueError] ([None])
    on what it does not accept; [predict] evaluates the fitted line. *)
Variable model : Type.
Variable fit : list Z -> list F.float -> option model.
Variable predict : model -> list Z -> outcome (list F.float).

Definition predict_area_trend (areas : list string) (P1 : Z -> reply)
    (uniform : Z -> F.float) (now : Z -> Z) (area : string) (future_steps : Z)
  : outcome forecast :=
  res <- _get_history_df areas P1 uniform now area 30 ;;
  let df_history := df res in
  let source := source res in
  if empty df_history || negb (has_TDS_column df_history) then
    Ok {| result_area := area; predictions := []; model_used := "None";
          trend_message := Insufficient; result_source := Some source |}
  else
    let df_history := sort_values df_history in
    let time_index := time_index df_history in
    let X := time_index in
    let y := cell <$> df_history in
    match fit X y with
    | None =>
        Ok {| result_area := area; predictions := [];
              model_used := "LinearRegression";
              trend_message := TrainingError; result_source := None |}
    | Some fitted =>
        let last_index := maximum time_index 0 in
        let future_indices := (fun k => last_index + 1 + k) <$> range future_steps in
        predicted_tds <- predict fitted future_indices ;;
        let predictions :=
          dated (maximum (timestamp <$> df_history) 0) 0 predicted_tds in
        let current_tds := List.last y S754_nan in
        final_predicted_tds <- match List.last (Some <$> predicted_tds) None with
                               | Some p => Ok p
                               | None => Raise IndexError
                               end ;;
        let tds_change := F.sub final_predicted_tds current_tds in
        let trend_message :=
          if is_lt (F.compare_Z (SFabs tds_change) 5) then Stable tds_change
          else if is_gt (F.compare_Z tds_change 0) then Increasing tds_change
          else Decreasing tds_change in
        Ok {| result_area := area; predictions := predictions;
              model_used := "LinearRegression";
              trend_message := trend_message; result_source := Some source |}
    end.

End Forecast.

(** ** A least-squares line in double arithmetic

    It stands for the third-party routine where a statement needs a
    concrete one: the line through the points that minimises the squared
    error, flat when all the offsets coincide; [fit] refuses an empty
    series and cells that are not finite, [predict] an empty request, as
    the input validation of scikit-learn does. *)

Record line := { coef : F.float; intercept : F.float }.

Definition fsum (l : list F.float) : F.float := fold_left F.add l (S754_zero false).

Definition mean (l : list F.float) : F.float :=
  F.div (fsum l) (F.of_Z (Z.of_nat (length l))).

Definition ols_fit (X : list Z) (y : list F.float) : option line :=
  if bool_decide (X = []) || negb (forallb F.is_finite y) then None
  else
    let xs := F.of_Z <$> X in
    let mx := mean xs in
    let my := mean y in
    let dx := (fun x => F.sub x mx) <$> xs in
    let dy := (fun v => F.sub v my) <$> y in
    let sxx := fsum ((fun d => F.mul d d) <$> dx) in
    let sxy := fsum (zip_with F.mul dx dy) in
    let slope := if is_gt (F.compare_Z sxx 0) then F.div sxy sxx else S754_zero false in
    Some {| coef := slope; intercept := F.sub my (F.mul slope mx) |}.

Definition ols_predict (m : line) (X : list Z) : outcome (list F.float) :=
  match X with
  | [] => Raise ValueError
  | _ => Ok ((fun x => F.add (F.mul (coef m) (F.of_Z x)) (intercept m)) <$> X)
  end.

End Modeler.

(* ================================================================= *)
(** * ml_api.py: the treatment jobs *)

Module Jobs.
Import Value.

Inductive state := queued | running | completed | failed.

Record job_result := {
  final_hardness_mg_l : option F.float;
  result_device : value;
  result_area : value;
  result_volume_liters : F.float
}.

Record job := {
  job_id : string;
  status : state;
  progress : Z;
  area : value;
  device : value;
  volume_liters : F.float;
  estimated_minutes : option F.float;
  result : option job_result;
  error : option exn          (* str(e) of the exception caught *)
}.

Definition with_status (s : state) (j : job) : job :=
  {| job_id := job_id j; status := s; progress := progress j;
     area := area j; device := device j; volume_liters := volume_liters j;
     estimated_minutes := estimated_minutes j; result := result j;
     error := error j |}.

Definition with_progress (p : Z) (j : job) : job :=
  {| job_id := job_id j; status := status j; progress := p;
     area := area j; device := device j; volume_liters := volume_liters j;
     estimated_minutes := estimated_minutes j; result := result j;
     error := error j |}.

Definition with_result (r : job_result) (j : job) : job :=
  {| job_id := job_id j; status := status j; progress := progress j;
     area := area j; device := device j; volume_liters := volume_liters j;
     estimated_minutes := estimated_minutes j; result := Some r;
     error := error j |}.

Definition with_error (e : exn) (j : job) : job :=
  {| job_id := job_id j; status := status j; progress := progress j;
     area := area j; device := device j; volume_liters := volume_liters j;
     estimated_minutes := estimated_minutes j; result := result j;
     error := Some e |}.

(** ** The shared job map and what an observer can see of it

    [JOBS] is the global dictionary. Every access happens inside
    [with JOBS_LOCK:], so an observer sees the map as it is when a
    critical section ends: [seen] lists those contents, oldest first. *)
Record world := {
  JOBS : gmap string job;
  seen : list (gmap string job)
}.

Definition M (A : Type) : Type := world -> outcome A * world.

Definition ret {A} (a : A) : M A := fun w => (Ok a, w).

Definition mbind {A B} (m : M A) (k : A -> M B) : M B :=
  fun w =>
    match m w with
    | (Ok a, w') => k a w'
    | (Raise e, w') => (Raise e, w')
    end.

Definition lift {A} (o : outcome A) : M A := fun w => (o, w).

(** [try: m except Exception as e: h e] *)
Definition try_catch {A} (m : M A) (h : exn -> M A) : M A :=
  fun w =>
    match m w with
    | (Ok a, w') => (Ok a, w')
    | (Raise e, w') => h e w'
    end.

(** [with JOBS_LOCK: m] *)
Definition locked {A} (m : M A) : M A :=
  fun w =>
    let '(r, w') := m w in
    (r, {| JOBS := JOBS w'; seen := seen w' ++ [JOBS w'] |}).

Declare Scope jobs_scope.
Delimit Scope jobs_scope with jobs.
Notation "x <- m ;; k" := (mbind m (fun x => k))
  (at level 100, m at next level, right associativity) : jobs_scope.
Notation "m ;;; k" := (mbind m (fun _ => k))
  (at level 100, right associativity) : jobs_scope.
Local Open Scope jobs_scope.

(** [JOBS[job_id][field] = ...] *)
Definition update (id : string) (f : job -> job) : M unit :=
  fun w =>
    match JOBS w !! id with
    | Some j => (Ok tt, {| JOBS := <[id := f j]> (JOBS w); seen := seen w |})
    | None => (Raise KeyError, w)
    end.

(** [JOBS[job_id] = job] *)
Definition register (id : string) (j : job) : M unit :=
  fun w => (Ok tt, {| JOBS := <[id := j]> (JOBS w); seen := seen w |}).

Fixpoint for_each {A} (l : list A) (body : A -> M unit) : M unit :=
  match l with
  | [] => ret tt
  | x :: rest => body x ;;; for_each rest body
  end.

(** [a / b] on floats *)
Definition truediv (a b : F.float) : outcome F.float :=
  match b with
  | S754_zero _ => Raise ZeroDivisionError
  | _ => Ok (F.div a b)
  end.

(** [int(x)] on a float *)
Definition int_of_float (x : F.float) : outcome Z :=
  match F.trunc x with
  | Some z => Ok z
  | None => Raise (if F.is_nan x then ValueError else OverflowError)
  end.

Definition steps : Z := 10.

Section Worker.

(** The process environment and the clock: what
    [float(os.environ.get('TREATMENT_TIME_SCALE', '1'))] evaluates to, and
    whether [sleep] accepts a duration. *)
Variable TREATMENT_TIME_SCALE : outcome F.float.
Variable sleep : F.float -> outcome unit.

(** The progress written after step [i]. *)
Definition progress_after (i : Z) : outcome Z :=
  int_of_float (F.mul (F.div (F.of_Z (i + 1)) (F.of_Z steps)) (F.of_Z 100)).

Definition _run_treatment_job (job_id : string) (duration_minutes : F.float)
    (device area : value) (volume_liters : F.float)
    (current_hardness : option F.float) (removal_efficiency : F.float)
  : M unit :=
  try_catch
    (locked (update job_id (with_status running) ;;;
             update job_id (with_progress 0)) ;;;
     scale <- lift TREATMENT_TIME_SCALE ;;
     q <- lift (truediv duration_minutes scale) ;;
     let sleep_seconds := F.max (F.lit 1 10) q in
     let step_sleep := F.div sleep_seconds (F.of_Z steps) in
     for_each (Modeler.range steps)
       (fun i =>
          lift (sleep step_sleep) ;;;
          p <- lift (progress_after i) ;;
          locked (update job_id (with_progress p))) ;;;
     let final_hardness :=
       (fun h => F.max (S754_zero false)
                       (F.mul (F.sub (F.of_Z 1) removal_efficiency) h))
         <$> current_hardness in
     locked (update job_id (with_status completed) ;;;
             update job_id (with_progress 100) ;;;
             update job_id (with_result
               {| final_hardness_mg_l := F.round2 <$> final_hardness;
                  result_device := device;
                  result_area := area;
                  result_volume_liters := volume_liters |})))
    (fun e =>
       locked (update job_id (with_status failed) ;;;
               update job_id (with_error e))).

(** ** [/start_treatment] *)

Inductive reply :=
  | Started (job_id : string) (estimated_minutes : option F.float)   (* 200 *)
  | MissingParameters                                                 (* 400 *)
  | ServerError (e : exn).                                            (* 500 *)

(** [x or 0.0] *)
Definition or_zero (x : option F.float) : F.float :=
  match x with
  | Some (S754_zero _) | None => S754_zero false
  | Some v => v
  end.

(** The request after decoding: [area] and [device] as sent, and what the
    three [float(data.get(...))] conversions evaluate to; [uuid4] is the
    identifier drawn, [latest_hardness] what
    [_get_latest_hardness_for_area] finds. Next to the reply comes the
    target of the thread that was started, if one was. *)
Definition start_treatment (area device : value)
    (volume_liters removal_efficiency flow_L_per_min : outcome F.float)
    (latest_hardness : option F.float) (uuid4 : string)
  : M (reply * option (M unit)) :=
  try_catch
    (volume_liters <- lift volume_liters ;;
     removal_efficiency <- lift removal_efficiency ;;
     flow_L_per_min <- lift flow_L_per_min ;;
     if negb (truthy area && truthy device
              && is_gt (F.compare_Z volume_liters 0)) then
       ret (MissingParameters, None)
     else
       let current_hardness := latest_hardness in
       let est_minutes :=
         if is_gt (F.compare_Z flow_L_per_min 0)
         then Some (F.div volume_liters flow_L_per_min) else None in
       let job_id := uuid4 in
       let job :=
         {| job_id := job_id; status := queued; progress := 0;
            area := area; device := device; volume_liters := volume_liters;
            estimated_minutes := est_minutes; result := None; error := None |} in
       locked (register job_id job) ;;;
       let t := _run_treatment_job job_id (or_zero est_minutes) device area
                  volume_liters (Some (or_zero current_hardness))
                  removal_efficiency in
       ret (Started job_id est_minutes, Some t))
    (fun e => ret (ServerError e, None)).

(** A request followed by the run of the thread it started. An exception
    that leaves the thread ends the thread only. *)
Definition start_and_run (request : M (reply * option (M unit))) : M reply :=
  r <- request ;;
  match r.2 with
  | Some t => try_catch t (fun _ => ret tt)
  | None => ret tt
  end ;;;
  ret r.1.

End Worker.

(** What an observer polling one job sees, oldest first. *)
Definition history_of (id : string) (w : world) : list (option job) :=
  (fun jobs => jobs !! id) <$> seen w.

(** [/job_status/<job_id>] *)
Definition job_status (id : string) (w : world) : option job := JOBS w !! id.

End Jobs.

(* ================================================================= *)
(** * Formatting floats, as the format specification [.Nf] does *)

Module Fmt.

(** The digits of [r / 10^digits], with [digits] decimals. *)
Definition decimal (digits : nat) (r : Z) : string :=
  let scale := 10 ^ Z.of_nat digits in
  Py.str (r / scale) +:+
  match digits with
  | O => EmptyString
  | _ => "." +:+ Py.fixed digits (r mod scale)
  end.

(** [format(x, '.Nf')]: the exact value of the double, rounded to [N]
    decimals with ties to even; the sign is the sign of [x], a negative
    zero included. *)
Definition format_f (digits : nat) (x : F.float) : string :=
  match x with
  | S754_nan => "nan"
  | S754_infinity s => if s then "-inf" else "inf"
  | S754_zero s => (if s then "-" else "") +:+ decimal digits 0
  | S754_finite s m e =>
      let scale := 10 ^ Z.of_nat digits in
      let r := if 0 <=? e then F.round_half_even (Zpos m * scale * 2 ^ e) 1
               else F.round_half_even (Zpos m * scale) (2 ^ (- e)) in
      (if s then "-" else "") +:+ decimal digits r
  end.

End Fmt.

(* ================================================================= *)
(** * water_modeler.py: alerts and household suitability *)

Module Analysis.
Import Value Fmt.

(** [sep.join(l)] *)
Fixpoint join (sep : string) (l : list string) : string :=
  match l with
  | [] => EmptyString
  | [x] => x
  | x :: rest => x +:+ sep +:+ join sep rest
  end.

Definition nl : string := String (ascii_of_nat 10) EmptyString.

(** ** [generate_alerts] *)

(** The list [alerts] the function collects. *)
Definition alerts (tds ph turbidity chlorine : F.float) : list string :=
  (if is_gt (F.compare_Z tds 500)
   then ["High TDS (" +:+ format_f 0 tds +:+ " mg/L) detected."] else []) ++
  (if F.ltb ph (F.lit 65 10)
   then ["Low pH (" +:+ format_f 1 ph +:+ "). Water is acidic."]
   else if F.ltb (F.lit 85 10) ph
   then ["High pH (" +:+ format_f 1 ph +:+ "). Water is too alkaline."] else []) ++
  (if F.ltb (F.of_Z 5) turbidity
   then ["Critical Turbidity (" +:+ format_f 1 turbidity +:+ " NTU) detected."] else []) ++
  (if F.ltb chlorine (F.lit 2 10) && is_lt (F.compare_Z tds 500)
   then ["Low Chlorine residual (" +:+ format_f 2 chlorine +:+ " mg/L)."] else []).

Definition all_clear : string :=
  "✅ All contamination metrics are within acceptable limits.".

Definition generate_alerts (tds ph turbidity chlorine : F.float) : string :=
  match alerts tds ph turbidity chlorine with
  | [] => all_clear
  | found => "⚠️ ALERT: " +:+ join " | " found
  end.

(** ** [_get_optimal_parameters_and_conversion] *)

Record optimal := {
  opt_TDS : Z * Z;
  opt_Hardness : Z * Z;
  opt_pH : F.float * F.float
}.

Definition optimal_map : gmap string optimal :=
  list_to_map
    [("Drinking/Cooking",
       {| opt_TDS := (100, 300); opt_Hardness := (50, 100);
          opt_pH := (F.lit 70 10, F.lit 75 10) |});
     ("Washing/Laundry",
       {| opt_TDS := (0, 300); opt_Hardness := (0, 60);
          opt_pH := (F.lit 65 10, F.lit 85 10) |});
     ("Gardening",
       {| opt_TDS := (50, 500); opt_Hardness := (50, 150);
          opt_pH := (F.lit 60 10, F.lit 75 10) |});
     ("Dishwashing (Machine)",
       {| opt_TDS := (0, 100); opt_Hardness := (0, 15);
          opt_pH := (F.lit 70 10, F.lit 80 10) |})].

Definition default_optimal : optimal :=
  {| opt_TDS := (100, 500); opt_Hardness := (50, 150);
     opt_pH := (F.lit 65 10, F.lit 85 10) |}.

Record conversion_advice := {
  ca_target : string;
  mg_target : string;
  notes : string
}.

Record optimal_data := {
  optimal_hardness : Z * Z;
  optimal_tds : Z * Z;
  optimal_ph : F.float * F.float;
  advice : conversion_advice
}.

Definition _get_optimal_parameters_and_conversion (chore : string) (volume : F.float)
  : optimal_data :=
  let params := default default_optimal (optimal_map !! chore) in
  let target_hardness_max := (opt_Hardness params).2 in
  let max_Ca_mg_l := F.div (F.of_Z target_hardness_max) (F.lit 25 10) in
  let max_Mg_mg_l := F.div (F.of_Z target_hardness_max) (F.lit 41 10) in
  let notes :=
    if String.eqb chore "Drinking/Cooking" then
      "For the best taste and health, the target Hardness is "
      +:+ Py.str target_hardness_max +:+ " mg/L. "
      +:+ "Aim for a final water concentration of **Ca: 20-50 mg/L** and **Mg: 10-30 mg/L** "
      +:+ "(maintaining a roughly 2:1 ratio for optimal intake)."
    else
      "For " +:+ chore +:+ ", the target maximum Hardness is "
      +:+ Py.str target_hardness_max +:+ " mg/L. "
      +:+ "This implies Calcium (Ca) should be less than " +:+ format_f 1 max_Ca_mg_l +:+ " mg/L "
      +:+ "and Magnesium (Mg) less than " +:+ format_f 1 max_Mg_mg_l +:+ " mg/L in the final water "
      +:+ "to prevent scaling and residue. Conversion via Softener or RO is recommended." in
  {| optimal_hardness := opt_Hardness params;
     optimal_tds := opt_TDS params;
     optimal_ph := opt_pH params;
     advice :=
       {| ca_target := "Max " +:+ format_f 1 max_Ca_mg_l +:+ " mg/L (as CaCO3 equiv.)";
          mg_target := "Max " +:+ format_f 1 max_Mg_mg_l +:+ " mg/L (as CaCO3 equiv.)";
          notes := notes |} |}.

(** ** [_get_chore_specific_analysis] *)

Definition not_recognized : string :=
  "Task not recognized. Please choose from: Drinking/Cooking, Washing/Laundry, Gardening, Dishwashing (Machine).".

Definition finish (analysis : list string) (recommendation : string) : string :=
  join nl analysis +:+ nl +:+ nl +:+ "**OVERALL RECOMMENDATION:** " +:+ recommendation.

Definition _get_chore_specific_analysis (chore : string)
    (tds hardness ph chlorine : F.float) : string :=
  if String.eqb chore "Drinking/Cooking" then
    let '(recommendation, line) :=
      if is_le (F.compare_Z tds 300) then
        ("Excellent for drinking. Low TDS suggests minimal processing is needed.",
         "💧 **TDS (" +:+ format_f 0 tds +:+ " mg/L):** Ideal. Excellent taste and mineral balance.")
      else if is_le (F.compare_Z tds 500) then
        ("Good for drinking. Acceptable under WHO limits.",
         "👍 **TDS (" +:+ format_f 0 tds +:+ " mg/L):** Good. Within WHO limits, but may have a noticeable taste.")
      else
        ("Not recommended for drinking. Requires RO/advanced filtration to reduce dissolved solids.",
         "❌ **TDS (" +:+ format_f 0 tds +:+ " mg/L):** Poor. High TDS, risk of bad taste/digestive issues.") in
    let ph_line :=
      if F.leb (F.lit 65 10) ph && F.leb ph (F.lit 85 10) then
        "⚖️ **pH (" +:+ format_f 1 ph +:+ "):** Optimal. Perfectly balanced."
      else
        "⚠️ **pH (" +:+ format_f 1 ph +:+ "):** Suboptimal. May cause digestive or metallic taste issues." in
    finish ["--- FOCUSED ANALYSIS: Drinking & Cooking ---"; line; ph_line] recommendation
  else if String.eqb chore "Washing/Laundry" || String.eqb chore "Dishwashing (Machine)" then
    let '(recommendation, line) :=
      if is_le (F.compare_Z hardness 75) then
        ("Excellent for washing. Soft water prevents scaling and requires less detergent.",
         "🧺 **Hardness (" +:+ format_f 0 hardness +:+ " mg/L):** Soft. Ideal for all cleaning tasks.")
      else if is_le (F.compare_Z hardness 150) then
        ("Acceptable for washing. May notice minor scale or need slightly more detergent.",
         "🧼 **Hardness (" +:+ format_f 0 hardness +:+ " mg/L):** Moderately Hard. Acceptable, but scale may form.")
      else
        ("Poor for washing. Highly recommend a **Water Softener** to protect appliances and clothes.",
         "🧽 **Hardness (" +:+ format_f 0 hardness +:+ " mg/L):** Hard/Very Hard. Causes severe scale, soap curd, and damage to heating elements.") in
    let residue :=
      if is_gt (F.compare_Z tds 800) && is_le (F.compare_Z hardness 150) then
        ["✨ **TDS (" +:+ format_f 0 tds +:+ " mg/L):** Very High. Can leave white residue on surfaces and clothes."]
      else [] in
    finish (["--- FOCUSED ANALYSIS: Washing & Laundry ---"; line] ++ residue) recommendation
  else if String.eqb chore "Gardening" then
    let '(recommendation, line) :=
      if is_le (F.compare_Z tds 300) then
        ("Excellent for all plants, including sensitive varieties.",
         "🌿 **TDS (" +:+ format_f 0 tds +:+ " mg/L):** Ideal. Prevents nutrient lock-out.")
      else if is_le (F.compare_Z tds 800) then
        ("Good for general landscaping and hardy plants. Monitor for salt buildup.",
         "🌻 **TDS (" +:+ format_f 0 tds +:+ " mg/L):** Acceptable. Suitable for most plants, but avoid prolonged use on sensitive types.")
      else
        ("Use with caution. High TDS can burn sensitive plants or prevent water uptake (osmotic stress).",
         "🌵 **TDS (" +:+ format_f 0 tds +:+ " mg/L):** High. Only suitable for salt-tolerant plants. Not recommended for vegetables/ornamentals.") in
    let chlorine_line :=
      if F.ltb chlorine (F.lit 5 10) then
        "🧪 **Chlorine (" +:+ format_f 2 chlorine +:+ " mg/L):** Low/Optimal. Safe for plants."
      else
        "⚠️ **Chlorine (" +:+ format_f 2 chlorine +:+ " mg/L):** High. Consider letting water sit overnight or using a de-chlorinator before use." in
    finish ["--- FOCUSED ANALYSIS: Gardening & Plants ---"; line; chlorine_line] recommendation
  else not_recognized.

(** ** [determine_suitability] *)

(** [str(x)] of a bound of the table, a float written with one decimal:
    its shortest representation is that one decimal. *)
Definition str_tenths (x : F.float) : string := format_f 1 x.

Inductive suitability :=
  | Focused (current_analysis : string)
            (hardness tds ph : string)          (* "optimal_parameters" *)
            (conversion : conversion_advice)
  | General (text : string).

Definition determine_suitability (tds hardness ph chlorine : F.float)
    (target_chore : option string) (volume : F.float) : suitability :=
  if negb (falsy_str target_chore) then
    let target_chore := default EmptyString target_chore in
    let analysis_string :=
      _get_chore_specific_analysis target_chore tds hardness ph chlorine in
    let optimal_data := _get_optimal_parameters_and_conversion target_chore volume in
    Focused analysis_string
      (Py.str (optimal_hardness optimal_data).1 +:+ " - "
       +:+ Py.str (optimal_hardness optimal_data).2 +:+ " mg/L")
      (Py.str (optimal_tds optimal_data).1 +:+ " - "
       +:+ Py.str (optimal_tds optimal_data).2 +:+ " mg/L")
      (str_tenths (optimal_ph optimal_data).1 +:+ " - "
       +:+ str_tenths (optimal_ph optimal_data).2)
      (advice optimal_data)
  else
    General
      (join nl
         ["--- GENERAL HOUSEHOLD SUITABILITY ---";
          if is_le (F.compare_Z tds 500)
          then "💧 **Drinking/Cooking:** Good (Within WHO limit)."
          else "❌ **Drinking/Cooking:** Not recommended (High TDS). Requires RO/filtration.";
          if is_le (F.compare_Z hardness 150)
          then "🧼 **Washing/Laundry:** Acceptable (Moderately hard or softer)."
          else "🧽 **Washing/Laundry:** Poor (Hard water, causes scale build-up and requires extra detergent)."]).

End Analysis.

(* ================================================================= *)
(** * ml_api.py: [/analyze_sample] *)

Module MlApi.
Import Value Fmt Analysis.
Local Open Scope py_scope.

Definition required_fields : list string :=
  ["area"; "TDS"; "pH"; "Ca"; "Mg"; "turbidity"; "chlorine"].

Definition has_all_fields (data : record) : bool :=
  forallb (fun field => bool_decide (is_Some (data !! field))) required_fields.

(** The [AnalysisResult] returned with status 200. *)
Record analysis := {
  r_area : value;
  r_TDS : F.float;
  r_pH : F.float;
  r_Ca : F.float;
  r_Mg : F.float;
  r_turbidity : F.float;
  r_chlorine : F.float;
  calculated_hardness : F.float;
  r_status : string;
  alert_message : string;
  recommended_action : string;
  r_target_chore : value;
  household_suitability : suitability
}.

Inductive body :=
  | Result (r : analysis)
  | Error (msg : string) (cause : option exn).   (* msg + type(e).__name__ + str(e) *)

Record response := { status : Z; payload : body }.

Section AnalyzeSample.

(** Two built-ins on text: [float(s)] for a [str], and [str(x)] for a
    [float]. *)
Variable float_of_str : string -> outcome F.float.
Variable repr_float : F.float -> string.

(** [float(v)] *)
Definition to_float (v : value) : outcome F.float :=
  match v with
  | VFloat f => Ok f
  | VInt z => float_of_int z
  | VBool b => float_of_int (if b then 1 else 0)
  | VStr s => float_of_str s
  | VNone | VList _ | VDict _ => Raise TypeError
  end.

(** How [determine_suitability] takes the [target_chore] of the payload.
    A falsy value selects the general text. A value that is not a string
    compares unequal to every chore name and, looked up in the table of
    targets, is not found, so it is treated as the chore named by its
    [str]; a list or a dictionary cannot be looked up: [TypeError]. *)
Definition chore_name (target_chore : value) : outcome (option string) :=
  if negb (truthy target_chore) then Ok None
  else
    match target_chore with
    | VStr s => Ok (Some s)
    | VInt z => Ok (Some (Py.str z))
    | VBool _ => Ok (Some "True")
    | VFloat f => Ok (Some (repr_float f))
    | _ => Raise TypeError
    end.

(** [json] is what [request.get_json()] returns: a JSON object, or [None]
    for a body that is the JSON [null]. A body that is no JSON document
    does not get past [get_json], which raises in the framework before
    the test on [data]. *)
Definition analyze_sample (json : option record) : response :=
  match json with
  | None =>
      {| status := 400;
         payload := Error "Invalid payload. Missing fields: area, TDS, pH, Ca, Mg, turbidity, chlorine" None |}
  | Some data =>
      if negb (has_all_fields data) then
        {| status := 400;
           payload := Error "Invalid payload. Missing fields: area, TDS, pH, Ca, Mg, turbidity, chlorine" None |}
      else
        try_except
          (tds <- (v <- getitem data "TDS" ;; to_float v) ;;
           ph <- (v <- getitem data "pH" ;; to_float v) ;;
           ca <- (v <- getitem data "Ca" ;; to_float v) ;;
           mg <- (v <- getitem data "Mg" ;; to_float v) ;;
           turbidity <- (v <- getitem data "turbidity" ;; to_float v) ;;
           chlorine <- (v <- getitem data "chlorine" ;; to_float v) ;;
           area <- getitem data "area" ;;
           let target_chore := get data "target_chore" in
           h <- Modeler.calculate_total_hardness (VFloat ca) (VFloat mg) ;;
           total_hardness <- promote h ;;
           status <- Modeler.classify_hardness h ;;
           let alert_message := generate_alerts tds ph turbidity chlorine in
           chore <- chore_name target_chore ;;
           let household_suitability :=
             determine_suitability tds total_hardness ph chlorine chore (F.of_Z 1) in
           let recommended_action :=
             if String.eqb status "Very Hard" || String.eqb status "Hard" then
               "High hardness detected. Recommend a **Water Softener** or Reverse Osmosis (RO) system to prevent scaling."
             else if is_gt (F.compare_Z tds 500) then
               "High TDS level. Recommend **Reverse Osmosis (RO)** system."
             else if F.ltb (F.of_Z 5) turbidity then
               "High turbidity indicates suspended solids. Recommend a **Sediment Filter**."
             else
               "Water quality is acceptable, but regular monitoring is advised. No immediate treatment needed." in
           Ok {| status := 200;
                 payload := Result
                   {| r_area := area; r_TDS := tds; r_pH := ph; r_Ca := ca; r_Mg := mg;
                      r_turbidity := turbidity; r_chlorine := chlorine;
                      calculated_hardness := total_hardness;
                      r_status := status;
                      alert_message := alert_message;
                      recommended_action := recommended_action;
                      r_target_chore := if truthy target_chore then target_chore
                                        else VStr "General Analysis";
                      household_suitability := household_suitability |} |})
          (fun e => {| status := 500;
                       payload := Error "Internal ML analysis failed: " (Some e) |})
  end.

End AnalyzeSample.

(** The six measurements, in the order they are converted. *)
Definition measurements : list string :=
  ["TDS"; "pH"; "Ca"; "Mg"; "turbidity"; "chlorine"].

End MlApi.

(* ================================================================= *)
(** * The [/predict] routes (water_modeler.py and ml_api.py) *)

Module Routes.
Import Value Modeler Analysis.
Local Open Scope py_scope.

Inductive body :=
  | Forecast (r : forecast)                     (* jsonify(prediction_result) *)
  | Error (msg : string) (cause : option exn).  (* {"error": msg + type(e).__name__ + str(e)} *)

Record response := { status : Z; payload : body }.

Section Predict.

(** The state of [MODELER] and its surroundings during one request: the
    regression routine, the areas fetched at start-up, the replies of the
    data layer to the attempts, the random draws and the clock. *)
Variable model : Type.
Variable fit : list Z -> list F.float -> option model.
Variable predict : model -> list Z -> outcome (list F.float).
Variable areas : list string.
Variable P1 : Z -> reply.
Variable uniform : Z -> F.float.
Variable now : Z -> Z.

(** [get_forecast] of water_modeler.py *)
Definition modeler_get_forecast (area : option string) : response :=
  if falsy_str area then
    {| status := 400; payload := Error "Missing 'area' parameter." None |}
  else
    let area := default EmptyString area in
    try_except
      (prediction_result <-
         predict_area_trend model fit predict areas P1 uniform now area 7 ;;
       Ok {| status := 200; payload := Forecast prediction_result |})
      (fun e => {| status := 500;
                   payload := Error "Failed to get prediction: " (Some e) |}).

(** [get_forecast] of ml_api.py. Every dictionary [predict_area_trend]
    returns is non-empty and has the key ["predictions"], which the
    record type [forecast] reflects: the test on it holds. *)
Definition get_forecast (area : option string) : response :=
  if falsy_str area then
    {| status := 400;
       payload := Error "Missing 'area' query parameter. Example: /predict?area=Whitefield" None |}
  else
    let area := default EmptyString area in
    if negb (bool_decide (area ∈ areas)) then
      {| status := 404;
         payload := Error ("Area '" +:+ area +:+ "' not monitored. Available areas: "
                           +:+ join ", " areas) None |}
    else
      try_except
        (prediction_result <-
           predict_area_trend model fit predict areas P1 uniform now area 7 ;;
         Ok {| status := 200; payload := Forecast prediction_result |})
        (fun e => {| status := 500;
                     payload := Error "Internal ML service error during prediction: " (Some e) |}).

End Predict.

End Routes.

(* ================================================================= *)
(** * simulator.py: seeding the store *)

Module Simulator.
Import Value Store.
Local Open Scope py_scope.

(** One row of the generated frame: [row['area']], the instant
    [row['timestamp']] was formatted from (parsing the string gives it
    back), and [row.to_dict()]. *)
Record row := {
  row_area : string;
  row_time : Key.datetime;
  to_dict : record
}.

(** [ref.child(row['area'].replace(" ", "_")).child(timestamp_key).set(row.to_dict())] *)
Definition push_row (fb : firebase) (r : row) : outcome firebase :=
  set_at fb (App.storage_name (row_area r)) (Key.timestamp_key (row_time r)) (to_dict r).

Fixpoint push_rows (fb : firebase) (df : list row) : outcome firebase :=
  match df with
  | [] => Ok fb
  | r :: rest => fb' <- push_row fb r ;; push_rows fb' rest
  end.

(** [push_to_firebase(df)]: [ref.delete()] clears the tree, then every
    row is written under its area and its 14-digit time. *)
Definition push_to_firebase (delete_raises : bool) (fb : firebase) (df : list row)
  : outcome firebase :=
  if delete_raises then Raise UpstreamError
  else push_rows {| fb_data := ∅; fb_raises := fb_raises fb |} df.

End Simulator.

(* ================================================================= *)
(** * iot_client.py: the device *)

Module IotClient.
Import Value.

Definition DEVICE_AREA : string := "Whitefield".
Definition TDS_MEAN : Z := 1050.
Definition HARDNESS_JITTER : Z := 20.

(** What the six calls of [random.uniform] return, in the order they are
    made. *)
Record draws := {
  u_tds : F.float; u_ca : F.float; u_mg : F.float;
  u_turbidity : F.float; u_chlorine : F.float; u_ph : F.float
}.

Definition generate_sensor_reading (u : draws) : record :=
  let tds := F.round2 (F.add (F.of_Z TDS_MEAN) (u_tds u)) in
  let ca := F.round2 (F.add (F.mul tds (F.lit 18 100)) (u_ca u)) in
  let mg := F.round2 (F.add (F.mul tds (F.lit 5 100)) (u_mg u)) in
  let turbidity := F.round2 (u_turbidity u) in
  let chlorine := F.round2 (u_chlorine u) in
  list_to_map [("area", VStr DEVICE_AREA); ("TDS", VFloat tds); ("Ca", VFloat ca);
               ("Mg", VFloat mg); ("pH", VFloat (F.round2 (u_ph u)));
               ("turbidity", VFloat turbidity); ("chlorine", VFloat chlorine)].

(** The [Authorization] header of [send_data]; an unset variable formats
    as [None]. *)
Definition authorization (IOT_DEVICE_SECRET : option string) : string :=
  "Bearer " +:+ default "None" IOT_DEVICE_SECRET.

(** [send_data] against the data layer: the status printed, and the
    store after the request. *)
Definition send_data (IOT_DEVICE_SECRET : option string) (u : draws)
    (server_secret : option string) (DB_REF : option Store.firebase)
    (now : Key.datetime) : App.response * option Store.firebase :=
  App.ingest_data (Some (authorization IOT_DEVICE_SECRET)) server_secret DB_REF
                  (Some (generate_sensor_reading u)) now.

End IotClient.

(* ================================================================= *)
(** * What the specification says, as predicates, and sample data *)

Module FloatSpec.

(** [x] is a zero, or a finite float below [2^k] in magnitude. *)
Definition below_pow2 (k : Z) (x : F.float) : Prop :=
  match x with
  | S754_zero _ => True
  | S754_finite _ m e => Z.pos (digits2_pos m) + e <= k
  | _ => False
  end.

(** [lo <= x <= hi], for a float and two integers. *)
Definition within (lo hi : Z) (x : F.float) : Prop :=
  Value.is_ge (F.compare_Z x lo) = true /\ Value.is_le (F.compare_Z x hi) = true.

End FloatSpec.

Module Spec.
Import Value.

(** A number: an [int], a [bool] or a [float]. *)
Definition is_number (v : value) : bool :=
  match v with
  | VInt _ | VBool _ | VFloat _ => true
  | _ => false
  end.

(** [h < k] and [h >= k] hold. *)
Definition below (h : value) (k : Z) : Prop := lt_int h k = Ok true.
Definition at_least (h : value) (k : Z) : Prop := ge_int h k = Ok true.

(** The label follows the closed-open classes cut at [a], [b] and [c]. *)
Definition classes_at (a b c : Z) (h : value) (label : string) : Prop :=
  (below h a -> label = "Soft") /\
  (at_least h a -> below h b -> label = "Moderately Hard") /\
  (at_least h b -> below h c -> label = "Hard") /\
  (at_least h c -> label = "Very Hard").

End Spec.

Module Samples.
Import Value Store.

(** A stored reading without [Ca] and without [TDS]. *)
Definition sparse_reading : record :=
  <["timestamp" := VStr "2024-01-01 00:00:00"]> (<["Mg" := VInt 5]> ∅).

(** A complete reading. *)
Definition full_reading : record :=
  list_to_map [("area", VStr "Lab"); ("timestamp", VStr "2024-01-01 00:00:00");
               ("TDS", VInt 400); ("Ca", VInt 80); ("Mg", VInt 20);
               ("pH", VInt 7); ("turbidity", VInt 1); ("chlorine", VInt 0)].

(** A reading without [Ca] whose [TDS] is there. *)
Definition no_ca_reading : record := delete "Ca" full_reading.

Definition healthy : call -> bool := fun _ => false.


Definition sparse_store : firebase :=
  {| fb_data := <["Lab" := <["79759898999999" := sparse_reading]> ∅]> ∅;
     fb_raises := healthy |}.

Definition two_areas (raises : call -> bool) : firebase :=
  {| fb_data := <["Lab" := <["79759898999999" := full_reading]> ∅]>
                  (<["Dock" := <["79759898999998" := full_reading]> ∅]> ∅);
     fb_raises := raises |}.

Definition empty_store : firebase := {| fb_data := ∅; fb_raises := healthy |}.

End Samples.

Module ForecastSamples.
Import Value Modeler.

(** The fallback list of [_fetch_areas]. *)
Definition fallback_areas : list string :=
  ["MG Road"; "Jayanagar"; "HSR Layout"; "Whitefield"; "Sarjapur"; "Electronics City"].

Definition noon : Z := 1700000000.

(** A history of one record, and one of two records of the same day. *)
Definition one_record : frame :=
  [{| timestamp := noon; TDS := Some (F.of_Z 400) |}].
Definition same_day : frame :=
  [{| timestamp := noon; TDS := Some (F.of_Z 400) |};
   {| timestamp := noon + 3600; TDS := Some (F.of_Z 420) |}].
(** A record that carries no TDS. *)
Definition no_tds : frame := [{| timestamp := noon; TDS := None |}].

Definition serves (rows : frame) : Z -> reply := fun _ => Data rows.
Definition unreachable : Z -> reply := fun _ => CallFailed.
Definition no_jitter : Z -> F.float := fun _ => S754_zero false.
(** A clock that stands still while the series is generated. *)
Definition at_noon : Z -> Z := fun _ => noon.

(** The number of distinct day offsets of a history. *)
Definition distinct_day_offsets (rows : frame) : nat :=
  length (remove_dups (time_index (sort_values rows))).

(** The dictionary of the "insufficient data" answer. *)
Definition insufficient (area source : string) : forecast :=
  {| result_area := area; predictions := []; model_used := "None";
     trend_message := Insufficient; result_source := Some source |}.

(** The frame the regression is trained on. *)
Definition training_X (d : frame) : list Z := time_index (sort_values d).
Definition training_y (d : frame) : list F.float := cell <$> sort_values d.

End ForecastSamples.

Module JobSpec.
Import Value Jobs.


(** Each element is related to the one before it, [x] before the first. *)
Fixpoint chain {A} (R : A -> A -> Prop) (x : A) (l : list A) : Prop :=
  match l with
  | [] => True
  | y :: l' => R x y /\ chain R y l'
  end.





(** The states the progress loop leaves behind, one per step. *)
Fixpoint loop_trace (j : job) (l : list Z) : list job :=
  match l with
  | [] => []
  | i :: rest =>
      let j' := with_progress (10 * (i + 1)) j in
      j' :: loop_trace j' rest
  end.


(** The jobs seen under [id], and their status and progress. *)
Definition jobs_seen (id : string) (w : world) : list job :=
  omap (fun o => o) (history_of id w).

Definition summary (id : string) (w : world) : list (state * Z) :=
  (fun j => (status j, progress j)) <$> jobs_seen id w.

(** The world [w'] is [w] after one more critical section, which left
    [j'] under [id]. *)
Definition advanced (id : string) (w w' : world) (j' : job) : Prop :=
  JOBS w' !! id = Some j' /\ seen w' = seen w ++ [JOBS w'].

(** The world [w'] is [w] after the critical sections that showed [tr]. *)
Definition shows (id : string) (w w' : world) (j : job) (tr : list job) : Prop :=
  JOBS w' !! id = Some (List.last tr j) /\
  exists ms, seen w' = seen w ++ ms /\ (fun m => m !! id) <$> ms = Some <$> tr.

(** The body of the progress loop. *)
Definition loop_body (id : string) (sleep : F.float -> outcome unit)
    (step_sleep : F.float) (i : Z) : M unit :=
  (lift (sleep step_sleep) ;;;
   p <- lift (progress_after i) ;;
   locked (update id (with_progress p)))%jobs.



Definition fresh_world : world := {| JOBS := ∅; seen := [] |}.
Definition always (o : outcome unit) : F.float -> outcome unit := fun _ => o.

(** A request for ten litres on the default device. *)
Definition ten_litres (scale : outcome F.float) (sleep : F.float -> outcome unit)
  : M reply :=
  start_and_run
    (start_treatment scale sleep (VStr "Whitefield") (VStr "Household RO (medium)")
       (Ok (F.of_Z 10)) (Ok (F.lit 95 100)) (Ok (F.lit 166 1000))
       (Some (F.of_Z 300)) "job-1").

End JobSpec.

(** ** Predicates and sample data for the functions beside the claims *)

Module AppSpec.
Import Value Store App.

(** What the service keeps of a document: its fields that are not null. *)
Definition kept (data : record) : record :=
  filter (fun kv => is_none kv.2 = false) data.

(** The document [ingest_data] writes: the payload under the server's
    time stamp. *)
Definition stamped (data : record) (now : Key.datetime) : record :=
  <["timestamp" := VStr (Key.strftime_iso now)]> data.

(** The key [ingest_data] writes under, on a date [datetime] can hold. *)
Definition key_at (now : Key.datetime) : string :=
  Py.str (Key.LARGE_CONSTANT - Key.numeric now).

(** Ascending key order. *)
Definition key_le {A} (x y : string * A) : Prop := String.leb x.1 y.1 = true.

End AppSpec.

Module ReadSpec.
Import Value Store App.

(** The reading an area holds under its smallest key. *)
Definition smallest_key_record (fb : firebase) (area_key : string) (r : record) : Prop :=
  exists key, children fb area_key !! key = Some r /\
              forall key', is_Some (children fb area_key !! key') ->
                           String.leb key key' = true.

(** No other key of the list is displayed under the name of [area_key]. *)
Definition sole_name (keys : list string) (area_key : string) : Prop :=
  forall k, k ∈ keys -> display_name k = display_name area_key -> k = area_key.

(** The records follow each other by their [timestamp] strings. *)
Definition timestamp_le (r1 r2 : record) : Prop :=
  exists s1 s2, r1 !! "timestamp" = Some (VStr s1) /\
                r2 !! "timestamp" = Some (VStr s2) /\
                String.leb s1 s2 = true.

(** The records a history request reads: those of the 100 smallest keys. *)
Definition first_hundred (fb : firebase) (area : string) : list record :=
  (take 100 (order_by_key (children fb (storage_name area)))).*2.

(** The order of the sort keys of [get_history], when they are strings. *)
Definition keyed_le (x y : value * record) : Prop :=
  exists s1 s2, x.1 = VStr s1 /\ y.1 = VStr s2 /\ String.leb s1 s2 = true.

Definition str_key (x : value * record) : Prop := exists s, x.1 = VStr s.

End ReadSpec.

Module ForecastSpec.
Import Value Modeler.

(** An attempt that brings nothing: the call failed, or no record came. *)
Definition fails (P1 : Z -> reply) (attempt : Z) : Prop :=
  P1 attempt = CallFailed \/ P1 attempt = Data [].

(** [t] is the time of the newest row of the frame. *)
Definition newest (d : frame) (t : Z) : Prop :=
  (exists s, s ∈ d /\ timestamp s = t) /\ forall s, s ∈ d -> timestamp s <= t.

Definition half_second : F.float := F.lit 5 10.
Definition one_second : F.float := F.of_Z 1.

End ForecastSpec.

Module AnalysisSpec.

(** The chores the modeller knows. *)
Definition known_chores : list string :=
  ["Drinking/Cooking"; "Washing/Laundry"; "Gardening"; "Dishwashing (Machine)"].

End AnalysisSpec.

Module JobFrameSpec.
Import Value Jobs.

(** Nothing but the job [id] differs between the two job maps. *)
Definition same_elsewhere (id : string) (w w' : world) : Prop :=
  forall id', id' <> id -> JOBS w' !! id' = JOBS w !! id'.

(** An observer has seen in [w'] all that was seen in [w]. *)
Definition seen_grows (w w' : world) : Prop := exists ms, seen w' = seen w ++ ms.

(** The computation touches no job but [id] and forgets nothing seen. *)
Definition frames {A} (id : string) (m : M A) : Prop :=
  forall w r w', m w = (r, w') -> same_elsewhere id w w' /\ seen_grows w w'.

(** What the worker computes for the job: the hardness left after one
    pass. *)
Definition final_hardness (removal_efficiency current_hardness : F.float) : F.float :=
  F.round2 (F.max (S754_zero false)
                  (F.mul (F.sub (F.of_Z 1) removal_efficiency) current_hardness)).

(** [x == 0.0] *)
Definition is_zero (x : F.float) : bool :=
  match x with S754_zero _ => true | _ => false end.

End JobFrameSpec.

Module MoreSamples.
Import Value Store Samples ForecastSamples.

(** A second complete reading. *)
Definition later_reading : record := <["TDS" := VInt 650]> full_reading.

(** An area with two readings as [ingest_data] writes them, of the new
    year of 2024 and of its leap day. *)
Definition lab_two : firebase :=
  {| fb_data :=
       <["Lab" := <["79759898999999" := full_reading]>
                    (<["79759770764040" :=
                         <["timestamp" := VStr "2024-02-29 23:59:59"]> later_reading]> ∅)]> ∅;
     fb_raises := healthy |}.

(** The records of its history. *)
Definition lab_history : list record :=
  match App.payload (App.get_history (Some "Lab") (Some lab_two)) with
  | App.History _ _ d => d
  | _ => []
  end.

(** A store that holds one seeded reading, under its 14-digit time. *)
Definition seeded : firebase :=
  {| fb_data := <["Lab" := <["20240101000000" := full_reading]> ∅]> ∅;
     fb_raises := healthy |}.

(** Two rows of the seeding frame, the later one first, and the store
    after they were pushed. *)
Definition first_row : Simulator.row :=
  {| Simulator.row_area := "Lab"; Simulator.row_time := Key.new_year_2024;
     Simulator.to_dict := full_reading |}.
Definition second_row : Simulator.row :=
  {| Simulator.row_area := "Lab"; Simulator.row_time := Key.leap_day_2024;
     Simulator.to_dict := later_reading |}.
Definition seeded_two : firebase :=
  match Simulator.push_to_firebase false empty_store [second_row; first_row] with
  | Ok fb => fb
  | Raise _ => empty_store
  end.

(** Six draws of zero. *)
Definition still : IotClient.draws :=
  {| IotClient.u_tds := S754_zero false; IotClient.u_ca := S754_zero false;
     IotClient.u_mg := S754_zero false; IotClient.u_turbidity := S754_zero false;
     IotClient.u_chlorine := S754_zero false; IotClient.u_ph := S754_zero false |}.

(** Stand-ins for the two built-ins on text. *)
Definition no_parse : string -> outcome F.float := fun _ => Raise ValueError.
Definition no_repr : F.float -> string := fun _ => EmptyString.

(** The line fitted on the history of one day. *)
Definition same_day_line : Modeler.line :=
  default {| Modeler.coef := S754_zero false; Modeler.intercept := S754_zero false |}
          (Modeler.ols_fit (training_X same_day) (training_y same_day)).

End MoreSamples.

(* ================================================================= *)
(** * Facts about the built-ins *)

Module PyFacts.
Import Py.

Lemma digit_cases (d : Z) : 0 <= d <= 9 ->
  d = 0 \/ d = 1 \/ d = 2 \/ d = 3 \/ d = 4 \/ d = 5 \/ d = 6 \/ d = 7 \/ d = 8 \/ d = 9.
Proof. lia. Qed.

Lemma digit_val_char (d : Z) : 0 <= d <= 9 -> digit_val (digit_char d) = Some d.
Proof.
  intros H. destruct (digit_cases d H) as [E|[E|[E|[E|[E|[E|[E|[E|[E|E]]]]]]]]];
    subst d; reflexivity.
Qed.

Lemma N_of_digit_char (d : Z) : 0 <= d <= 9 -> N_of_ascii (digit_char d) = (48 + Z.to_N d)%N.
Proof.
  intros H. unfold digit_char. apply N_ascii_embedding. lia.
Qed.

Lemma compare_digit_char (a b : Z) : 0 <= a <= 9 -> 0 <= b <= 9 ->
  Ascii.compare (digit_char a) (digit_char b) = (a ?= b).
Proof.
  intros Ha Hb. unfold Ascii.compare.
  rewrite !N_of_digit_char by assumption.
  rewrite N.compare_antisym, Z.compare_antisym. f_equal.
  destruct (Z.compare_spec b a) as [E|E|E].
  - subst. apply N.compare_refl.
  - apply N.compare_lt_iff. lia.
  - apply N.compare_gt_iff. lia.
Qed.

Lemma mod10_digit (n : Z) : 0 <= n mod 10 <= 9.
Proof. pose proof (Z.mod_pos_bound n 10). lia. Qed.

(** *** Strings *)

Lemma append_nil_l (s : string) : EmptyString +:+ s = s.
Proof. reflexivity. Qed.

Lemma append_cons (c : ascii) (s1 s2 : string) :
  String c s1 +:+ s2 = String c (s1 +:+ s2).
Proof. reflexivity. Qed.

Lemma append_nil_r (s : string) : s +:+ EmptyString = s.
Proof.
  induction s as [|c s IH]; [reflexivity|]. now rewrite append_cons, IH.
Qed.

Lemma append_assoc (s1 s2 s3 : string) : (s1 +:+ s2) +:+ s3 = s1 +:+ (s2 +:+ s3).
Proof.
  induction s1 as [|c s1 IH]; [reflexivity|]. now rewrite !append_cons, IH.
Qed.

Lemma length_append (s1 s2 : string) :
  String.length (s1 +:+ s2) = (String.length s1 + String.length s2)%nat.
Proof.
  induction s1 as [|c s1 IH]; [reflexivity|].
  rewrite append_cons. simpl. now rewrite IH.
Qed.

Lemma compare_refl (s : string) : String.compare s s = Eq.
Proof.
  induction s as [|c s IH]; simpl; [reflexivity|].
  unfold Ascii.compare. now rewrite N.compare_refl.
Qed.

(** Two strings of the same length that differ by their last characters
    are ordered by their common-length prefixes first. *)
Lemma compare_snoc (s1 s2 : string) (c1 c2 : ascii) :
  String.length s1 = String.length s2 ->
  String.compare (s1 +:+ String c1 EmptyString) (s2 +:+ String c2 EmptyString) =
  match String.compare s1 s2 with
  | Eq => Ascii.compare c1 c2
  | r => r
  end.
Proof.
  revert s2. induction s1 as [|a s1 IH]; intros [|b s2] Hlen; simpl in Hlen; try discriminate.
  - rewrite !append_nil_l. simpl. destruct (Ascii.compare c1 c2); reflexivity.
  - rewrite !append_cons. simpl. destruct (Ascii.compare a b); try reflexivity.
    apply IH. congruence.
Qed.

(** *** Fixed-width digits *)

Lemma length_fixed (k : nat) (n : Z) : String.length (fixed k n) = k.
Proof.
  revert n. induction k as [|k IH]; intros n; simpl; [reflexivity|].
  rewrite length_append, IH. simpl. lia.
Qed.

Lemma pow10_succ (k : nat) : 10 ^ Z.of_nat (S k) = 10 * 10 ^ Z.of_nat k.
Proof. rewrite Nat2Z.inj_succ, Z.pow_succ_r by lia. reflexivity. Qed.

Lemma pow10_pos (k : nat) : 0 < 10 ^ Z.of_nat k.
Proof. apply Z.pow_pos_nonneg; lia. Qed.

Lemma div10_bound (k : nat) (n : Z) :
  0 <= n < 10 ^ Z.of_nat (S k) -> 0 <= n / 10 < 10 ^ Z.of_nat k.
Proof.
  rewrite pow10_succ. intros H. split.
  - apply Z.div_pos; lia.
  - apply Z.div_lt_upper_bound; lia.
Qed.

Lemma fixed_compare (k : nat) : forall a b : Z,
  0 <= a < 10 ^ Z.of_nat k -> 0 <= b < 10 ^ Z.of_nat k ->
  String.compare (fixed k a) (fixed k b) = (a ?= b).
Proof.
  induction k as [|k IH]; intros a b Ha Hb.
  - simpl in *. assert (a = 0) by lia. assert (b = 0) by lia. subst. reflexivity.
  - simpl fixed. rewrite compare_snoc by now rewrite !length_fixed.
    rewrite IH by now apply div10_bound.
    rewrite compare_digit_char by apply mod10_digit.
    pose proof (Z.div_mod a 10 ltac:(lia)) as Ea.
    pose proof (Z.div_mod b 10 ltac:(lia)) as Eb.
    pose proof (mod10_digit a). pose proof (mod10_digit b).
    destruct (Z.compare_spec (a / 10) (b / 10)) as [E|E|E].
    + destruct (Z.compare_spec (a mod 10) (b mod 10)) as [F|F|F]; symmetry.
      * apply Z.compare_eq_iff. lia.
      * apply Z.compare_lt_iff. lia.
      * apply Z.compare_gt_iff. lia.
    + symmetry. apply Z.compare_lt_iff. lia.
    + symmetry. apply Z.compare_gt_iff. lia.
Qed.

Lemma zeros_snoc (j : nat) : zeros j +:+ String "0"%char EmptyString = zeros (S j).
Proof.
  induction j as [|j IH]; [reflexivity|].
  cbn [zeros]. rewrite append_cons, IH. reflexivity.
Qed.

Lemma fixed_zero (j : nat) : fixed j 0 = zeros j.
Proof.
  induction j as [|j IH]; [reflexivity|].
  simpl fixed. change (0 / 10) with 0. rewrite IH. apply zeros_snoc.
Qed.

(** Widening the field only adds leading zeros. *)
Lemma fixed_widen (j k : nat) : forall n : Z,
  0 <= n < 10 ^ Z.of_nat k -> fixed (j + k) n = zeros j +:+ fixed k n.
Proof.
  induction k as [|k IH]; intros n Hn.
  - simpl in Hn. assert (n = 0) by lia. subst n.
    rewrite Nat.add_0_r, fixed_zero. cbn [fixed]. now rewrite append_nil_r.
  - rewrite Nat.add_succ_r. simpl fixed.
    rewrite IH by now apply div10_bound. now rewrite append_assoc.
Qed.

Lemma digits_acc_fixed (k : nat) : forall (n : Z) (fuel : nat) (acc : string),
  has_digits n k -> (k < fuel)%nat ->
  digits_acc fuel n acc = fixed (S k) n +:+ acc.
Proof.
  induction k as [|k IH]; intros n fuel acc [Hn Hlow] Hfuel;
    (destruct fuel as [|fuel]; [lia|]).
  - simpl in Hn. simpl. replace (n <? 10) with true by (symmetry; apply Z.ltb_lt; lia).
    reflexivity.
  - assert (10 <= n).
    { specialize (Hlow ltac:(lia)). rewrite pow10_succ in Hlow.
      pose proof (pow10_pos k). lia. }
    cbn [digits_acc]. replace (n <? 10) with false by (symmetry; apply Z.ltb_ge; lia).
    rewrite IH; [ | | lia].
    + cbn [fixed]. rewrite !append_assoc. reflexivity.
    + split; [now apply div10_bound|]. intros _.
      specialize (Hlow ltac:(lia)). rewrite pow10_succ in Hlow.
      apply Z.div_le_lower_bound; lia.
Qed.

Lemma digit_fuel_enough (n : Z) (k : nat) : has_digits n k -> (k < digit_fuel n)%nat.
Proof.
  intros [Hn Hlow]. unfold digit_fuel.
  destruct k as [|k]; [lia|].
  specialize (Hlow ltac:(lia)).
  assert (2 ^ Z.of_nat (S k) <= n).
  { etransitivity; [|exact Hlow]. apply Z.pow_le_mono_l. lia. }
  assert (Z.of_nat (S k) <= Z.log2 n).
  { apply Z.log2_le_pow2; lia. }
  lia.
Qed.

Lemma str_fixed (n : Z) (k : nat) : has_digits n k -> str n = fixed (S k) n.
Proof.
  intros H. unfold str.
  replace (n <? 0) with false by (symmetry; apply Z.ltb_ge; destruct H; lia).
  rewrite (digits_acc_fixed k) by (auto using digit_fuel_enough).
  apply append_nil_r.
Qed.

Lemma has_digits_exists (w : nat) : forall n : Z,
  0 <= n < 10 ^ Z.of_nat (S w) -> exists k, (k <= w)%nat /\ has_digits n k.
Proof.
  induction w as [|w IH]; intros n Hn.
  - exists O. split; [lia|]. split; [assumption|congruence].
  - destruct (Z_lt_le_dec n (10 ^ Z.of_nat (S w))) as [Hlt|Hge].
    + destruct (IH n ltac:(lia)) as (k & Hk & Hd). exists k. split; [lia|assumption].
    + exists (S w). split; [lia|]. split; [assumption|]. intros _. assumption.
Qed.

Lemma zero_pad_fixed (w : nat) (n : Z) :
  0 <= n < 10 ^ Z.of_nat (S w) -> zero_pad (S w) n = fixed (S w) n.
Proof.
  intros Hn.
  destruct (has_digits_exists w n Hn) as (k & Hk & Hd).
  unfold zero_pad. rewrite (str_fixed n k Hd), length_fixed.
  replace (S w) with ((S w - S k) + S k)%nat at 2 by lia.
  symmetry. apply fixed_widen. apply Hd.
Qed.

(** *** Reading digits back *)

Lemma int_acc_fixed (k : nat) : forall (n acc : Z) (rest : string),
  0 <= n < 10 ^ Z.of_nat k ->
  int_acc (fixed k n +:+ rest) acc = int_acc rest (acc * 10 ^ Z.of_nat k + n).
Proof.
  induction k as [|k IH]; intros n acc rest Hn.
  - cbn [fixed]. rewrite append_nil_l. simpl in Hn. f_equal. lia.
  - cbn [fixed]. rewrite append_assoc, IH by now apply div10_bound.
    rewrite append_cons. cbn [int_acc]. rewrite digit_val_char by apply mod10_digit.
    f_equal. rewrite pow10_succ.
    pose proof (Z.div_mod n 10 ltac:(lia)). lia.
Qed.

End PyFacts.

(* ================================================================= *)
(** * Storage keys *)

Module KeyFacts.
Import Py PyFacts Key.

Lemma int_nonempty (s : string) : (0 < String.length s)%nat -> int s = int_acc s 0.
Proof. destruct s; simpl; [lia | reflexivity]. Qed.

Lemma valid_day_bound (t : datetime) : valid t -> 1 <= day t <= 31.
Proof.
  intros (_ & _ & Hd & _). split; [lia|].
  etransitivity; [apply Hd|]. unfold days_in_month.
  repeat match goal with |- context [if ?b then _ else _] => destruct b end; lia.
Qed.

(** On a valid date the fields fill their columns, so the key is the fixed
    rendering of each field. *)
Lemma timestamp_key_fixed (t : datetime) : valid t ->
  timestamp_key t =
  fixed 4 (year t) +:+ fixed 2 (month t) +:+ fixed 2 (day t) +:+
  fixed 2 (hour t) +:+ fixed 2 (minute t) +:+ fixed 2 (second t).
Proof.
  intros Hv. pose proof (valid_day_bound t Hv).
  destruct Hv as (? & ? & _ & ? & ? & ?).
  unfold timestamp_key.
  rewrite !zero_pad_fixed by (change (10 ^ Z.of_nat 2) with 100;
                              change (10 ^ Z.of_nat 4) with 10000; lia).
  reflexivity.
Qed.

Lemma int_timestamp_key (t : datetime) : valid t ->
  int (timestamp_key t) = Some (numeric t).
Proof.
  intros Hv. rewrite (timestamp_key_fixed t Hv).
  pose proof (valid_day_bound t Hv).
  destruct Hv as (? & ? & _ & ? & ? & ?).
  rewrite int_nonempty by (rewrite length_append, length_fixed; lia).
  rewrite <- (append_nil_r (fixed 2 (second t))).
  rewrite !int_acc_fixed by (change (10 ^ Z.of_nat 2) with 100;
                             change (10 ^ Z.of_nat 4) with 10000; lia).
  cbn [int_acc]. f_equal. unfold numeric.
  change (10 ^ Z.of_nat 2) with 100. change (10 ^ Z.of_nat 4) with 10000. lia.
Qed.

Lemma numeric_mono (t1 t2 : datetime) : valid t1 -> valid t2 ->
  before t1 t2 -> numeric t1 < numeric t2.
Proof.
  intros H1 H2 Hb.
  pose proof (valid_day_bound t1 H1). pose proof (valid_day_bound t2 H2).
  destruct H1 as (? & ? & _ & ? & ? & ?). destruct H2 as (? & ? & _ & ? & ? & ?).
  unfold before, as_tuple in Hb. cbn [lex_lt] in Hb. unfold numeric. lia.
Qed.

Lemma numeric_bounds (t : datetime) : valid t ->
  year t * 10000000000 <= numeric t < (year t + 1) * 10000000000.
Proof.
  intros Hv. pose proof (valid_day_bound t Hv).
  destruct Hv as (? & ? & _ & ? & ? & ?). unfold numeric. lia.
Qed.

(** Up to the year 8999 the difference has 14 digits, so [str] happens to
    write it in 14 columns. *)
Lemma reversed_key_fixed (t : datetime) : valid t -> year t <= 8999 ->
  reversed_key t = Some (fixed 14 (LARGE_CONSTANT - numeric t)).
Proof.
  intros Hv Hy. unfold reversed_key. rewrite (int_timestamp_key t Hv).
  f_equal. apply str_fixed.
  pose proof (numeric_bounds t Hv). destruct Hv as (? & _).
  unfold has_digits, LARGE_CONSTANT.
  change (10 ^ Z.of_nat 14) with 100000000000000.
  change (10 ^ Z.of_nat 13) with 10000000000000. lia.
Qed.

Lemma some_eq {A} (x y : A) : Some x = Some y -> x = y.
Proof. congruence. Qed.

Lemma fixed_gt (a b : Z) (k : nat) :
  0 <= a < 10 ^ Z.of_nat k -> 0 <= b < 10 ^ Z.of_nat k -> b < a ->
  str_gt (fixed k a) (fixed k b).
Proof.
  intros Ha Hb Hlt. unfold str_gt. rewrite fixed_compare by assumption.
  apply Z.compare_gt_iff. exact Hlt.
Qed.

Lemma valid_new_year_2024 : valid new_year_2024.
Proof. repeat split; now vm_compute. Qed.

Lemma valid_new_year_9000 : valid new_year_9000.
Proof. repeat split; now vm_compute. Qed.

Lemma valid_leap_day_2024 : valid leap_day_2024.
Proof. repeat split; now vm_compute. Qed.

(** C1, as stated, fails on the code. [str] pads nothing: from the year
    9000 on the difference has fewer than 14 digits, and the shorter key of
    the later reading sorts after the key of an earlier one. Here the
    reading of 2024 gets the key 79759898999999, the reading of 9000 the key
    9999898999999, and the first is the smaller string. *)
Lemma reversed_key_order_breaks_in_9000 :
  valid new_year_2024 /\ valid new_year_9000 /\
  before new_year_2024 new_year_9000 /\
  reversed_key new_year_2024 = Some "79759898999999" /\
  reversed_key new_year_9000 = Some "9999898999999" /\
  str_lt "79759898999999" "9999898999999" /\
  ~ keys_descend new_year_2024 new_year_9000.
Proof.
  split; [exact valid_new_year_2024|]. split; [exact valid_new_year_9000|].
  split; [left; now vm_compute|].
  split; [vm_compute; reflexivity|]. split; [vm_compute; reflexivity|].
  split; [vm_compute; reflexivity|].
  intros (k1 & k2 & H1 & H2 & Hgt).
  vm_compute in H1, H2. injection H1 as <-. injection H2 as <-.
  vm_compute in Hgt. discriminate.
Qed.

(** C1, amended: for two readings [t1] before [t2] with [t2] no later than
    the year 8999, both reversed keys exist, have 14 digits, and the key of
    [t1] is greater than the key of [t2] in the order of strings: ascending
    key order is descending chronological order. *)
Theorem reversed_key_order (t1 t2 : datetime) :
  valid t1 -> valid t2 -> year t2 <= 8999 -> before t1 t2 ->
  keys_descend t1 t2 /\
  (forall k, reversed_key t1 = Some k \/ reversed_key t2 = Some k ->
             String.length k = 14%nat).
Proof.
  intros H1 H2 Hy Hb.
  assert (Hy1 : year t1 <= 8999).
  { unfold before, as_tuple in Hb. cbn [lex_lt] in Hb. lia. }
  pose proof (numeric_mono t1 t2 H1 H2 Hb) as Hlt.
  pose proof (numeric_bounds t1 H1) as B1. pose proof (numeric_bounds t2 H2) as B2.
  assert (1000 <= year t1) by (destruct H1 as (? & _); lia).
  assert (1000 <= year t2) by (destruct H2 as (? & _); lia).
  unfold keys_descend.
  rewrite (reversed_key_fixed t1 H1 Hy1), (reversed_key_fixed t2 H2 Hy).
  split.
  - exists (fixed 14 (LARGE_CONSTANT - numeric t1)),
           (fixed 14 (LARGE_CONSTANT - numeric t2)).
    split; [reflexivity|]. split; [reflexivity|].
    apply fixed_gt; unfold LARGE_CONSTANT;
      change (10 ^ Z.of_nat 14) with 100000000000000; lia.
  - intros k [E|E]; apply some_eq in E; rewrite <- E; apply length_fixed.
Qed.

Lemma reversed_key_order_witness :
  keys_descend new_year_2024 leap_day_2024 /\
  (forall k, reversed_key new_year_2024 = Some k \/
             reversed_key leap_day_2024 = Some k ->
             String.length k = 14%nat).
Proof.
  apply (reversed_key_order new_year_2024 leap_day_2024).
  - repeat split; now vm_compute.
  - repeat split; now vm_compute.
  - now vm_compute.
  - right. split; [reflexivity|]. left. now vm_compute.
Defined.

End KeyFacts.

(* ================================================================= *)
(** * Hardness and its classes *)

Module HardnessFacts.
Import Value Spec.

Lemma promote_not_none (v : value) (x : F.float) : promote v = Ok x -> is_none v = false.
Proof. destruct v; simpl; congruence. Qed.

(** The worked example of the specification: Ca = 80 and Mg = 20 give
    282.12. *)
Example total_hardness_80_20 :
  App.calculate_total_hardness (VInt 80) (VInt 20) = Ok (VFloat (F.lit 28212 100)).
Proof. vm_compute. reflexivity. Qed.

(** C2, as stated, fails on the code: the modeller returns the sum as it
    is. For Ca = 1 and Mg = 0 it returns the double 2.497, the data layer
    returns [round(2.497, 2)], the double 2.5. *)
Lemma modeler_hardness_not_rounded :
  exists v : F.float,
    Modeler.calculate_total_hardness (VInt 1) (VInt 0) = Ok (VFloat v) /\
    v = F.lit 2497 1000 /\
    App.calculate_total_hardness (VInt 1) (VInt 0) = Ok (VFloat (F.round2 v)) /\
    F.round2 v = F.lit 25 10 /\
    F.round2 v <> v.
Proof.
  exists (F.lit 2497 1000). repeat split; try (vm_compute; reflexivity).
  vm_compute. discriminate.
Qed.

(** C2, amended: for all numbers Ca and Mg, [calculate_total_hardness] of
    the data layer returns [round(Ca*2.497 + Mg*4.118, 2)] and
    [calculate_total_hardness] of the modeller returns the unrounded
    [Ca*2.497 + Mg*4.118]; both are functions of their two arguments, so
    computing twice on the same input gives the same output. *)
Theorem total_hardness_rounding (ca mg : value) (x y : F.float) :
  promote ca = Ok x -> promote mg = Ok y ->
  App.calculate_total_hardness ca mg =
    Ok (VFloat (F.round2 (F.add (F.mul x App.CA_FACTOR) (F.mul y App.MG_FACTOR)))) /\
  Modeler.calculate_total_hardness ca mg =
    Ok (VFloat (F.add (F.mul x Modeler.CA_FACTOR) (F.mul y Modeler.MG_FACTOR))) /\
  (forall first second,
     App.calculate_total_hardness ca mg = first ->
     App.calculate_total_hardness ca mg = second -> first = second) /\
  (forall first second,
     Modeler.calculate_total_hardness ca mg = first ->
     Modeler.calculate_total_hardness ca mg = second -> first = second).
Proof.
  intros Hx Hy. unfold App.calculate_total_hardness, Modeler.calculate_total_hardness.
  rewrite (promote_not_none ca x Hx), (promote_not_none mg y Hy).
  unfold mul_const. rewrite Hx, Hy. repeat split; congruence.
Qed.

Lemma total_hardness_rounding_witness :
  App.calculate_total_hardness (VInt 80) (VFloat (F.lit 205 10)) =
    Ok (VFloat (F.round2 (F.add (F.mul (F.of_Z 80) App.CA_FACTOR)
                                (F.mul (F.lit 205 10) App.MG_FACTOR)))) /\
  Modeler.calculate_total_hardness (VInt 80) (VFloat (F.lit 205 10)) =
    Ok (VFloat (F.add (F.mul (F.of_Z 80) Modeler.CA_FACTOR)
                      (F.mul (F.lit 205 10) Modeler.MG_FACTOR))) /\
  (forall first second,
     App.calculate_total_hardness (VInt 80) (VFloat (F.lit 205 10)) = first ->
     App.calculate_total_hardness (VInt 80) (VFloat (F.lit 205 10)) = second ->
     first = second) /\
  (forall first second,
     Modeler.calculate_total_hardness (VInt 80) (VFloat (F.lit 205 10)) = first ->
     Modeler.calculate_total_hardness (VInt 80) (VFloat (F.lit 205 10)) = second ->
     first = second).
Proof.
  apply (total_hardness_rounding (VInt 80) (VFloat (F.lit 205 10))).
  - vm_compute. reflexivity.
  - reflexivity.
Defined.

(** *** Comparisons with the thresholds *)

Lemma ge_then_gt (x a b : Z) :
  a < b -> is_ge (Some (x ?= b)) = true -> (x ?= a) = Gt.
Proof.
  intros Hab. destruct (Z.compare_spec x b); cbn [is_ge]; try discriminate;
    intros _; apply Z.compare_gt_iff; lia.
Qed.

Lemma compare_Z_ge_gt (f : F.float) (a b : Z) :
  a < b -> is_ge (F.compare_Z f b) = true -> F.compare_Z f a = Some Gt.
Proof.
  intros Hab. destruct f as [s|s| |s m e]; unfold F.compare_Z.
  - intros H. f_equal. now apply (ge_then_gt 0 a b).
  - destruct s; cbn [is_ge]; [discriminate | reflexivity].
  - discriminate.
  - destruct (Z.leb_spec 0 e); intros H'; f_equal.
    + now apply (ge_then_gt _ a b).
    + assert (0 < 2 ^ (- e)) by (apply Z.pow_pos_nonneg; lia).
      apply (ge_then_gt _ _ (b * 2 ^ (- e))); [|assumption].
      now apply Z.mul_lt_mono_pos_r.
Qed.

Lemma compare_int_number (h : value) (k : Z) :
  is_number h = true -> exists c, compare_int h k = Ok c.
Proof. destruct h; try discriminate; intros _; eexists; reflexivity. Qed.

Lemma compare_int_ge_gt (h : value) (a b : Z) (c : option comparison) :
  a < b -> compare_int h b = Ok c -> is_ge c = true ->
  compare_int h a = Ok (Some Gt).
Proof.
  intros Hab. destruct h as [ |bo|z|f| | | ]; unfold compare_int; cbn [as_int];
    try discriminate.
  - intros [= <-] H. do 2 f_equal. now apply (ge_then_gt _ a b).
  - intros [= <-] H. do 2 f_equal. now apply (ge_then_gt _ a b).
  - intros [= <-] Hge. f_equal. now apply (compare_Z_ge_gt f a b).
Qed.

Lemma below_inv (h : value) (k : Z) (c : option comparison) :
  compare_int h k = Ok c -> below h k -> is_lt c = true.
Proof. unfold below, lt_int. intros ->. simpl. congruence. Qed.

Lemma at_least_inv (h : value) (k : Z) (c : option comparison) :
  compare_int h k = Ok c -> at_least h k -> is_ge c = true.
Proof. unfold at_least, ge_int. intros ->. simpl. congruence. Qed.

Lemma lt_ge_exclusive (c : option comparison) : is_lt c = true -> is_ge c = true -> False.
Proof. destruct c as [[]|]; simpl; congruence. Qed.

(** The cascade of comparisons both classifiers run, on a number. *)
Lemma cascade_classes (a b c : Z) (h : value) :
  a < b < c -> is_number h = true ->
  exists ca cb cc,
    compare_int h a = Ok ca /\ compare_int h b = Ok cb /\ compare_int h c = Ok cc /\
    classes_at a b c h
      (if is_lt ca then "Soft"
       else if is_lt cb then "Moderately Hard"
       else if is_lt cc then "Hard" else "Very Hard").
Proof.
  intros [Hab Hbc] Hn.
  destruct (compare_int_number h a Hn) as [ca Ea].
  destruct (compare_int_number h b Hn) as [cb Eb].
  destruct (compare_int_number h c Hn) as [cc Ec].
  exists ca, cb, cc. repeat split; try assumption.
  - intros Hlt. now rewrite (below_inv h a ca Ea Hlt).
  - intros Hge Hlt.
    pose proof (at_least_inv h a ca Ea Hge) as Ga.
    rewrite (below_inv h b cb Eb Hlt).
    destruct (is_lt ca) eqn:La; [exfalso; eauto using lt_ge_exclusive | reflexivity].
  - intros Hge Hlt.
    pose proof (at_least_inv h b cb Eb Hge) as Gb.
    pose proof (compare_int_ge_gt h a b cb Hab Eb Gb) as Ea'.
    rewrite Ea in Ea'. injection Ea' as ->.
    rewrite (below_inv h c cc Ec Hlt).
    destruct (is_lt cb) eqn:Lb; [exfalso; eauto using lt_ge_exclusive | reflexivity].
  - intros Hge.
    pose proof (at_least_inv h c cc Ec Hge) as Gc.
    pose proof (compare_int_ge_gt h b c cc Hbc Ec Gc) as Eb'.
    pose proof (compare_int_ge_gt h a c cc ltac:(lia) Ec Gc) as Ea'.
    rewrite Ea in Ea'. injection Ea' as ->. rewrite Eb in Eb'. injection Eb' as ->.
    destruct (is_lt cc) eqn:Lc; [exfalso; eauto using lt_ge_exclusive | reflexivity].
Qed.

Lemma standards :
  Modeler.standard "Soft" = 75 /\ Modeler.standard "Moderately Hard" = 150 /\
  Modeler.standard "Hard" = 300.
Proof. repeat split; vm_compute; reflexivity. Qed.

Lemma app_hardness_class (tds h : value) :
  is_number tds = true -> is_number h = true ->
  exists c, App.classify_water_quality tds h = Ok c /\
            classes_at 60 120 180 h (App.hardness_class c).
Proof.
  intros Ht Hn.
  destruct (cascade_classes 60 120 180 h ltac:(lia) Hn) as (ca & cb & cc & Ea & Eb & Ec & Hc).
  destruct (compare_int_number tds 500 Ht) as [ct Et].
  destruct (compare_int_number h 200 Hn) as [c2 E2].
  unfold App.classify_water_quality, lt_int, le_int.
  rewrite Ea, Eb, Ec, Et, E2. simpl.
  destruct (is_lt ca), (is_lt cb), (is_lt cc), (is_le ct); simpl;
    eexists; (split; [reflexivity | exact Hc]).
Qed.

Lemma modeler_hardness_class (h : value) :
  is_number h = true ->
  exists s, Modeler.classify_hardness h = Ok s /\ classes_at 75 150 300 h s.
Proof.
  intros Hn.
  destruct (cascade_classes 75 150 300 h ltac:(lia) Hn) as (ca & cb & cc & Ea & Eb & Ec & Hc).
  destruct standards as (S1 & S2 & S3).
  unfold Modeler.classify_hardness, lt_int. rewrite S1, S2, S3, Ea, Eb, Ec. simpl.
  destruct (is_lt ca), (is_lt cb), (is_lt cc); simpl;
    eexists; (split; [reflexivity | exact Hc]).
Qed.

(** C3, as stated, fails on the code: the modeller cuts at 75, 150 and
    300. A hardness of exactly 60 is "Soft" there, 120 "Moderately Hard"
    and 180 "Hard". *)
Lemma modeler_classifies_60_soft :
  Modeler.classify_hardness (VInt 60) = Ok "Soft" /\
  Modeler.classify_hardness (VInt 120) = Ok "Moderately Hard" /\
  Modeler.classify_hardness (VInt 180) = Ok "Hard" /\
  ~ classes_at 60 120 180 (VInt 60) "Soft".
Proof.
  repeat split; try (vm_compute; reflexivity).
  intros (_ & H & _). discriminate H; vm_compute; reflexivity.
Qed.

(** C3, amended: on every number [h], [classify_water_quality] of the data
    layer is closed-open at 60, 120 and 180 ([h < 60] "Soft",
    [60 <= h < 120] "Moderately Hard", [120 <= h < 180] "Hard", [h >= 180]
    "Very Hard", so 60, 120 and 180 fall in the upper class), and
    [classify_hardness] of the modeller is closed-open in the same way at
    75, 150 and 300. *)
Theorem hardness_classes (h : value) :
  is_number h = true ->
  (forall tds, is_number tds = true ->
     exists c, App.classify_water_quality tds h = Ok c /\
               classes_at 60 120 180 h (App.hardness_class c)) /\
  (exists s, Modeler.classify_hardness h = Ok s /\ classes_at 75 150 300 h s).
Proof.
  intros Hn. split.
  - intros tds Ht. now apply app_hardness_class.
  - now apply modeler_hardness_class.
Qed.

Lemma hardness_classes_witness :
  (forall tds, is_number tds = true ->
     exists c, App.classify_water_quality tds (VFloat (F.of_Z 120)) = Ok c /\
               classes_at 60 120 180 (VFloat (F.of_Z 120)) (App.hardness_class c)) /\
  (exists s, Modeler.classify_hardness (VFloat (F.of_Z 120)) = Ok s /\
             classes_at 75 150 300 (VFloat (F.of_Z 120)) s).
Proof. apply (hardness_classes (VFloat (F.of_Z 120))). reflexivity. Defined.

(** The boundaries of the data layer, evaluated. *)
Example app_boundaries :
  App.hardness_class <$> (match App.classify_water_quality (VInt 400) (VInt 60) with Ok c => Some c | _ => None end) = Some "Moderately Hard" /\
  App.hardness_class <$> (match App.classify_water_quality (VInt 400) (VFloat (F.of_Z 120)) with Ok c => Some c | _ => None end) = Some "Hard" /\
  App.hardness_class <$> (match App.classify_water_quality (VInt 400) (VFloat (F.of_Z 180)) with Ok c => Some c | _ => None end) = Some "Very Hard".
Proof. repeat split; vm_compute; reflexivity. Qed.

End HardnessFacts.

(* ================================================================= *)
(** * The endpoints of the data layer *)

Module AppFacts.
Import Value Store App Spec Samples HardnessFacts.

(** ** C10 *)

(** C10, as stated, fails on the code: the enrichment reads
    [record['TDS']] next, and a reading that lacks it raises [KeyError];
    the request for its history then answers 500, the request for the
    latest readings as well. *)
Lemma missing_tds_breaks_enrichment :
  get sparse_reading "Ca" = VNone /\
  calculate_total_hardness (get sparse_reading "Ca") (get sparse_reading "Mg") = Ok (VInt 0) /\
  enrich sparse_reading = Raise KeyError /\
  get_history (Some "Lab") (Some sparse_store) =
    {| status := 500; payload := Error "Failed to fetch history: " (Some KeyError) |} /\
  get_latest (Some sparse_store) =
    {| status := 500; payload := Error "Failed to fetch latest data: " (Some KeyError) |}.
Proof. repeat split; vm_compute; reflexivity. Qed.

Lemma classify_soft_zero (tds : value) :
  is_number tds = true ->
  exists c, classify_water_quality tds (VInt 0) = Ok c /\ hardness_class c = "Soft".
Proof.
  intros Ht. destruct (compare_int_number tds 500 Ht) as [ct Et].
  unfold classify_water_quality, le_int. rewrite Et.
  change (lt_int (VInt 0) 60) with (@Ok bool true).
  change (compare_int (VInt 0) 200) with (@Ok (option comparison) (Some Lt)).
  cbn [bind]. destruct (is_le ct); cbn [bind is_le]; eexists; split; reflexivity.
Qed.

(** C10, amended: for every stored reading in which Ca or Mg is absent,
    [calculate_total_hardness] returns 0 and does not raise; when the
    reading has a numeric TDS, the enrichment succeeds, stores
    [total_hardness = 0] and classifies the reading as "Soft". *)
Theorem missing_ca_mg_enrichment (r : record) :
  get r "Ca" = VNone \/ get r "Mg" = VNone ->
  calculate_total_hardness (get r "Ca") (get r "Mg") = Ok (VInt 0) /\
  (forall tds, r !! "TDS" = Some tds -> is_number tds = true ->
     exists c, enrich r =
               Ok (<["classification" := classification_value c]>
                     (<["total_hardness" := VInt 0]> r)) /\
               hardness_class c = "Soft").
Proof.
  intros Hnone.
  assert (Hcalc : calculate_total_hardness (get r "Ca") (get r "Mg") = Ok (VInt 0)).
  { unfold calculate_total_hardness.
    destruct Hnone as [-> | ->]; [reflexivity|].
    now rewrite orb_true_r. }
  split; [exact Hcalc|].
  intros tds Htds Hnum.
  destruct (classify_soft_zero tds Hnum) as (c & Hc & Hsoft).
  exists c. split; [|exact Hsoft].
  unfold enrich, getitem. rewrite Hcalc, Htds. cbn [bind]. rewrite Hc. reflexivity.
Qed.

Lemma missing_ca_mg_enrichment_witness :
  calculate_total_hardness (get no_ca_reading "Ca") (get no_ca_reading "Mg") = Ok (VInt 0) /\
  (forall tds, no_ca_reading !! "TDS" = Some tds -> is_number tds = true ->
     exists c, enrich no_ca_reading =
               Ok (<["classification" := classification_value c]>
                     (<["total_hardness" := VInt 0]> no_ca_reading)) /\
               hardness_class c = "Soft").
Proof.
  apply (missing_ca_mg_enrichment no_ca_reading).
  left. vm_compute. reflexivity.
Defined.

(** ** C7 *)

Lemma expected_token_nonempty (secret : option string) :
  String.eqb EmptyString (expected_token secret) = false.
Proof. reflexivity. Qed.

(** C7, as stated, fails where no secret is configured: [os.getenv] then
    gives [None], the expected header is the text ["Bearer None"], and a
    request that carries it, which matches no pre-shared secret, is
    answered 201 and stored. *)
Lemma unset_secret_accepts_bearer_none :
  expected_token None = "Bearer None" /\
  (ingest_data (Some "Bearer None") None (Some empty_store)
               (Some full_reading) Key.new_year_2024).1 =
    {| status := 201; payload := Ingested "2024-01-01 00:00:00" |} /\
  match (ingest_data (Some "Bearer None") None (Some empty_store)
                     (Some full_reading) Key.new_year_2024).2 with
  | Some fb' => children fb' "Lab" !! "79759898999999"
  | None => None
  end = Some full_reading.
Proof. repeat split; vm_compute; reflexivity. Qed.

(** C7, amended: when the secret is set to [s], a request whose
    [Authorization] header is not exactly ["Bearer " + s], a request
    without the header included, is answered 401 whatever the payload,
    the clock and the state of the store, and the store is left as it
    was: the check comes first. When no secret is set the same holds of
    every header other than the text ["Bearer None"]. *)
Theorem ingest_auth_first (authorization secret : option string)
    (DB_REF : option firebase) (json : option record) (now : Key.datetime) :
  match secret with
  | Some s => authorization <> Some ("Bearer " +:+ s)
  | None => authorization <> Some "Bearer None"
  end ->
  ingest_data authorization secret DB_REF json now =
    ({| status := 401;
        payload := Error "Authentication Failed. Invalid IOT_DEVICE_SECRET." None |},
     DB_REF).
Proof.
  intros Hne. unfold ingest_data.
  assert (E : String.eqb (default EmptyString authorization) (expected_token secret) = false).
  { destruct authorization as [a|]; cbn [default from_option id].
    - apply String.eqb_neq. intros ->. destruct secret; apply Hne; reflexivity.
    - apply expected_token_nonempty. }
  rewrite E. reflexivity.
Qed.

Lemma ingest_auth_first_witness :
  ingest_data (Some "Bearer guess") (Some "s3cret") (Some empty_store)
              (Some full_reading) Key.new_year_2024 =
    ({| status := 401;
        payload := Error "Authentication Failed. Invalid IOT_DEVICE_SECRET." None |},
     Some empty_store).
Proof.
  apply (ingest_auth_first (Some "Bearer guess") (Some "s3cret")).
  vm_compute. discriminate.
Defined.

(** With the right token the same request is stored. *)
Example ingest_accepts_the_secret :
  (ingest_data (Some "Bearer s3cret") (Some "s3cret") (Some empty_store)
               (Some full_reading) Key.new_year_2024).1 =
    {| status := 201; payload := Ingested "2024-01-01 00:00:00" |}.
Proof. vm_compute. reflexivity. Qed.

(** The round trip of the specification: one accepted reading with
    Ca = 80 and Mg = 20, then its history, which holds exactly that
    reading with a total hardness of 282.12. *)
Example ingest_then_history :
  let stored := (ingest_data (Some "Bearer s3cret") (Some "s3cret") (Some empty_store)
                             (Some full_reading) Key.new_year_2024).2 in
  status (get_history (Some "Lab") stored) = 200 /\
  match payload (get_history (Some "Lab") stored) with
  | History area record_count [r] =>
      area = "Lab" /\ record_count = 1%nat /\
      r !! "total_hardness" = Some (VFloat (F.lit 28212 100))
  | _ => False
  end.
Proof. vm_compute. repeat split; reflexivity. Qed.

(** ** C8 *)










(** ** C6 *)





End AppFacts.

(* ================================================================= *)
(** * Floats that stay finite *)

Module FloatFacts.
Import FloatSpec.

Lemma below_pow2_finite (k : Z) (x : F.float) : below_pow2 k x -> F.is_finite x = true.
Proof. destruct x; simpl; intros H; try reflexivity; contradiction. Qed.

Lemma below_pow2_mono (k k' : Z) (x : F.float) :
  k <= k' -> below_pow2 k x -> below_pow2 k' x.
Proof. destruct x; simpl; intros; try assumption; lia. Qed.

(** ** The number of bits of a mantissa *)

Lemma pow2_pos (n : Z) : 0 <= n -> 0 < 2 ^ n.
Proof. intros. apply Z.pow_pos_nonneg; lia. Qed.

Lemma pow2_succ (n : Z) : 0 <= n -> 2 ^ (n + 1) = 2 * 2 ^ n.
Proof. intros. rewrite Z.pow_add_r by lia. change (2 ^ 1) with 2. lia. Qed.

Lemma digits2_pos_bounds (p : positive) :
  2 ^ (Z.pos (digits2_pos p) - 1) <= Z.pos p < 2 ^ Z.pos (digits2_pos p).
Proof.
  induction p as [p IH|p IH|]; cbn [digits2_pos].
  - rewrite Pos2Z.inj_succ. replace (Z.succ (Z.pos (digits2_pos p)) - 1)
      with (Z.pos (digits2_pos p) - 1 + 1) by lia.
    replace (Z.succ (Z.pos (digits2_pos p))) with (Z.pos (digits2_pos p) - 1 + 1 + 1) by lia.
    rewrite !pow2_succ by lia.
    replace (Z.pos (digits2_pos p)) with (Z.pos (digits2_pos p) - 1 + 1) in IH at 2 by lia.
    rewrite pow2_succ in IH by lia. lia.
  - rewrite Pos2Z.inj_succ. replace (Z.succ (Z.pos (digits2_pos p)) - 1)
      with (Z.pos (digits2_pos p) - 1 + 1) by lia.
    replace (Z.succ (Z.pos (digits2_pos p))) with (Z.pos (digits2_pos p) - 1 + 1 + 1) by lia.
    rewrite !pow2_succ by lia.
    replace (Z.pos (digits2_pos p)) with (Z.pos (digits2_pos p) - 1 + 1) in IH at 2 by lia.
    rewrite pow2_succ in IH by lia. lia.
  - cbn. lia.
Qed.

Lemma Zdigits2_nonneg (m : Z) : 0 <= Zdigits2 m.
Proof. destruct m; cbn; lia. Qed.

Lemma Zdigits2_lt (m : Z) : 0 <= m -> m < 2 ^ Zdigits2 m.
Proof.
  destruct m as [|p|p]; intros H; cbn [Zdigits2]; [cbn; lia | | lia].
  apply digits2_pos_bounds.
Qed.

Lemma Zdigits2_le (m k : Z) : 0 <= m < 2 ^ k -> 0 <= k -> Zdigits2 m <= k.
Proof.
  destruct m as [|p|p]; intros [H0 H] Hk; cbn [Zdigits2]; [lia | | lia].
  pose proof (digits2_pos_bounds p) as [Hl _].
  assert (2 ^ (Z.pos (digits2_pos p) - 1) < 2 ^ k) by lia.
  apply Z.pow_lt_mono_r_iff in H1; lia.
Qed.

Lemma Zdigits2_mono (a b : Z) : 0 <= a <= b -> Zdigits2 a <= Zdigits2 b.
Proof.
  intros H. apply Zdigits2_le; [|apply Zdigits2_nonneg].
  pose proof (Zdigits2_lt b ltac:(lia)). lia.
Qed.

Lemma Zdigits2_succ (m : Z) : 0 <= m -> Zdigits2 (m + 1) <= Zdigits2 m + 1.
Proof.
  intros H. apply Zdigits2_le; [|pose proof (Zdigits2_nonneg m); lia].
  pose proof (Zdigits2_lt m H). rewrite pow2_succ by apply Zdigits2_nonneg. lia.
Qed.

Lemma Zdigits2_div (m n : Z) : 0 <= m -> 0 <= n ->
  Zdigits2 (m / 2 ^ n) + n <= Z.max (Zdigits2 m) n.
Proof.
  intros Hm Hn. pose proof (pow2_pos n Hn) as Hp.
  destruct (Z_lt_le_dec m (2 ^ n)) as [Hlt|Hge].
  - rewrite Z.div_small by lia. cbn. lia.
  - pose proof (Zdigits2_lt m Hm) as Hd.
    assert (n < Zdigits2 m).
    { assert (2 ^ n < 2 ^ Zdigits2 m) by lia.
      apply Z.pow_lt_mono_r_iff in H; [lia | lia | apply Zdigits2_nonneg]. }
    assert (Zdigits2 (m / 2 ^ n) <= Zdigits2 m - n); [|lia].
    apply Zdigits2_le; [|lia]. split; [apply Z.div_pos; lia|].
    apply Z.div_lt_upper_bound; [lia|].
    rewrite <- Z.pow_add_r by lia. replace (n + (Zdigits2 m - n)) with (Zdigits2 m) by lia.
    exact Hd.
Qed.

(** ** Shifting right *)

Lemma shr_1_m (mrs : shr_record) : 0 <= shr_m mrs -> shr_m (shr_1 mrs) = shr_m mrs / 2.
Proof.
  destruct mrs as [m r s]. cbn [shr_m shr_1]. intros H.
  destruct m as [|[p|p|]|p]; cbn [shr_m]; try lia.
  - reflexivity.
  - rewrite Pos2Z.inj_xI. apply (Z.div_unique _ _ _ 1); lia.
  - rewrite Pos2Z.inj_xO. apply (Z.div_unique _ _ _ 0); lia.
  - reflexivity.
Qed.

Lemma iter_shr_1_m (p : positive) : forall mrs : shr_record,
  0 <= shr_m mrs -> shr_m (SpecFloat.iter_pos shr_1 p mrs) = shr_m mrs / 2 ^ Z.pos p.
Proof.
  induction p as [p IH|p IH|]; intros mrs H; cbn [SpecFloat.iter_pos].
  - assert (H1 : 0 <= shr_m (shr_1 mrs)) by (rewrite shr_1_m by lia; apply Z.div_pos; lia).
    assert (H2 : 0 <= shr_m (SpecFloat.iter_pos shr_1 p (shr_1 mrs))).
    { rewrite IH by lia. apply Z.div_pos; [lia | apply pow2_pos; lia]. }
    rewrite IH, IH, shr_1_m by lia.
    rewrite !Z.div_div by (try apply pow2_pos; lia).
    f_equal. rewrite Pos2Z.inj_xI.
    replace (2 * Z.pos p + 1) with (1 + (Z.pos p + Z.pos p)) by lia.
    rewrite !Z.pow_add_r by lia. reflexivity.
  - assert (H2 : 0 <= shr_m (SpecFloat.iter_pos shr_1 p mrs)).
    { rewrite IH by lia. apply Z.div_pos; [lia | apply pow2_pos; lia]. }
    rewrite IH, IH by lia.
    rewrite !Z.div_div by (try apply pow2_pos; lia).
    f_equal. rewrite Pos2Z.inj_xO, <- Z.pow_add_r by lia. f_equal. lia.
  - rewrite shr_1_m by lia. reflexivity.
Qed.

Lemma shr_m_of_loc (m : Z) (l : location) : shr_m (shr_record_of_loc m l) = m.
Proof. destruct l as [|[]]; reflexivity. Qed.

Lemma shr_fexp_spec (m e : Z) (l : location) :
  0 <= m ->
  exists mrs e',
    shr_fexp F.prec F.emax m e l = (mrs, e') /\
    e' = Z.max e (fexp F.prec F.emax (Zdigits2 m + e)) /\
    shr_m mrs = m / 2 ^ (e' - e).
Proof.
  intros Hm. unfold shr_fexp, shr.
  destruct (fexp F.prec F.emax (Zdigits2 m + e) - e) as [|p|p] eqn:En.
  - eexists _, _. split; [reflexivity|]. split; [lia|].
    rewrite shr_m_of_loc, Z.sub_diag. cbn. now rewrite Z.div_1_r.
  - eexists _, _. split; [reflexivity|]. split; [lia|].
    rewrite iter_shr_1_m by (rewrite shr_m_of_loc; lia).
    rewrite shr_m_of_loc. f_equal. f_equal. lia.
  - eexists _, _. split; [reflexivity|]. split; [lia|].
    rewrite shr_m_of_loc, Z.sub_diag. cbn. now rewrite Z.div_1_r.
Qed.

Lemma round_nearest_even_bounds (m : Z) (l : location) :
  m <= round_nearest_even m l <= m + 1.
Proof.
  destruct l as [|[]]; cbn [round_nearest_even]; try lia.
  destruct (Z.even m); lia.
Qed.

Lemma fexp_eq (z : Z) : fexp F.prec F.emax z = Z.max (z - 53) (-1074).
Proof. reflexivity. Qed.

(** Rounding leaves a zero or a finite float, at most one bit longer. *)
Lemma binary_round_aux_below (s : bool) (mx ex : Z) (lx : location) (k : Z) :
  0 <= mx -> ex <= 971 -> ex <= k -> Zdigits2 mx + ex <= k -> -1074 <= k <= 1023 ->
  below_pow2 (k + 1) (binary_round_aux F.prec F.emax s mx ex lx).
Proof.
  intros Hm Hex Hexk HD Hk. unfold binary_round_aux.
  destruct (shr_fexp_spec mx ex lx Hm) as (mrs1 & e1 & -> & He1 & Hm1).
  rewrite fexp_eq in He1.
  assert (H1 : 0 <= shr_m mrs1) by (rewrite Hm1; apply Z.div_pos; [lia | apply pow2_pos; lia]).
  pose proof (Zdigits2_div mx (e1 - ex) Hm ltac:(lia)) as Hd1. rewrite <- Hm1 in Hd1.
  pose proof (round_nearest_even_bounds (shr_m mrs1) (loc_of_shr_record mrs1)) as Hr.
  set (m2 := round_nearest_even (shr_m mrs1) (loc_of_shr_record mrs1)) in *.
  assert (Hd2 : Zdigits2 m2 <= Zdigits2 (shr_m mrs1) + 1).
  { etransitivity; [apply (Zdigits2_mono m2 (shr_m mrs1 + 1)); lia|].
    now apply Zdigits2_succ. }
  destruct (shr_fexp_spec m2 e1 loc_Exact ltac:(lia)) as (mrs2 & e2 & -> & He2 & Hm2).
  rewrite fexp_eq in He2.
  pose proof (Zdigits2_div m2 (e2 - e1) ltac:(lia) ltac:(lia)) as Hd3. rewrite <- Hm2 in Hd3.
  assert (H2 : 0 <= shr_m mrs2) by (rewrite Hm2; apply Z.div_pos; [lia | apply pow2_pos; lia]).
  destruct (shr_m mrs2) as [|p|p] eqn:E3; [exact I| |lia].
  replace (e2 <=? F.emax - F.prec) with true
    by (symmetry; apply Z.leb_le; unfold F.emax, F.prec; lia).
  cbn [below_pow2]. cbn [Zdigits2] in Hd3. lia.
Qed.

Lemma digits2_pos_iter_xO (d m : positive) :
  Z.pos (digits2_pos (Pos.iter xO m d)) = Z.pos (digits2_pos m) + Z.pos d.
Proof.
  induction d as [|d IH] using Pos.peano_ind.
  - cbn. lia.
  - rewrite Pos.iter_succ. cbn [digits2_pos]. rewrite !Pos2Z.inj_succ, IH. lia.
Qed.

Lemma pos_iter_xO (d m : positive) : Z.pos (Pos.iter xO m d) = Z.pos m * 2 ^ Z.pos d.
Proof.
  induction d as [|d IH] using Pos.peano_ind.
  - cbn. lia.
  - rewrite Pos.iter_succ, Pos2Z.inj_xO, IH, Pos2Z.inj_succ.
    unfold Z.succ. rewrite pow2_succ by lia. lia.
Qed.

Lemma binary_round_below (s : bool) (mx : positive) (ex k : Z) :
  Z.pos (digits2_pos mx) + ex <= k -> -1074 <= k <= 1023 ->
  below_pow2 (k + 1) (binary_round F.prec F.emax s mx ex).
Proof.
  intros HD Hk. unfold binary_round, shl_align.
  pose proof (fexp_eq (Z.pos (digits2_pos mx) + ex)) as Hf.
  assert (0 < Z.pos (digits2_pos mx)) by lia.
  destruct (fexp F.prec F.emax (Z.pos (digits2_pos mx) + ex) - ex) as [|d|d] eqn:Ed.
  - apply binary_round_aux_below; cbn [Zdigits2]; lia.
  - apply binary_round_aux_below; cbn [Zdigits2]; lia.
  - apply binary_round_aux_below; cbn [Zdigits2]; try lia.
    rewrite digits2_pos_iter_xO. lia.
Qed.

Lemma binary_normalize_below (m e k : Z) (szero : bool) :
  Zdigits2 m + e <= k -> -1074 <= k <= 1023 ->
  below_pow2 (k + 1) (binary_normalize F.prec F.emax m e szero).
Proof.
  intros HD Hk. destruct m as [|p|p]; cbn [binary_normalize]; [exact I| |];
    apply binary_round_below; assumption.
Qed.

Lemma Zdigits2_abs (m : Z) : Zdigits2 m = Zdigits2 (Z.abs m).
Proof. destruct m; reflexivity. Qed.

Lemma of_Z_below (z k : Z) :
  Z.abs z < 2 ^ k -> 0 <= k <= 1023 -> below_pow2 (k + 1) (F.of_Z z).
Proof.
  intros Hz Hk. unfold F.of_Z. apply binary_normalize_below; [|lia].
  rewrite Zdigits2_abs, Z.add_0_r. apply Zdigits2_le; lia.
Qed.

(** ** Addition *)

Lemma shl_align_fst (mx : positive) (ex ez : Z) :
  ez <= ex -> Z.pos (shl_align mx ex ez).1 = Z.pos mx * 2 ^ (ex - ez).
Proof.
  intros H. unfold shl_align. destruct (ez - ex) as [|d|d] eqn:E; cbn [fst].
  - replace (ex - ez) with 0 by lia. cbn. lia.
  - lia.
  - rewrite pos_iter_xO. f_equal. f_equal. lia.
Qed.

Lemma aligned_below (mx : positive) (ex ez k : Z) :
  ez <= ex -> Z.pos (digits2_pos mx) + ex <= k ->
  Z.pos mx * 2 ^ (ex - ez) < 2 ^ (k - ez).
Proof.
  intros He Hk. pose proof (digits2_pos_bounds mx) as [_ Hm].
  assert (0 < Z.pos (digits2_pos mx)) by lia.
  apply Z.lt_le_trans with (2 ^ Z.pos (digits2_pos mx) * 2 ^ (ex - ez)).
  - apply Z.mul_lt_mono_pos_r; [apply pow2_pos; lia | exact Hm].
  - rewrite <- Z.pow_add_r by lia. apply Z.pow_le_mono_r; lia.
Qed.

Lemma add_below (k : Z) (x y : F.float) :
  below_pow2 k x -> below_pow2 k y -> -1074 <= k <= 1021 ->
  below_pow2 (k + 2) (F.add x y).
Proof.
  intros Hx Hy Hk.
  destruct x as [sx|sx| |sx mx ex]; try contradiction;
    destruct y as [sy|sy| |sy my ey]; try contradiction.
  - destruct sx, sy; exact I.
  - cbn in *. lia.
  - cbn in *. lia.
  - cbn [below_pow2] in Hx, Hy. unfold F.add, SFadd.
    set (ez := Z.min ex ey).
    replace (k + 2) with (k + 1 + 1) by lia.
    apply binary_normalize_below; [|lia].
    pose proof (shl_align_fst mx ex ez ltac:(lia)) as Ex.
    pose proof (shl_align_fst my ey ez ltac:(lia)) as Ey.
    pose proof (aligned_below mx ex ez k ltac:(lia) Hx) as Bx.
    pose proof (aligned_below my ey ez k ltac:(lia) Hy) as By.
    rewrite <- Ex in Bx. rewrite <- Ey in By.
    set (ax := Z.pos (shl_align mx ex ez).1) in *.
    set (ay := Z.pos (shl_align my ey ez).1) in *.
    assert (0 < ax) by (unfold ax; lia). assert (0 < ay) by (unfold ay; lia).
    assert (0 < Z.pos (digits2_pos mx)) by lia.
    rewrite Zdigits2_abs.
    assert (Zdigits2 (Z.abs (cond_Zopp sx ax + cond_Zopp sy ay)) <= k - ez + 1); [|lia].
    apply Zdigits2_le; [|lia]. split; [lia|].
    rewrite pow2_succ by lia.
    destruct sx, sy; cbn [cond_Zopp]; lia.
Qed.

(** ** Division *)

Lemma shiftl_pow2 (m s : Z) : 0 <= s -> Z.shiftl m s = m * 2 ^ s.
Proof. intros. now apply Z.shiftl_mul_pow2. Qed.

Lemma div_below (k : Z) (x y : F.float) :
  match x, y with
  | S754_finite _ m1 e1, S754_finite _ m2 e2 =>
      Z.pos (digits2_pos m1) + e1 - (Z.pos (digits2_pos m2) + e2) + 1 <= k
  | S754_zero _, S754_finite _ _ _ => True
  | _, _ => False
  end ->
  -1074 <= k <= 1023 ->
  below_pow2 (k + 1) (F.div x y).
Proof.
  destruct x as [sx|sx| |sx m1 e1]; try contradiction;
    destruct y as [sy|sy| |sy m2 e2]; try contradiction; intros H Hk.
  - exact I.
  - unfold F.div, SFdiv, SFdiv_core_binary. cbn [Zdigits2].
    set (d1 := Z.pos (digits2_pos m1)) in *. set (d2 := Z.pos (digits2_pos m2)) in *.
    set (e' := Z.min (fexp F.prec F.emax (d1 + e1 - (d2 + e2))) (e1 - e2)).
    assert (He' : e' <= Z.max (d1 + e1 - (d2 + e2) - 53) (-1074) /\ e' <= e1 - e2).
    { unfold e'. rewrite fexp_eq. lia. }
    set (s := e1 - e2 - e').
    assert (Hs : 0 <= s) by (unfold s; lia).
    set (m' := match s with Z.pos _ => Z.shiftl (Z.pos m1) s | 0 => Z.pos m1 | Z.neg _ => 0 end).
    assert (Hm' : m' = Z.pos m1 * 2 ^ s).
    { unfold m'. destruct s as [|p|p] eqn:Es; [cbn; lia | apply shiftl_pow2; lia | lia]. }
    pose proof (digits2_pos_bounds m1) as [_ B1]. fold d1 in B1.
    pose proof (digits2_pos_bounds m2) as [B2 _]. fold d2 in B2.
    assert (0 < d1) by (unfold d1; lia). assert (0 < d2) by (unfold d2; lia).
    assert (Hq : Z.div_eucl m' (Z.pos m2) = (m' / Z.pos m2, m' mod Z.pos m2)).
    { unfold Z.div, Z.modulo. destruct (Z.div_eucl m' (Z.pos m2)). reflexivity. }
    rewrite Hq.
    set (q := m' / Z.pos m2).
    assert (Hq0 : 0 <= q) by (apply Z.div_pos; lia).
    assert (Hqd : Zdigits2 q + e' <= Z.max (d1 + e1 - (d2 + e2) + 1) e').
    { destruct (Z_lt_le_dec m' (Z.pos m2)) as [Hlt|Hge].
      - unfold q. rewrite Z.div_small by lia. cbn. lia.
      - assert (0 <= d1 + s - d2 + 1).
        { assert (2 ^ (d2 - 1) < 2 ^ (d1 + s)).
          { apply Z.le_lt_trans with m'; [lia|]. rewrite Hm', Z.pow_add_r by lia.
            apply Z.mul_lt_mono_pos_r; [apply pow2_pos; lia | exact B1]. }
          apply Z.pow_lt_mono_r_iff in H2; lia. }
        assert (Zdigits2 q <= d1 + s - d2 + 1); [|unfold s in *; lia].
        apply Zdigits2_le; [|lia]. split; [lia|].
        apply Z.div_lt_upper_bound; [lia|].
        apply Z.lt_le_trans with (2 ^ (d1 + s)).
        + rewrite Hm', Z.pow_add_r by lia.
          apply Z.mul_lt_mono_pos_r; [apply pow2_pos; lia | exact B1].
        + apply Z.le_trans with (2 ^ (d2 - 1) * 2 ^ (d1 + s - d2 + 1)).
          * rewrite <- Z.pow_add_r by lia. apply Z.pow_le_mono_r; lia.
          * apply Z.mul_le_mono_nonneg_r; [apply Z.lt_le_incl, pow2_pos; lia | exact B2]. }
    apply binary_round_aux_below; lia.
Qed.

Lemma round_half_even_nonneg (n d : Z) : 0 <= n -> 0 < d -> 0 <= F.round_half_even n d.
Proof.
  intros Hn Hd. unfold F.round_half_even.
  assert (0 <= n / d) by (apply Z.div_pos; lia).
  destruct (2 * (n mod d) ?= d); [destruct (Z.even (n / d))| |]; lia.
Qed.

Lemma of_Z_100 : F.of_Z 100 = S754_finite false 7036874417766400 (-46).
Proof. vm_compute. reflexivity. Qed.

(** Rounding to two decimals never leaves the finite floats. *)
Lemma round2_finite (x : F.float) : F.is_finite x = true -> F.is_finite (F.round2 x) = true.
Proof.
  destruct x as [s|s| |s m e]; try discriminate; intros _; [reflexivity|].
  unfold F.round2.
  set (r := if 0 <=? e then F.round_half_even (Z.pos m * 100 * 2 ^ e) 1
            else F.round_half_even (Z.pos m * 100) (2 ^ (- e))).
  assert (Hr : 0 <= r).
  { unfold r. destruct (Z.leb_spec 0 e).
    - apply round_half_even_nonneg; [|lia].
      apply Z.mul_nonneg_nonneg; [lia | apply Z.lt_le_incl, pow2_pos; lia].
    - apply round_half_even_nonneg; [lia | apply pow2_pos; lia]. }
  destruct (Z.ltb_spec r (2 ^ 53)) as [Hlt|Hge]; [|reflexivity].
  apply (below_pow2_finite 49). rewrite of_Z_100.
  destruct (Z.eqb_spec r 0) as [E|E].
  - exact I.
  - apply (div_below 48); [|lia].
    assert (Hb : below_pow2 54 (F.of_Z (if s then - r else r))).
    { apply (of_Z_below _ 53); [destruct s; lia | lia]. }
    destruct (F.of_Z (if s then - r else r)) as [s'|s'| |s' m1 e1]; try contradiction;
      [exact I|].
    cbn [below_pow2] in Hb. cbn [digits2_pos Pos.succ]. lia.
Qed.

(** A float between -10 and 10. *)
Lemma uniform_below (u : F.float) :
  Value.is_ge (F.compare_Z u (-10)) = true ->
  Value.is_le (F.compare_Z u 10) = true ->
  below_pow2 4 u.
Proof.
  destruct u as [s|s| |s m e]; cbn [F.compare_Z below_pow2].
  - trivial.
  - destruct s; cbn; discriminate.
  - discriminate.
  - pose proof (digits2_pos_bounds m) as [B _].
    assert (0 < Z.pos (digits2_pos m)) by lia.
    destruct (Z.leb_spec 0 e) as [He|He]; intros Hlo Hhi.
    + assert (Z.pos m * 2 ^ e <= 10).
      { destruct s.
        - destruct (Z.compare_spec (Z.neg m * 2 ^ e) (-10)); cbn in Hlo; try discriminate; lia.
        - destruct (Z.compare_spec (Z.pos m * 2 ^ e) 10); cbn in Hhi; try discriminate; lia. }
      assert (2 ^ (Z.pos (digits2_pos m) - 1 + e) < 2 ^ 4).
      { rewrite Z.pow_add_r by lia. change (2 ^ 4) with 16.
        pose proof (pow2_pos e He).
        assert (2 ^ (Z.pos (digits2_pos m) - 1) * 2 ^ e <= Z.pos m * 2 ^ e)
          by (apply Z.mul_le_mono_nonneg_r; lia).
        lia. }
      apply Z.pow_lt_mono_r_iff in H1; lia.
    + pose proof (pow2_pos (- e) ltac:(lia)) as Hp.
      assert (Z.pos m <= 10 * 2 ^ (- e)).
      { destruct s.
        - destruct (Z.compare_spec (Z.neg m) (-10 * 2 ^ (- e))); cbn in Hlo; try discriminate; lia.
        - destruct (Z.compare_spec (Z.pos m) (10 * 2 ^ (- e))); cbn in Hhi; try discriminate; lia. }
      assert (2 ^ (Z.pos (digits2_pos m) - 1) < 2 ^ (4 - e)).
      { replace (4 - e) with (4 + - e) by lia. rewrite (Z.pow_add_r 2 4) by lia.
        change (2 ^ 4) with 16. lia. }
      apply Z.pow_lt_mono_r_iff in H1; lia.
Qed.

End FloatFacts.

(* ================================================================= *)
(** * The forecast *)

Module ForecastFacts.
Import Value Modeler FloatSpec FloatFacts ForecastSamples.

(** C4, as stated, fails on the code: only an empty frame or a frame
    without a TDS column is answered "insufficient data". A history of a
    single record, and one of two records of the same day, have one
    distinct day offset, are fitted, and come back with seven predictions. *)
Lemma single_day_history_is_forecast :
  distinct_day_offsets one_record = 1%nat /\
  distinct_day_offsets same_day = 1%nat /\
  (exists r, predict_area_trend line ols_fit ols_predict fallback_areas
               (serves one_record) no_jitter at_noon "MG Road" 7 = Ok r /\
             length (predictions r) = 7%nat /\
             model_used r = "LinearRegression" /\
             trend_message r = Stable (S754_zero false)) /\
  (exists r, predict_area_trend line ols_fit ols_predict fallback_areas
               (serves same_day) no_jitter at_noon "MG Road" 7 = Ok r /\
             length (predictions r) = 7%nat /\
             trend_message r <> Insufficient).
Proof.
  split; [vm_compute; reflexivity|]. split; [vm_compute; reflexivity|]. split.
  - eexists. split; [vm_compute; reflexivity|]. repeat split.
  - eexists. split; [vm_compute; reflexivity|]. split; [reflexivity|]. discriminate.
Qed.

Section Regression.

Variable model : Type.
Variable fit : list Z -> list F.float -> option model.
Variable predict : model -> list Z -> outcome (list F.float).

(** C4, amended: [predict_area_trend] returns the "insufficient data"
    result, with an empty predictions list, when the history it fetched is
    empty or has no TDS column; a history that has TDS values is never
    answered "insufficient data", whatever the number of distinct day
    offsets it spans: the regression is fitted on it. *)
Theorem insufficient_only_without_tds (areas : list string) (P1 : Z -> reply)
    (uniform : Z -> F.float) (now : Z -> Z) (area : string) (future_steps : Z)
    (res : history) :
  _get_history_df areas P1 uniform now area 30 = Ok res ->
  (empty (df res) = true \/ has_TDS_column (df res) = false ->
   predict_area_trend model fit predict areas P1 uniform now area future_steps =
     Ok (insufficient area (source res))) /\
  (empty (df res) = false -> has_TDS_column (df res) = true ->
   forall r, predict_area_trend model fit predict areas P1 uniform now area
               future_steps = Ok r ->
             trend_message r <> Insufficient).
Proof.
  intros Hres. unfold predict_area_trend. rewrite Hres. cbn [bind]. split.
  - intros [-> | ->]; [reflexivity|]. rewrite orb_true_r. reflexivity.
  - intros -> ->. cbn [orb negb].
    intros r. destruct (fit _ _) as [fitted|].
    + destruct (predict fitted _) as [predicted|e]; cbn [bind]; [|discriminate].
      destruct (List.last (Some <$> predicted) None) as [p|]; cbn [bind]; [|discriminate].
      intros [= <-]. cbn [trend_message].
      repeat match goal with |- context [if ?b then _ else _] => destruct b end;
        discriminate.
    + intros [= <-]. discriminate.
Qed.

(** ** The synthetic fallback *)

Lemma fetch_attempts_none (P1 : Z -> reply) (attempts : list Z) :
  Forall (fun attempt => P1 attempt = CallFailed \/ P1 attempt = Data []) attempts ->
  (fetch_attempts P1 attempts).1 = None.
Proof.
  intros H. induction H as [|a rest Ha _ IH]; [reflexivity|].
  cbn [fetch_attempts]. destruct Ha as [-> | ->];
    destruct (fetch_attempts P1 rest) as [found sleeps]; exact IH.
Qed.

Lemma index_elem (areas : list string) (area : string) :
  area ∈ areas -> exists i, index areas area = Ok i /\ 0 <= i.
Proof.
  induction areas as [|a rest IH]; intros Hin; [inversion Hin|].
  cbn [index]. destruct (String.eqb_spec a area) as [->|Hne].
  - exists 0. split; [reflexivity | lia].
  - apply elem_of_cons in Hin as [->|Hin]; [congruence|].
    destruct (IH Hin) as (i & -> & Hi). exists (i + 1). split; [reflexivity | lia].
Qed.

Lemma length_range (n : Z) : length (range n) = Z.to_nat n.
Proof. unfold range. now rewrite length_fmap, length_seq. Qed.

Lemma length_dated (last i : Z) (predicted : list F.float) :
  length (dated last i predicted) = length predicted.
Proof.
  revert i. induction predicted as [|p rest IH]; intros i; cbn [dated length];
    [reflexivity | now rewrite IH].
Qed.

Lemma last_some {A} (l : list A) :
  l <> [] -> exists x, List.last (Some <$> l) None = Some x.
Proof.
  induction l as [|a [|b l] IH]; intros Hne; [congruence| |].
  - exists a. reflexivity.
  - destruct (IH ltac:(discriminate)) as [x Hx]. exists x. exact Hx.
Qed.

(** ** The generated series is made of finite values *)

Lemma elem_of_range (n i : Z) : i ∈ range n -> 0 <= i < n.
Proof.
  unfold range. intros H. apply list_elem_of_fmap in H as (k & -> & Hk).
  apply elem_of_seq in Hk. lia.
Qed.

Lemma drift_below (i : Z) :
  i ∈ range 30 -> below_pow2 4 (F.mul (F.div (F.of_Z i) (F.of_Z 10)) (F.of_Z 5)).
Proof.
  revert i. apply Forall_forall.
  assert (E : range 30 = ltac:(let l := eval vm_compute in (range 30) in exact l))
    by (vm_compute; reflexivity).
  rewrite E.
  repeat (constructor; [vm_compute; first [exact I | discriminate]|]). constructor.
Qed.

Lemma mock_row_finite (base_tds : Z) (uniform : Z -> F.float) (now : Z -> Z)
    (limit i : Z) :
  350 <= base_tds < 550 -> within (-10) 10 (uniform i) -> i ∈ range 30 ->
  F.is_finite (cell (mock_row base_tds uniform now limit i)) = true.
Proof.
  intros Hb [Hlo Hhi] Hi. unfold mock_row, cell. cbn [TDS default from_option id].
  apply round2_finite, (below_pow2_finite 15).
  change 15 with (13 + 2). apply add_below; [| |lia].
  - change 13 with (11 + 2). apply add_below; [| |lia].
    + apply (of_Z_below _ 10); [change (2 ^ 10) with 1024|]; lia.
    + apply (below_pow2_mono 4); [lia|]. now apply uniform_below.
  - apply (below_pow2_mono 4); [lia|]. now apply drift_below.
Qed.

Lemma mock_data_finite (i : Z) (uniform : Z -> F.float) (now : Z -> Z) :
  (forall k, 0 <= k < 30 -> within (-10) 10 (uniform k)) ->
  Forall (fun r => F.is_finite (cell r) = true) (mock_data i uniform now 30).
Proof.
  intros Hu. unfold mock_data. apply Forall_fmap, Forall_forall. intros k Hk.
  cbn [compose]. apply mock_row_finite.
  - pose proof (Z.mod_pos_bound (i * 50) 200). lia.
  - apply Hu, elem_of_range, Hk.
  - exact Hk.
Qed.

Lemma insert_sample_Forall (P : sample -> Prop) (x : sample) (l : frame) :
  P x -> Forall P l -> Forall P (insert_sample x l).
Proof.
  intros Hx Hl. induction Hl as [|y l Hy Hl IH]; cbn [insert_sample].
  - now constructor.
  - destruct (timestamp x <? timestamp y); repeat constructor; assumption.
Qed.

Lemma sort_values_Forall (P : sample -> Prop) (d : frame) :
  Forall P d -> Forall P (sort_values d).
Proof.
  unfold sort_values. assert (Hacc : Forall P (@nil sample)) by constructor.
  revert Hacc. generalize (@nil sample) as acc.
  induction d as [|x d IH]; intros acc Hacc Hd; cbn [fold_left]; [exact Hacc|].
  inversion Hd; subst. apply IH; [now apply insert_sample_Forall | assumption].
Qed.

Lemma length_insert_sample (x : sample) (l : frame) :
  length (insert_sample x l) = S (length l).
Proof.
  induction l as [|y l IH]; cbn [insert_sample length]; [reflexivity|].
  destruct (timestamp x <? timestamp y); cbn [length]; now rewrite ?IH.
Qed.

Lemma length_sort_values (d : frame) : length (sort_values d) = length d.
Proof.
  unfold sort_values. change (length d) with (length (@nil sample) + length d)%nat.
  generalize (@nil sample) as acc.
  induction d as [|x d IH]; intros acc; cbn [fold_left length]; [lia|].
  rewrite IH, length_insert_sample. lia.
Qed.

Lemma training_y_finite (d : frame) :
  Forall (fun r => F.is_finite (cell r) = true) d ->
  forallb F.is_finite (training_y d) = true.
Proof.
  intros H. apply sort_values_Forall in H. unfold training_y.
  induction H as [|r l Hr _ IH]; [reflexivity|].
  cbn [fmap list_fmap forallb]. rewrite Hr. exact IH.
Qed.

Lemma training_lengths (d : frame) :
  length (training_X d) = length d /\ length (training_y d) = length d.
Proof.
  unfold training_X, training_y, time_index.
  now rewrite !length_fmap, length_sort_values.
Qed.

Lemma length_mock_data (i : Z) (uniform : Z -> F.float) (now : Z -> Z) :
  length (mock_data i uniform now 30) = 30%nat.
Proof. unfold mock_data. now rewrite length_fmap, length_range. Qed.

(** What scikit-learn promises. [fit] accepts a series that is not empty,
    has as many values as offsets, and whose values are all finite;
    [predict] gives one value per requested offset. *)
Hypothesis fit_accepts : forall (X : list Z) (y : list F.float),
  X <> [] -> length X = length y -> forallb F.is_finite y = true ->
  exists fitted, fit X y = Some fitted.
Hypothesis predict_length : forall (m : model) (X : list Z),
  X <> [] -> exists Y, predict m X = Ok Y /\ length Y = length X.

(** C5, amended: for every area of the known-areas list and every
    [future_steps >= 1], when all three attempts to fetch the history fail
    or bring no record, [predict_area_trend] returns a result and does not
    raise; the series it is computed from is the generated one, the
    regression is fitted on it, the [source] field of the result is "mock"
    and its predictions list has exactly [future_steps] entries. *)
Theorem fallback_forecast (areas : list string) (P1 : Z -> reply)
    (uniform : Z -> F.float) (now : Z -> Z) (area : string) (future_steps : Z) :
  (forall attempt, 1 <= attempt <= 3 ->
                   P1 attempt = CallFailed \/ P1 attempt = Data []) ->
  (forall k, 0 <= k < 30 -> within (-10) 10 (uniform k)) ->
  area ∈ areas ->
  1 <= future_steps ->
  exists r,
    predict_area_trend model fit predict areas P1 uniform now area future_steps = Ok r /\
    result_source r = Some "mock" /\
    model_used r = "LinearRegression" /\
    length (predictions r) = Z.to_nat future_steps.
Proof using fit_accepts predict_length.
  intros Hfail Hu Hin Hsteps.
  destruct (index_elem areas area Hin) as (i & Hi & _).
  assert (Hnone : (fetch_attempts P1 [1; 2; 3]).1 = None).
  { apply fetch_attempts_none. repeat (constructor; [apply Hfail; lia|]). constructor. }
  assert (Hres : exists sleeps, _get_history_df areas P1 uniform now area 30 =
            Ok {| df := mock_data i uniform now 30; source := "mock"; slept := sleeps |}).
  { unfold _get_history_df. destruct (fetch_attempts P1 [1; 2; 3]) as [found sleeps].
    cbn [fst] in Hnone. subst found. rewrite Hi. cbn [bind]. eauto. }
  destruct Hres as [sleeps Hres].
  unfold predict_area_trend. rewrite Hres. cbn [bind df source].
  change (empty (mock_data i uniform now 30)) with false.
  change (has_TDS_column (mock_data i uniform now 30)) with true.
  cbn [orb negb].
  fold (training_X (mock_data i uniform now 30)).
  fold (training_y (mock_data i uniform now 30)).
  destruct (training_lengths (mock_data i uniform now 30)) as [LX Ly].
  destruct (fit_accepts (training_X (mock_data i uniform now 30))
                        (training_y (mock_data i uniform now 30))) as [fitted ->].
  { intros E. rewrite E, length_mock_data in LX. discriminate LX. }
  { congruence. }
  { apply training_y_finite, mock_data_finite, Hu. }
  set (future := (fun k => _) <$> range future_steps).
  assert (Hlen : length future = Z.to_nat future_steps)
    by (unfold future; now rewrite length_fmap, length_range).
  assert (Hne : future <> []) by (intros E; rewrite E in Hlen; cbn in Hlen; lia).
  destruct (predict_length fitted future Hne) as (Y & HY & HlenY).
  rewrite HY. cbn [bind].
  assert (HYne : Y <> []) by (intros E; rewrite E in HlenY; cbn in HlenY; lia).
  destruct (last_some Y HYne) as [p Hp]. rewrite Hp. cbn [bind].
  eexists. split; [reflexivity|]. cbn [result_source predictions model_used].
  split; [reflexivity|]. split; [reflexivity|]. rewrite length_dated. lia.
Qed.

End Regression.

Lemma ols_predict_length (m : line) (X : list Z) :
  X <> [] -> exists Y, ols_predict m X = Ok Y /\ length Y = length X.
Proof.
  intros HX. destruct X as [|x X]; [congruence|].
  eexists. split; [reflexivity|]. now rewrite length_fmap.
Qed.

Lemma insufficient_only_without_tds_witness :
  (empty no_tds = true \/ has_TDS_column no_tds = false ->
   predict_area_trend line ols_fit ols_predict fallback_areas (serves no_tds)
     no_jitter at_noon "MG Road" 7 = Ok (insufficient "MG Road" "real")) /\
  (empty no_tds = false -> has_TDS_column no_tds = true ->
   forall r, predict_area_trend line ols_fit ols_predict fallback_areas
               (serves no_tds) no_jitter at_noon "MG Road" 7 = Ok r ->
             trend_message r <> Insufficient).
Proof.
  apply (insufficient_only_without_tds line ols_fit ols_predict fallback_areas
           (serves no_tds) no_jitter at_noon "MG Road" 7
           {| df := no_tds; source := "real"; slept := [] |}).
  vm_compute. reflexivity.
Defined.

(** C5, as stated, fails on the code: the generated series is tagged
    "mock", not "synthetic"; an area that is not in the known-areas list
    makes the fallback raise, and so does a request for no step at all. *)
Lemma fallback_source_is_mock :
  (exists r, predict_area_trend line ols_fit ols_predict fallback_areas
               unreachable no_jitter at_noon "MG Road" 7 = Ok r /\
             result_source r = Some "mock" /\
             result_source r <> Some "synthetic" /\
             length (predictions r) = 7%nat) /\
  predict_area_trend line ols_fit ols_predict fallback_areas
    unreachable no_jitter at_noon "Hebbal" 7 = Raise ValueError /\
  predict_area_trend line ols_fit ols_predict fallback_areas
    unreachable no_jitter at_noon "MG Road" 0 = Raise ValueError.
Proof.
  split.
  - eexists. split; [vm_compute; reflexivity|]. repeat split. discriminate.
  - split; vm_compute; reflexivity.
Qed.

Lemma ols_fit_accepts (X : list Z) (y : list F.float) :
  X <> [] -> length X = length y -> forallb F.is_finite y = true ->
  exists fitted, ols_fit X y = Some fitted.
Proof.
  intros HX _ Hy. unfold ols_fit. rewrite Hy.
  rewrite bool_decide_eq_false_2 by exact HX. cbn [orb negb]. eauto.
Qed.

Lemma fallback_forecast_witness :
  exists r,
    predict_area_trend line ols_fit ols_predict fallback_areas unreachable
      no_jitter at_noon "Jayanagar" 7 = Ok r /\
    result_source r = Some "mock" /\
    model_used r = "LinearRegression" /\
    length (predictions r) = Z.to_nat 7.
Proof.
  apply (fallback_forecast line ols_fit ols_predict ols_fit_accepts ols_predict_length
           fallback_areas unreachable no_jitter at_noon "Jayanagar" 7).
  - intros attempt _. left. reflexivity.
  - intros k _. split; reflexivity.
  - apply list_elem_of_further, list_elem_of_here.
  - lia.
Defined.

End ForecastFacts.

(* ================================================================= *)
(** * The treatment jobs *)

Module JobsFacts.
Import Value Jobs JobSpec.
Local Open Scope jobs_scope.

Lemma progress_after_spec (i : Z) :
  0 <= i < 10 -> progress_after i = Ok (10 * (i + 1)).
Proof.
  intros H.
  assert (E : i = 0 \/ i = 1 \/ i = 2 \/ i = 3 \/ i = 4 \/ i = 5 \/ i = 6 \/
              i = 7 \/ i = 8 \/ i = 9) by lia.
  destruct E as [E|[E|[E|[E|[E|[E|[E|[E|[E|E]]]]]]]]]; subst i; vm_compute; reflexivity.
Qed.

Lemma last_cons {A} (a x : A) (l : list A) :
  List.last (a :: l) x = List.last l a.
Proof.
  revert a x. induction l as [|b l IH]; intros a x; [reflexivity|].
  change (List.last (a :: b :: l) x) with (List.last (b :: l) x).
  rewrite !IH. reflexivity.
Qed.


Lemma chain_app {A} (R : A -> A -> Prop) (x : A) (l1 l2 : list A) :
  chain R x (l1 ++ l2) <-> chain R x l1 /\ chain R (List.last l1 x) l2.
Proof.
  revert x. induction l1 as [|y l1 IH]; intros x.
  - cbn. tauto.
  - change ((y :: l1) ++ l2) with (y :: (l1 ++ l2)). cbn [chain].
    rewrite IH, last_cons. tauto.
Qed.

Section Run.

Variable id : string.

Lemma shows_nil (w : world) (j : job) : JOBS w !! id = Some j -> shows id w w j [].
Proof. intros H. split; [exact H|]. exists []. now rewrite app_nil_r. Qed.

Lemma shows_step (w w' w'' : world) (j j' : job) (tr : list job) :
  advanced id w w' j' -> shows id w' w'' j' tr -> shows id w w'' j (j' :: tr).
Proof.
  intros [Hj' Hs] [Hl (ms & Hms & Hobs)]. split.
  - rewrite Hl, last_cons. reflexivity.
  - exists (JOBS w' :: ms). split.
    + rewrite Hms, Hs, <- app_assoc. reflexivity.
    + cbn [fmap list_fmap]. now rewrite Hj', Hobs.
Qed.



Lemma update_some (f : job -> job) (w : world) (j : job) :
  JOBS w !! id = Some j ->
  update id f w = (Ok tt, {| JOBS := <[id := f j]> (JOBS w); seen := seen w |}).
Proof. intros H. unfold update. now rewrite H. Qed.

(** A critical section of one, two and three updates. *)
Lemma locked_update (f : job -> job) (w : world) (j : job) :
  JOBS w !! id = Some j ->
  exists w', locked (update id f) w = (Ok tt, w') /\ advanced id w w' (f j).
Proof.
  intros H. eexists. unfold locked. rewrite (update_some f w j H).
  split; [reflexivity|]. split; [apply lookup_insert_eq | reflexivity].
Qed.

Lemma locked_update2 (f g : job -> job) (w : world) (j : job) :
  JOBS w !! id = Some j ->
  exists w', locked (update id f ;;; update id g) w = (Ok tt, w') /\
             advanced id w w' (g (f j)).
Proof.
  intros H. eexists. unfold locked, mbind. rewrite (update_some f w j H).
  rewrite (update_some g _ (f j)) by apply lookup_insert_eq.
  split; [reflexivity|]. split; [apply lookup_insert_eq | reflexivity].
Qed.

Lemma locked_update3 (f g h : job -> job) (w : world) (j : job) :
  JOBS w !! id = Some j ->
  exists w', locked (update id f ;;; update id g ;;; update id h) w = (Ok tt, w') /\
             advanced id w w' (h (g (f j))).
Proof.
  intros H. eexists. unfold locked, mbind. rewrite (update_some f w j H).
  rewrite (update_some g _ (f j)) by apply lookup_insert_eq.
  rewrite (update_some h _ (g (f j))) by apply lookup_insert_eq.
  split; [reflexivity|]. split; [apply lookup_insert_eq | reflexivity].
Qed.

Variable TREATMENT_TIME_SCALE : outcome F.float.
Variable sleep : F.float -> outcome unit.

(** The progress loop when [sleep] accepts the duration. *)
Lemma loop_runs (step_sleep : F.float) (l : list Z) :
  sleep step_sleep = Ok tt ->
  Forall (fun i => 0 <= i < 10) l ->
  forall (w : world) (j : job),
    JOBS w !! id = Some j ->
    exists w', for_each l (loop_body id sleep step_sleep) w = (Ok tt, w') /\
               shows id w w' j (loop_trace j l).
Proof.
  intros Hsleep Hl. induction Hl as [|i l Hi Hl IH]; intros w j Hj.
  - exists w. split; [reflexivity | now apply shows_nil].
  - destruct (locked_update (with_progress (10 * (i + 1))) w j Hj) as (w1 & E1 & A1).
    destruct (IH w1 _ (proj1 A1)) as (w2 & E2 & S2).
    exists w2. split.
    + cbn [for_each]. unfold mbind at 1. unfold loop_body at 1.
      unfold mbind, lift. rewrite Hsleep, (progress_after_spec i Hi), E1. exact E2.
    + cbn [loop_trace]. eapply shows_step; eassumption.
Qed.



End Run.




(** A failing run: a scale of zero makes the division raise. *)
Example zero_scale_fails :
  summary "job-1" (ten_litres (Ok (S754_zero false)) (always (Ok tt)) fresh_world).2 =
    [(queued, 0); (running, 0); (failed, 0)] /\
  error <$> jobs_seen "job-1"
              (ten_litres (Ok (S754_zero false)) (always (Ok tt)) fresh_world).2
    = [None; None; Some ZeroDivisionError].
Proof. split; vm_compute; reflexivity. Qed.



End JobsFacts.

(* ================================================================= *)
(** * The order of keys *)

Module OrderFacts.
Import Store AppSpec.

Lemma ascii_compare_trans (c : comparison) (a b d : ascii) :
  Ascii.compare a b = c -> Ascii.compare b d = c -> Ascii.compare a d = c.
Proof.
  unfold Ascii.compare. destruct c.
  - rewrite !N.compare_eq_iff. congruence.
  - rewrite !N.compare_lt_iff. lia.
  - rewrite !N.compare_gt_iff. lia.
Qed.

Lemma compare_trans (c : comparison) (s1 s2 s3 : string) :
  String.compare s1 s2 = c -> String.compare s2 s3 = c -> String.compare s1 s3 = c.
Proof.
  revert s2 s3. induction s1 as [|a s1 IH]; intros [|b s2] [|d s3]; cbn [String.compare];
    try congruence.
  destruct (Ascii.compare a b) eqn:E1; destruct (Ascii.compare b d) eqn:E2;
    intros H1 H2; try congruence.
  - apply Ascii.compare_eq_iff in E1, E2. subst b d.
    rewrite (proj2 (N.compare_eq_iff _ _) eq_refl : Ascii.compare a a = Eq).
    eapply IH; eassumption.
  - apply Ascii.compare_eq_iff in E1. subst b. now rewrite E2.
  - apply Ascii.compare_eq_iff in E1. subst b. now rewrite E2.
  - apply Ascii.compare_eq_iff in E2. subst d. now rewrite E1.
  - now rewrite (ascii_compare_trans Lt a b d E1 E2).
  - apply Ascii.compare_eq_iff in E2. subst d. now rewrite E1.
  - now rewrite (ascii_compare_trans Gt a b d E1 E2).
Qed.

Lemma leb_trans (s1 s2 s3 : string) :
  String.leb s1 s2 = true -> String.leb s2 s3 = true -> String.leb s1 s3 = true.
Proof.
  unfold String.leb.
  destruct (String.compare s1 s2) eqn:E1; [| |discriminate];
    destruct (String.compare s2 s3) eqn:E2; try discriminate; intros _ _.
  - apply String.compare_eq_iff in E1. subst. now rewrite E2.
  - apply String.compare_eq_iff in E1. subst. now rewrite E2.
  - apply String.compare_eq_iff in E2. subst. now rewrite E1.
  - now rewrite (compare_trans Lt _ _ _ E1 E2).
Qed.

Lemma leb_refl (s : string) : String.leb s s = true.
Proof. unfold String.leb. now rewrite PyFacts.compare_refl. Qed.

Lemma lt_leb (s1 s2 : string) : Py.str_lt s1 s2 -> String.leb s1 s2 = true.
Proof. unfold Py.str_lt, String.leb. now intros ->. Qed.

Lemma insert_sorted_perm {A} (x : string * A) (l : list (string * A)) :
  insert_sorted x l ≡ₚ x :: l.
Proof.
  induction l as [|y l IH]; cbn [insert_sorted]; [reflexivity|].
  destruct (String.leb x.1 y.1); [reflexivity|].
  rewrite IH. apply Permutation_swap.
Qed.

Lemma insert_sorted_sorted {A} (x : string * A) (l : list (string * A)) :
  StronglySorted key_le l -> StronglySorted key_le (insert_sorted x l).
Proof.
  induction 1 as [|y l Hl IH Hy]; cbn [insert_sorted].
  - repeat constructor.
  - destruct (String.leb x.1 y.1) eqn:E.
    + constructor; [now constructor|]. constructor; [exact E|].
      eapply Forall_impl; [exact Hy|]. intros z Hz. unfold key_le in *.
      eapply leb_trans; eassumption.
    + constructor; [exact IH|].
      rewrite insert_sorted_perm. constructor; [|exact Hy].
      unfold key_le. destruct (String.leb_total x.1 y.1); congruence.
Qed.

Lemma order_by_key_perm {A} (m : gmap string A) : order_by_key m ≡ₚ map_to_list m.
Proof.
  unfold order_by_key. induction (map_to_list m) as [|x l IH]; cbn [foldr]; [reflexivity|].
  now rewrite insert_sorted_perm, IH.
Qed.

Lemma order_by_key_sorted {A} (m : gmap string A) : StronglySorted key_le (order_by_key m).
Proof.
  unfold order_by_key. induction (map_to_list m) as [|x l IH]; cbn [foldr].
  - constructor.
  - now apply insert_sorted_sorted.
Qed.

Lemma elem_of_order_by_key {A} (m : gmap string A) (k : string) (v : A) :
  (k, v) ∈ order_by_key m <-> m !! k = Some v.
Proof. rewrite order_by_key_perm. apply elem_of_map_to_list. Qed.

Lemma length_order_by_key {A} (m : gmap string A) : length (order_by_key m) = size m.
Proof. rewrite order_by_key_perm. now rewrite length_map_to_list. Qed.

(** The first pair in key order is the one of the smallest key. *)
Lemma order_by_key_first {A} (m : gmap string A) (k : string) (v : A) :
  m !! k = Some v ->
  (forall k', is_Some (m !! k') -> String.leb k k' = true) ->
  exists rest, order_by_key m = (k, v) :: rest.
Proof.
  intros Hk Hmin.
  pose proof (order_by_key_sorted m) as Hs.
  pose proof (proj2 (elem_of_order_by_key m k v) Hk) as Hin.
  destruct (order_by_key m) as [|[k0 v0] rest] eqn:E; [inversion Hin|].
  exists rest. f_equal.
  assert (H0 : m !! k0 = Some v0).
  { apply elem_of_order_by_key. rewrite E. apply list_elem_of_here. }
  assert (k0 = k).
  { apply String.leb_antisym.
    - apply StronglySorted_inv in Hs as [_ Hall].
      apply elem_of_cons in Hin as [[= <- <-]|Hin]; [apply leb_refl|].
      rewrite Forall_forall in Hall. apply (Hall _ Hin).
    - apply Hmin. now rewrite H0. }
  subst k0. congruence.
Qed.

End OrderFacts.

(* ================================================================= *)
(** * Ingestion *)

Module IngestFacts.
Import Value Store App AppSpec Samples KeyFacts OrderFacts.

(** ** Area names and area keys *)

Lemma replace_replace (a b : ascii) (s : string) :
  Py.replace a b (Py.replace b a (Py.replace a b s)) = Py.replace a b s.
Proof.
  induction s as [|c s IH]; [reflexivity|]. cbn [Py.replace]. rewrite IH. f_equal.
  destruct (Ascii.eqb_spec c a) as [->|Hca].
  - rewrite Ascii.eqb_refl. now rewrite Ascii.eqb_refl.
  - destruct (Ascii.eqb_spec c b) as [->|Hcb].
    + now rewrite Ascii.eqb_refl.
    + destruct (Ascii.eqb_spec c a); [congruence | reflexivity].
Qed.

Lemma replace_absent (a b : ascii) (s : string) :
  a <> b -> forall i, String.get i (Py.replace a b s) <> Some a.
Proof.
  intros Hab. induction s as [|c s IH]; intros i; [destruct i; discriminate|].
  cbn [Py.replace]. destruct i as [|i]; cbn [String.get]; [|apply IH].
  destruct (Ascii.eqb_spec c a); congruence.
Qed.

Lemma storage_name_listed (area : string) :
  storage_name (display_name (storage_name area)) = storage_name area.
Proof. apply replace_replace. Qed.

(** X1: the name [get_areas] lists for the key a reading was ingested
    under leads [get_history] back to that key, whatever the area name
    was; and no listed name contains an underscore, no key a space. *)
Theorem listed_name_finds_its_key (area : string) :
  storage_name (display_name (storage_name area)) = storage_name area /\
  (forall i, String.get i (storage_name area) <> Some " "%char) /\
  (forall i, String.get i (display_name (storage_name area)) <> Some "_"%char).
Proof.
  split; [apply storage_name_listed|].
  unfold storage_name, display_name. split; apply replace_absent; discriminate.
Qed.

(** ** Ingestion *)

Lemma has_all_fields_area (data : record) :
  has_all_fields data = true -> is_Some (data !! "area").
Proof.
  unfold has_all_fields, required_fields. cbn [forallb].
  intros H. apply andb_true_iff in H as [H _]. now apply bool_decide_eq_true in H.
Qed.

Lemma reversed_key_valid (now : Key.datetime) :
  Key.valid now -> Key.reversed_key now = Some (key_at now).
Proof. intros Hv. unfold Key.reversed_key. now rewrite (int_timestamp_key now Hv). Qed.

(** Area keys and storage keys as names of children: a name written
    without [/] stays without one, and a storage key is a sign and
    digits. *)
Lemma segment_storage_name (area : string) :
  segment area = true -> segment (storage_name area) = true.
Proof.
  unfold storage_name.
  induction area as [|c area IH]; cbn [segment Py.replace]; [reflexivity|].
  intros H. apply andb_prop in H as [Hc Hrest].
  rewrite (IH Hrest), andb_true_r.
  destruct (Ascii.eqb c " "); [reflexivity | exact Hc].
Qed.

Lemma digit_not_slash (n : Z) : Ascii.eqb (Py.digit_char (n mod 10)) "/" = false.
Proof.
  assert (H : 0 <= n mod 10 <= 9) by (pose proof (Z.mod_pos_bound n 10); lia).
  destruct (PyFacts.digit_cases _ H) as [E|[E|[E|[E|[E|[E|[E|[E|[E|E]]]]]]]]];
    rewrite E; reflexivity.
Qed.

Lemma segment_digits_acc (fuel : nat) : forall (n : Z) (acc : string),
  segment acc = true -> segment (Py.digits_acc fuel n acc) = true.
Proof.
  induction fuel as [|fuel IH]; intros n acc Hacc; cbn [Py.digits_acc]; [exact Hacc|].
  assert (H : segment (String (Py.digit_char (n mod 10)) acc) = true)
    by (cbn [segment]; now rewrite digit_not_slash, Hacc).
  destruct (n <? 10); [exact H | now apply IH].
Qed.

Lemma segment_key_at (now : Key.datetime) : segment (key_at now) = true.
Proof.
  unfold key_at, Py.str.
  destruct (_ <? 0); [cbn [segment]; rewrite segment_digits_acc; reflexivity|].
  now apply segment_digits_acc.
Qed.

(** The store after an accepted write. *)
Lemma ingest_writes (secret : option string) (fb : firebase) (data : record)
    (now : Key.datetime) (area : string) :
  Key.valid now ->
  has_all_fields data = true ->
  data !! "area" = Some (VStr area) ->
  fb_raises fb (SetAt (storage_name area) (key_at now)) = false ->
  ingest_data (Some (expected_token secret)) secret (Some fb) (Some data) now =
    ({| status := 201; payload := Ingested (Key.strftime_iso now) |},
     Some {| fb_data := <[storage_name area :=
                           <[key_at now := kept (stamped data now)]>
                             (children fb (storage_name area))]> (fb_data fb);
             fb_raises := fb_raises fb |}).
Proof.
  intros Hv Hall Harea Hset. unfold ingest_data.
  cbn [default from_option id]. rewrite String.eqb_refl. cbn [negb].
  rewrite Hall. unfold area_key_of, getitem.
  rewrite lookup_insert_ne by discriminate. rewrite Harea. cbn [bind].
  rewrite (reversed_key_valid now Hv). cbn [bind].
  unfold set_at. rewrite Hset. reflexivity.
Qed.

(** X2: an authenticated, complete payload whose area is a text without
    [/] is answered 201 when the write does not raise; the reading is then
    stored under the area's key and the reversed time key, with the
    server's time stamp in place of any [timestamp] the client sent and
    without its null fields; no other reading of the store changes. *)
Theorem ingest_stores_the_reading (secret : option string) (fb : firebase)
    (data : record) (now : Key.datetime) (area : string) :
  Key.valid now ->
  has_all_fields data = true ->
  data !! "area" = Some (VStr area) ->
  segment area = true ->
  fb_raises fb (SetAt (storage_name area) (key_at now)) = false ->
  exists fb',
    ingest_data (Some (expected_token secret)) secret (Some fb) (Some data) now =
      ({| status := 201; payload := Ingested (Key.strftime_iso now) |}, Some fb') /\
    segment (storage_name area) = true /\ segment (key_at now) = true /\
    children fb' (storage_name area) !! key_at now = Some (kept (stamped data now)) /\
    kept (stamped data now) !! "timestamp" = Some (VStr (Key.strftime_iso now)) /\
    (forall area_key key,
       segment area_key = true -> segment key = true ->
       (area_key, key) <> (storage_name area, key_at now) ->
       children fb' area_key !! key = children fb area_key !! key) /\
    fb_raises fb' = fb_raises fb.
Proof.
  intros Hv Hall Harea Hseg Hset. eexists.
  split; [apply (ingest_writes secret fb data now area); assumption|].
  split; [now apply segment_storage_name|].
  split; [now apply segment_key_at|].
  unfold children. cbn [fb_data fb_raises].
  split.
  { rewrite lookup_insert_eq. cbn [default from_option id]. apply lookup_insert_eq. }
  split.
  { unfold kept, stamped. apply map_lookup_filter_Some. split; [|reflexivity].
    apply lookup_insert_eq. }
  split; [|reflexivity].
  intros area_key key _ _ Hne.
  destruct (decide (area_key = storage_name area)) as [->|Ha].
  - rewrite lookup_insert_eq. cbn [default from_option id].
    rewrite lookup_insert_ne by congruence. reflexivity.
  - now rewrite lookup_insert_ne by congruence.
Qed.

Lemma ingest_stores_the_reading_witness :
  exists fb',
    ingest_data (Some (expected_token (Some "s3cret"))) (Some "s3cret")
      (Some empty_store) (Some full_reading) Key.new_year_2024 =
      ({| status := 201; payload := Ingested (Key.strftime_iso Key.new_year_2024) |},
       Some fb') /\
    segment (storage_name "Lab") = true /\ segment (key_at Key.new_year_2024) = true /\
    children fb' (storage_name "Lab") !! key_at Key.new_year_2024 =
      Some (kept (stamped full_reading Key.new_year_2024)) /\
    kept (stamped full_reading Key.new_year_2024) !! "timestamp" =
      Some (VStr (Key.strftime_iso Key.new_year_2024)) /\
    (forall area_key key,
       segment area_key = true -> segment key = true ->
       (area_key, key) <> (storage_name "Lab", key_at Key.new_year_2024) ->
       children fb' area_key !! key = children empty_store area_key !! key) /\
    fb_raises fb' = fb_raises empty_store.
Proof.
  apply (ingest_stores_the_reading (Some "s3cret") empty_store full_reading
           Key.new_year_2024 "Lab").
  - exact valid_new_year_2024.
  - vm_compute. reflexivity.
  - vm_compute. reflexivity.
  - reflexivity.
  - reflexivity.
Defined.

(** X3: whatever the request, [ingest_data] leaves the store as it was
    unless it answers 201. *)
Theorem ingest_writes_only_on_201 (authorization secret : option string)
    (DB_REF : option firebase) (json : option record) (now : Key.datetime) :
  status (ingest_data authorization secret DB_REF json now).1 = 201 \/
  (ingest_data authorization secret DB_REF json now).2 = DB_REF.
Proof.
  unfold ingest_data.
  destruct (negb _); [now right|].
  destruct DB_REF as [fb|]; [|now right].
  destruct json as [data|]; [|now right].
  destruct (has_all_fields data); [|now right].
  destruct (area_key_of _) as [area_key|e]; cbn [bind try_except]; [|now right].
  destruct (Key.reversed_key now) as [k|]; cbn [bind try_except]; [|now right].
  destruct (set_at fb area_key k _) as [fb'|e]; cbn [bind try_except]; [now left | now right].
Qed.

(** X4: two accepted readings of one area in the same second share their
    key: the second replaces the first, and the area holds no more
    readings than before the second. *)
Theorem ingest_same_second_overwrites (secret : option string) (fb : firebase)
    (d1 d2 : record) (now : Key.datetime) (a1 a2 : string) :
  Key.valid now ->
  has_all_fields d1 = true -> has_all_fields d2 = true ->
  d1 !! "area" = Some (VStr a1) -> d2 !! "area" = Some (VStr a2) ->
  storage_name a1 = storage_name a2 ->
  (forall c, fb_raises fb c = false) ->
  exists r1 fb1 r2 fb2,
    ingest_data (Some (expected_token secret)) secret (Some fb) (Some d1) now =
      (r1, Some fb1) /\ status r1 = 201 /\
    ingest_data (Some (expected_token secret)) secret (Some fb1) (Some d2) now =
      (r2, Some fb2) /\ status r2 = 201 /\
    children fb1 (storage_name a1) !! key_at now = Some (kept (stamped d1 now)) /\
    children fb2 (storage_name a1) !! key_at now = Some (kept (stamped d2 now)) /\
    size (children fb2 (storage_name a1)) = size (children fb1 (storage_name a1)).
Proof.
  intros Hv H1 H2 A1 A2 Ha Hok.
  do 4 eexists.
  split; [apply (ingest_writes secret fb d1 now a1 Hv H1 A1 (Hok _))|].
  split; [reflexivity|].
  split; [apply (ingest_writes secret _ d2 now a2 Hv H2 A2); apply Hok|].
  split; [reflexivity|].
  rewrite <- Ha. unfold children. cbn [fb_data].
  rewrite !lookup_insert_eq. cbn [default from_option id].
  rewrite !lookup_insert_eq. split; [reflexivity|]. split; [reflexivity|].
  rewrite insert_insert_eq, !map_size_insert. reflexivity.
Qed.

Lemma ingest_same_second_overwrites_witness :
  exists r1 fb1 r2 fb2,
    ingest_data (Some (expected_token (Some "s3cret"))) (Some "s3cret")
      (Some empty_store) (Some full_reading) Key.new_year_2024 = (r1, Some fb1) /\
    status r1 = 201 /\
    ingest_data (Some (expected_token (Some "s3cret"))) (Some "s3cret")
      (Some fb1) (Some MoreSamples.later_reading) Key.new_year_2024 = (r2, Some fb2) /\
    status r2 = 201 /\
    children fb1 (storage_name "Lab") !! key_at Key.new_year_2024 =
      Some (kept (stamped full_reading Key.new_year_2024)) /\
    children fb2 (storage_name "Lab") !! key_at Key.new_year_2024 =
      Some (kept (stamped MoreSamples.later_reading Key.new_year_2024)) /\
    size (children fb2 (storage_name "Lab")) = size (children fb1 (storage_name "Lab")).
Proof.
  apply (ingest_same_second_overwrites (Some "s3cret") empty_store full_reading
           MoreSamples.later_reading Key.new_year_2024 "Lab" "Lab").
  - exact valid_new_year_2024.
  - vm_compute. reflexivity.
  - vm_compute. reflexivity.
  - vm_compute. reflexivity.
  - vm_compute. reflexivity.
  - reflexivity.
  - intros c. reflexivity.
Defined.

End IngestFacts.

(* ================================================================= *)
(** * Reading the latest records *)

Module ReadFacts.
Import Value Store App AppSpec ReadSpec Samples OrderFacts.

(** ** [get_latest] *)

Lemma first_is_smallest (fb : firebase) (area_key key : string) (r : record)
    (rest : list (string * record)) :
  order_by_key (children fb area_key) = (key, r) :: rest ->
  smallest_key_record fb area_key r.
Proof.
  intros E. exists key. split.
  - apply elem_of_order_by_key. rewrite E. apply list_elem_of_here.
  - intros key' [r' Hr']. apply elem_of_order_by_key in Hr'.
    pose proof (order_by_key_sorted (children fb area_key)) as Hs.
    rewrite E in Hs, Hr'. apply StronglySorted_inv in Hs as [_ Hall].
    apply elem_of_cons in Hr' as [[= <- <-]|Hin]; [apply leb_refl|].
    rewrite Forall_forall in Hall. apply (Hall _ Hin).
Qed.

Lemma smallest_is_first (fb : firebase) (area_key : string) (r : record) :
  smallest_key_record fb area_key r ->
  exists key rest, order_by_key (children fb area_key) = (key, r) :: rest.
Proof.
  intros (key & Hk & Hmin). exists key.
  now apply order_by_key_first.
Qed.

Lemma smallest_unique (fb : firebase) (area_key : string) (r1 r2 : record) :
  smallest_key_record fb area_key r1 -> smallest_key_record fb area_key r2 -> r1 = r2.
Proof.
  intros H1 H2. apply smallest_is_first in H1 as (k1 & l1 & E1).
  apply smallest_is_first in H2 as (k2 & l2 & E2). congruence.
Qed.

(** One round of the loop, on an area whose calls succeed. *)
Lemma latest_step_ok (fb : firebase) (d : gmap string record) (area_key : string) :
  fb_raises fb (RangeGet area_key) = false ->
  (forall r, smallest_key_record fb area_key r -> succeeds (enrich r) = true) ->
  (children fb area_key = ∅ /\ latest_step fb d area_key = Ok d) \/
  (exists r r', smallest_key_record fb area_key r /\ enrich r = Ok r' /\
                latest_step fb d area_key = Ok (<[display_name area_key := r']> d)).
Proof.
  intros Hok Hen. unfold latest_step, range_get. rewrite Hok. cbn [bind].
  destruct (order_by_key (children fb area_key)) as [|[key r] rest] eqn:E.
  - left. split; [|reflexivity].
    apply map_size_empty_iff. now rewrite <- length_order_by_key, E.
  - right. cbn [take]. pose proof (first_is_smallest _ _ _ _ _ E) as Hs.
    specialize (Hen r Hs). destruct (enrich r) as [r'|e] eqn:Er; [|discriminate].
    exists r, r'. split; [exact Hs|]. split; [exact Er|]. reflexivity.
Qed.

Lemma latest_loop_ok (fb : firebase) (keys : list string) :
  (forall k, k ∈ keys -> fb_raises fb (RangeGet k) = false) ->
  (forall k r, k ∈ keys -> smallest_key_record fb k r -> succeeds (enrich r) = true) ->
  forall d, exists d',
    latest_loop fb keys d = Ok d' /\
    (forall k r, k ∈ keys -> sole_name keys k -> smallest_key_record fb k r ->
       exists r', enrich r = Ok r' /\ d' !! display_name k = Some r') /\
    (forall name r', d' !! name = Some r' ->
       d !! name = Some r' \/
       exists k r, k ∈ keys /\ name = display_name k /\
                   smallest_key_record fb k r /\ enrich r = Ok r') /\
    (forall name, (forall k, k ∈ keys -> display_name k <> name) ->
                  d' !! name = d !! name).
Proof.
  intros Hok Hen. induction keys as [|k0 rest IH]; intros d.
  - exists d. split; [reflexivity|]. split; [intros k r Hin; inversion Hin | auto].
  - cbn [latest_loop].
    assert (Hok' : forall k, k ∈ rest -> fb_raises fb (RangeGet k) = false)
      by (intros; apply Hok; now apply list_elem_of_further).
    assert (Hen' : forall k r, k ∈ rest -> smallest_key_record fb k r ->
                               succeeds (enrich r) = true)
      by (intros k r Hin; apply Hen; now apply list_elem_of_further).
    specialize (IH Hok' Hen').
    destruct (latest_step_ok fb d k0 (Hok k0 (list_elem_of_here _ _))
                (fun r => Hen k0 r (list_elem_of_here _ _)))
      as [[Hempty ->] | (r0 & r0' & Hs0 & He0 & ->)]; cbn [bind].
    + destruct (IH d) as (d' & -> & Hall & Hsound & Hkeep). exists d'.
      split; [reflexivity|]. split; [|split].
      * intros k r Hin Hsole Hs. apply elem_of_cons in Hin as [->|Hin].
        { destruct Hs as (key & Hk & _). rewrite Hempty in Hk. now rewrite lookup_empty in Hk. }
        apply (Hall k r Hin); [|exact Hs].
        intros k' Hk'. apply Hsole. now apply list_elem_of_further.
      * intros name r' Hl. destruct (Hsound name r' Hl) as [?|(k & r & Hin & ?)]; [now left|].
        right. exists k, r. split; [now apply list_elem_of_further | assumption].
      * intros name Hn. apply Hkeep. intros k Hk. apply Hn. now apply list_elem_of_further.
    + destruct (IH (<[display_name k0 := r0']> d)) as (d' & -> & Hall & Hsound & Hkeep).
      exists d'. split; [reflexivity|]. split; [|split].
      * intros k r Hin Hsole Hs.
        destruct (decide (k ∈ rest)) as [Hr|Hnr].
        { apply (Hall k r Hr); [|exact Hs].
          intros k' Hk'. apply Hsole. now apply list_elem_of_further. }
        apply elem_of_cons in Hin as [->|Hin]; [|contradiction].
        rewrite (smallest_unique _ _ _ _ Hs Hs0). exists r0'. split; [exact He0|].
        rewrite Hkeep; [apply lookup_insert_eq|].
        intros k Hk Hname. apply Hnr.
        rewrite <- (Hsole k (list_elem_of_further _ _ _ Hk) Hname). exact Hk.
      * intros name r' Hl. destruct (Hsound name r' Hl) as [Hd|(k & r & Hin & ?)].
        { destruct (decide (name = display_name k0)) as [->|Hn].
          - rewrite lookup_insert_eq in Hd. injection Hd as <-.
            right. exists k0, r0. repeat split; try assumption. apply list_elem_of_here.
          - rewrite lookup_insert_ne in Hd by congruence. now left. }
        right. exists k, r. split; [now apply list_elem_of_further | assumption].
      * intros name Hn. rewrite Hkeep.
        { apply lookup_insert_ne. apply Hn, list_elem_of_here. }
        intros k Hk. apply Hn. now apply list_elem_of_further.
Qed.

(** X5: when every call on the store succeeds and the reading under the
    smallest key of every area can be enriched, [get_latest] answers 200
    with a map that holds, under the displayed name of each area with
    data, the enrichment of the reading under the area's smallest key,
    and holds nothing else (an area whose displayed name is shared with
    another area apart). *)
Theorem get_latest_reads_smallest_keys (fb : firebase) (keys : list string) :
  shallow_get fb = Ok keys ->
  keys <> [] ->
  (forall k, k ∈ keys -> fb_raises fb (RangeGet k) = false) ->
  (forall k r, k ∈ keys -> smallest_key_record fb k r -> succeeds (enrich r) = true) ->
  exists latest_data,
    get_latest (Some fb) = {| status := 200; payload := Latest latest_data |} /\
    (forall k r, k ∈ keys -> sole_name keys k -> smallest_key_record fb k r ->
       exists r', enrich r = Ok r' /\ latest_data !! display_name k = Some r') /\
    (forall name r', latest_data !! name = Some r' ->
       exists k r, k ∈ keys /\ name = display_name k /\
                   smallest_key_record fb k r /\ enrich r = Ok r').
Proof.
  intros Hkeys Hne Hok Hen.
  destruct (latest_loop_ok fb keys Hok Hen ∅) as (d' & Hloop & Hall & Hsound & _).
  exists d'. split; [|split].
  - unfold get_latest. rewrite Hkeys. cbn [bind].
    destruct keys as [|k0 rest]; [congruence|]. rewrite Hloop. reflexivity.
  - exact Hall.
  - intros name r' Hl. destruct (Hsound name r' Hl) as [Hd|H]; [|exact H].
    now rewrite lookup_empty in Hd.
Qed.

Lemma two_areas_readings (k : string) (r : record) :
  k ∈ ["Dock"; "Lab"] -> smallest_key_record (two_areas healthy) k r -> r = full_reading.
Proof.
  intros Hin (key & Hk & _).
  apply elem_of_cons in Hin as [->|Hin];
    [|apply list_elem_of_singleton in Hin; subst k].
  - change (children (two_areas healthy) "Dock")
      with (<["79759898999998" := full_reading]> (∅ : gmap string record)) in Hk.
    apply lookup_insert_Some in Hk as [[_ <-]|[_ Hk]]; [reflexivity|].
    now rewrite lookup_empty in Hk.
  - change (children (two_areas healthy) "Lab")
      with (<["79759898999999" := full_reading]> (∅ : gmap string record)) in Hk.
    apply lookup_insert_Some in Hk as [[_ <-]|[_ Hk]]; [reflexivity|].
    now rewrite lookup_empty in Hk.
Defined.

Lemma get_latest_reads_smallest_keys_witness :
  exists latest_data,
    get_latest (Some (two_areas healthy)) =
      {| status := 200; payload := Latest latest_data |} /\
    (forall k r, k ∈ ["Dock"; "Lab"] -> sole_name ["Dock"; "Lab"] k ->
       smallest_key_record (two_areas healthy) k r ->
       exists r', enrich r = Ok r' /\ latest_data !! display_name k = Some r') /\
    (forall name r', latest_data !! name = Some r' ->
       exists k r, k ∈ ["Dock"; "Lab"] /\ name = display_name k /\
                   smallest_key_record (two_areas healthy) k r /\ enrich r = Ok r').
Proof.
  apply (get_latest_reads_smallest_keys (two_areas healthy) ["Dock"; "Lab"]).
  - vm_compute. reflexivity.
  - discriminate.
  - intros k _. reflexivity.
  - intros k r Hin Hs. rewrite (two_areas_readings k r Hin Hs). vm_compute. reflexivity.
Defined.

End ReadFacts.

(* ================================================================= *)
(** * Keys of the seeding script and of the device *)

Module KeyOrderFacts.
Import Py PyFacts Key KeyFacts Value Store App AppSpec ReadSpec OrderFacts IngestFacts ReadFacts.

Lemma fixed_app (j k : nat) : forall a b : Z,
  0 <= b < 10 ^ Z.of_nat k ->
  fixed j a +:+ fixed k b = fixed (j + k) (a * 10 ^ Z.of_nat k + b).
Proof.
  induction k as [|k IH]; intros a b Hb.
  - simpl in Hb. assert (b = 0) by lia. subst b. cbn [fixed].
    rewrite append_nil_r, Nat.add_0_r. f_equal. simpl. lia.
  - rewrite Nat.add_succ_r. cbn [fixed]. rewrite <- append_assoc.
    rewrite IH by now apply div10_bound.
    rewrite pow10_succ. f_equal; [f_equal|].
    + replace (a * (10 * 10 ^ Z.of_nat k) + b) with (b + (a * 10 ^ Z.of_nat k) * 10) by lia.
      rewrite Z.div_add by lia. lia.
    + do 2 f_equal.
      replace (a * (10 * 10 ^ Z.of_nat k) + b) with (b + (a * 10 ^ Z.of_nat k) * 10) by lia.
      now rewrite Z.mod_add by lia.
Qed.

(** On a valid date the 14-digit key spells [numeric]. *)
Lemma timestamp_key_numeric (t : datetime) : valid t ->
  timestamp_key t = fixed 14 (numeric t).
Proof.
  intros Hv. rewrite (timestamp_key_fixed t Hv).
  pose proof (valid_day_bound t Hv).
  destruct Hv as (? & ? & _ & ? & ? & ?).
  rewrite (fixed_app 2 2) by (change (10 ^ Z.of_nat 2) with 100; lia).
  rewrite (fixed_app 2 4) by (change (10 ^ Z.of_nat 4) with 10000; lia).
  rewrite (fixed_app 2 6) by (change (10 ^ Z.of_nat 6) with 1000000; cbn; lia).
  rewrite (fixed_app 2 8) by (change (10 ^ Z.of_nat 8) with 100000000; cbn; lia).
  rewrite (fixed_app 4 10) by (change (10 ^ Z.of_nat 10) with 10000000000; cbn; lia).
  cbn [Nat.add]. f_equal. unfold numeric. cbn. lia.
Qed.

Lemma numeric_range (t : datetime) : valid t -> 0 <= numeric t < 10 ^ Z.of_nat 14.
Proof.
  intros Hv. pose proof (numeric_bounds t Hv). destruct Hv as (? & _).
  change (10 ^ Z.of_nat 14) with 100000000000000. lia.
Qed.

Lemma timestamp_key_lt (t1 t2 : datetime) :
  valid t1 -> valid t2 -> before t1 t2 -> str_lt (timestamp_key t1) (timestamp_key t2).
Proof.
  intros H1 H2 Hb. unfold str_lt.
  rewrite (timestamp_key_numeric t1 H1), (timestamp_key_numeric t2 H2).
  rewrite fixed_compare by now apply numeric_range.
  apply Z.compare_lt_iff. now apply numeric_mono.
Qed.

Lemma key_at_fixed (t : datetime) : valid t -> year t <= 8999 ->
  key_at t = fixed 14 (LARGE_CONSTANT - numeric t).
Proof.
  intros Hv Hy. pose proof (reversed_key_fixed t Hv Hy) as E.
  rewrite (reversed_key_valid t Hv) in E. congruence.
Qed.




(** ** The store after [push_to_firebase] *)

Import Simulator.

Lemma push_rows_lookup (df : list row) : forall (fb fb' : firebase) (a k : string) (v : record),
  push_rows fb df = Ok fb' ->
  children fb' a !! k = Some v ->
  children fb a !! k = Some v \/
  exists r, r ∈ df /\ a = storage_name (row_area r) /\
            k = timestamp_key (row_time r) /\ v = kept (to_dict r).
Proof.
  induction df as [|r rest IH]; intros fb fb' a k v; cbn [push_rows].
  - intros [= <-]. now left.
  - unfold push_row at 1, set_at.
    destruct (fb_raises fb _); cbn [bind]; [discriminate|].
    intros Hp Hl. destruct (IH _ _ _ _ _ Hp Hl) as [Hl'|(r' & Hin & ?)].
    + unfold children in Hl'. cbn [fb_data] in Hl'.
      destruct (decide (a = storage_name (row_area r))) as [->|Ha].
      * rewrite lookup_insert_eq in Hl'. cbn [default from_option id] in Hl'.
        destruct (decide (k = timestamp_key (row_time r))) as [->|Hk].
        { rewrite lookup_insert_eq in Hl'. injection Hl' as <-.
          right. exists r. split; [apply list_elem_of_here | auto]. }
        rewrite lookup_insert_ne in Hl' by congruence. now left.
      * rewrite lookup_insert_ne in Hl' by congruence. now left.
    + right. exists r'. split; [now apply list_elem_of_further | assumption].
Qed.

Lemma push_rows_keeps (df : list row) : forall (fb fb' : firebase) (a k : string) (v : record),
  push_rows fb df = Ok fb' ->
  children fb a !! k = Some v ->
  (forall r, r ∈ df -> a = storage_name (row_area r) ->
             k = timestamp_key (row_time r) -> kept (to_dict r) = v) ->
  children fb' a !! k = Some v.
Proof.
  induction df as [|r rest IH]; intros fb fb' a k v; cbn [push_rows].
  - now intros [= <-].
  - unfold push_row at 1, set_at.
    destruct (fb_raises fb _); cbn [bind]; [discriminate|].
    intros Hp Hl Hsame. apply (IH _ _ _ _ _ Hp).
    + unfold children. cbn [fb_data].
      destruct (decide (a = storage_name (row_area r))) as [->|Ha].
      * rewrite lookup_insert_eq. cbn [default from_option id].
        destruct (decide (k = timestamp_key (row_time r))) as [->|Hk].
        { rewrite lookup_insert_eq. f_equal.
          apply Hsame; [apply list_elem_of_here | reflexivity | reflexivity]. }
        now rewrite lookup_insert_ne by congruence.
      * now rewrite lookup_insert_ne by congruence.
    + intros r' Hin. apply Hsame. now apply list_elem_of_further.
Qed.

Lemma push_rows_holds (df : list row) : forall (fb fb' : firebase) (r : row),
  push_rows fb df = Ok fb' ->
  r ∈ df ->
  (forall r', r' ∈ df -> storage_name (row_area r') = storage_name (row_area r) ->
              timestamp_key (row_time r') = timestamp_key (row_time r) ->
              kept (to_dict r') = kept (to_dict r)) ->
  children fb' (storage_name (row_area r)) !! timestamp_key (row_time r) =
    Some (kept (to_dict r)).
Proof.
  induction df as [|r0 rest IH]; intros fb fb' r Hp Hin Hsame; [inversion Hin|].
  cbn [push_rows] in Hp. unfold push_row at 1, set_at in Hp.
  destruct (fb_raises fb _); cbn [bind] in Hp; [discriminate|].
  apply elem_of_cons in Hin as [->|Hr].
  2: { apply (IH _ _ _ Hp Hr). intros r' Hin'. apply Hsame. now apply list_elem_of_further. }
  - apply (push_rows_keeps _ _ _ _ _ _ Hp).
    + unfold children. cbn [fb_data]. rewrite lookup_insert_eq.
      cbn [default from_option id]. apply lookup_insert_eq.
    + intros r' Hin' Ha Hk. apply Hsame; [now apply list_elem_of_further | auto | auto].
Qed.

Lemma push_rows_raises (df : list row) : forall fb fb' : firebase,
  push_rows fb df = Ok fb' -> fb_raises fb' = fb_raises fb.
Proof.
  induction df as [|r rest IH]; intros fb fb'; cbn [push_rows].
  - now intros [= <-].
  - unfold push_row at 1, set_at.
    destruct (fb_raises fb _); cbn [bind]; [discriminate|].
    intros Hp. now rewrite (IH _ _ Hp).
Qed.

(** X7: in a store seeded by [push_to_firebase] the keys ascend with
    time: the reading an area holds under its smallest key, the one the
    query of [get_latest] returns, is the EARLIEST row of the area. *)
Theorem seeded_store_first_is_earliest (fb fb' : firebase) (df : list row) (r : row) :
  push_to_firebase false fb df = Ok fb' ->
  Forall (fun r' => valid (row_time r')) df ->
  r ∈ df ->
  (forall r', r' ∈ df -> storage_name (row_area r') = storage_name (row_area r) ->
              r' = r \/ before (row_time r) (row_time r')) ->
  smallest_key_record fb' (storage_name (row_area r)) (kept (to_dict r)) /\
  (fb_raises fb (RangeGet (storage_name (row_area r))) = false ->
   range_get fb' (storage_name (row_area r)) 1 =
     Ok [(timestamp_key (row_time r), kept (to_dict r))]).
Proof.
  unfold push_to_firebase. intros Hp Hv Hin Hfirst.
  rewrite Forall_forall in Hv.
  assert (Hinj : forall r', r' ∈ df ->
            storage_name (row_area r') = storage_name (row_area r) ->
            timestamp_key (row_time r') = timestamp_key (row_time r) -> r' = r).
  { intros r' Hin' Ha Hk. destruct (Hfirst r' Hin' Ha) as [?|Hb]; [assumption|].
    pose proof (timestamp_key_lt _ _ (Hv r Hin) (Hv r' Hin') Hb) as Hlt.
    unfold str_lt in Hlt. rewrite Hk, compare_refl in Hlt. discriminate. }
  assert (Hk : children fb' (storage_name (row_area r)) !! timestamp_key (row_time r) =
               Some (kept (to_dict r))).
  { apply (push_rows_holds _ _ _ _ Hp Hin).
    intros r' Hin' Ha Hk. now rewrite (Hinj r' Hin' Ha Hk). }
  assert (Hmin : forall key', is_Some (children fb' (storage_name (row_area r)) !! key') ->
                   String.leb (timestamp_key (row_time r)) key' = true).
  { intros key' [v Hl].
    destruct (push_rows_lookup _ _ _ _ _ _ Hp Hl) as [Hl0|(r' & Hin' & Ha & -> & _)].
    - unfold children in Hl0. cbn [fb_data] in Hl0.
      rewrite lookup_empty in Hl0. cbn in Hl0. now rewrite lookup_empty in Hl0.
    - destruct (Hfirst r' Hin' (eq_sym Ha)) as [->|Hb]; [apply leb_refl|].
      apply lt_leb. apply timestamp_key_lt; auto. }
  split; [exists (timestamp_key (row_time r)); auto|].
  intros Hok. unfold range_get.
  rewrite (push_rows_raises _ _ _ Hp). cbn [fb_raises]. rewrite Hok.
  destruct (order_by_key_first _ _ _ Hk Hmin) as [rest ->]. reflexivity.
Qed.

Lemma seeded_store_first_is_earliest_witness :
  smallest_key_record MoreSamples.seeded_two
    (storage_name (row_area MoreSamples.first_row))
    (kept (to_dict MoreSamples.first_row)) /\
  (fb_raises Samples.empty_store
     (RangeGet (storage_name (row_area MoreSamples.first_row))) = false ->
   range_get MoreSamples.seeded_two (storage_name (row_area MoreSamples.first_row)) 1 =
     Ok [(timestamp_key (row_time MoreSamples.first_row),
          kept (to_dict MoreSamples.first_row))]).
Proof.
  apply (seeded_store_first_is_earliest Samples.empty_store MoreSamples.seeded_two
           [MoreSamples.second_row; MoreSamples.first_row] MoreSamples.first_row).
  - vm_compute. reflexivity.
  - constructor; [exact valid_leap_day_2024|].
    constructor; [exact valid_new_year_2024 | constructor].
  - apply list_elem_of_further, list_elem_of_here.
  - intros r' Hin _. apply elem_of_cons in Hin as [->|Hin].
    + right. right. split; [reflexivity|]. left. now vm_compute.
    + apply list_elem_of_singleton in Hin. now left.
Defined.

(** X8: up to the year 4999 every key of the seeding script sorts before
    every key of [ingest_data]; so in an area that holds a seeded reading,
    a reading ingested afterwards is never the one the query of
    [get_latest] returns: that query keeps returning a reading the area
    held before. *)
Theorem seeded_reading_hides_ingested (secret : option string) (fb : firebase)
    (data : record) (now t0 : datetime) (area : string) (r0 : record) :
  valid now -> year now <= 4999 ->
  valid t0 -> year t0 <= 4999 ->
  has_all_fields data = true ->
  data !! "area" = Some (VStr area) ->
  (forall c, fb_raises fb c = false) ->
  children fb (storage_name area) !! timestamp_key t0 = Some r0 ->
  str_lt (timestamp_key t0) (key_at now) /\
  exists fb' key r,
    ingest_data (Some (expected_token secret)) secret (Some fb) (Some data) now =
      ({| status := 201; payload := Ingested (strftime_iso now) |}, Some fb') /\
    range_get fb' (storage_name area) 1 = Ok [(key, r)] /\
    key <> key_at now /\
    children fb (storage_name area) !! key = Some r.
Proof.
  intros Hv Hy Hv0 Hy0 Hall Harea Hok H0.
  assert (Hlt : str_lt (timestamp_key t0) (key_at now)).
  { unfold str_lt. rewrite (timestamp_key_numeric t0 Hv0), (key_at_fixed now Hv) by lia.
    pose proof (numeric_bounds t0 Hv0). pose proof (numeric_bounds now Hv).
    destruct Hv as (? & _). destruct Hv0 as (? & _).
    rewrite fixed_compare
      by (unfold LARGE_CONSTANT; change (10 ^ Z.of_nat 14) with 100000000000000; lia).
    apply Z.compare_lt_iff. unfold LARGE_CONSTANT. lia. }
  split; [exact Hlt|].
  set (fb' := {| fb_data := <[storage_name area :=
                                <[key_at now := kept (stamped data now)]>
                                  (children fb (storage_name area))]> (fb_data fb);
                 fb_raises := fb_raises fb |}).
  exists fb'.
  assert (Hne : timestamp_key t0 <> key_at now).
  { intros E. unfold str_lt in Hlt. rewrite E, compare_refl in Hlt. discriminate. }
  assert (Hl0 : children fb' (storage_name area) !! timestamp_key t0 = Some r0).
  { unfold children, fb'. cbn [fb_data]. rewrite lookup_insert_eq.
    cbn [default from_option id]. now rewrite lookup_insert_ne by congruence. }
  destruct (order_by_key (children fb' (storage_name area))) as [|[key r] rest] eqn:E.
  { apply elem_of_order_by_key in Hl0. rewrite E in Hl0. inversion Hl0. }
  exists key, r.
  split; [apply (ingest_writes secret fb data now area); auto|].
  split; [unfold range_get;
          replace (fb_raises fb' _) with false by (symmetry; apply Hok);
          now rewrite E|].
  destruct (first_is_smallest _ _ _ _ _ E) as (key' & Hk' & Hmin').
  assert (Hkr : children fb' (storage_name area) !! key = Some r).
  { apply elem_of_order_by_key. rewrite E. apply list_elem_of_here. }
  assert (Hle : String.leb key (timestamp_key t0) = true).
  { pose proof (order_by_key_sorted (children fb' (storage_name area))) as Hs.
    rewrite E in Hs. apply StronglySorted_inv in Hs as [_ Hall'].
    apply elem_of_order_by_key in Hl0. rewrite E in Hl0.
    apply elem_of_cons in Hl0 as [[= <- <-]|Hin]; [apply leb_refl|].
    rewrite Forall_forall in Hall'. apply (Hall' _ Hin). }
  assert (Hkne : key <> key_at now).
  { intros ->. unfold String.leb in Hle. unfold str_lt in Hlt.
    rewrite String.compare_antisym, Hlt in Hle. discriminate. }
  split; [exact Hkne|].
  unfold children, fb' in Hkr. cbn [fb_data] in Hkr.
  rewrite lookup_insert_eq in Hkr. cbn [default from_option id] in Hkr.
  now rewrite lookup_insert_ne in Hkr by congruence.
Qed.

Lemma seeded_reading_hides_ingested_witness :
  str_lt (timestamp_key new_year_2024) (key_at leap_day_2024) /\
  exists fb' key r,
    ingest_data (Some (expected_token (Some "s3cret"))) (Some "s3cret")
      (Some MoreSamples.seeded) (Some MoreSamples.later_reading) leap_day_2024 =
      ({| status := 201; payload := Ingested (strftime_iso leap_day_2024) |}, Some fb') /\
    range_get fb' (storage_name "Lab") 1 = Ok [(key, r)] /\
    key <> key_at leap_day_2024 /\
    children MoreSamples.seeded (storage_name "Lab") !! key = Some r.
Proof.
  apply (seeded_reading_hides_ingested (Some "s3cret") MoreSamples.seeded
           MoreSamples.later_reading leap_day_2024 new_year_2024 "Lab"
           Samples.full_reading).
  - exact valid_leap_day_2024.
  - vm_compute. discriminate.
  - exact valid_new_year_2024.
  - vm_compute. discriminate.
  - vm_compute. reflexivity.
  - vm_compute. reflexivity.
  - intros c. reflexivity.
  - vm_compute. reflexivity.
Defined.

(** ** The device *)

Import IotClient.

(** X9: the device and the data layer agree. Whatever the six random
    draws, and whatever the secret of the shared environment (unset
    included: both sides then write [Bearer None]), the reading
    [send_data] posts has every required field and is answered 201 by a
    store that answers; it is stored under the key [Whitefield]. *)
Theorem device_reading_is_accepted (secret : option string) (u : draws)
    (fb : firebase) (now : datetime) :
  valid now ->
  fb_raises fb (SetAt "Whitefield" (key_at now)) = false ->
  has_all_fields (generate_sensor_reading u) = true /\
  exists fb',
    send_data secret u secret (Some fb) now =
      ({| status := 201; payload := Ingested (strftime_iso now) |}, Some fb') /\
    children fb' "Whitefield" !! key_at now =
      Some (stamped (generate_sensor_reading u) now).
Proof.
  intros Hv Hset.
  assert (Hall : has_all_fields (generate_sensor_reading u) = true) by reflexivity.
  split; [exact Hall|].
  eexists. split.
  - unfold send_data.
    apply (ingest_writes secret fb (generate_sensor_reading u) now "Whitefield" Hv Hall);
      [reflexivity | exact Hset].
  - change (storage_name "Whitefield") with "Whitefield".
    unfold children. cbn [fb_data]. rewrite lookup_insert_eq.
    cbn [default from_option id]. rewrite lookup_insert_eq. reflexivity.
Qed.

Lemma device_reading_is_accepted_witness :
  has_all_fields (generate_sensor_reading MoreSamples.still) = true /\
  exists fb',
    send_data None MoreSamples.still None (Some Samples.empty_store) new_year_2024 =
      ({| status := 201; payload := Ingested (strftime_iso new_year_2024) |}, Some fb') /\
    children fb' "Whitefield" !! key_at new_year_2024 =
      Some (stamped (generate_sensor_reading MoreSamples.still) new_year_2024).
Proof.
  apply (device_reading_is_accepted None MoreSamples.still Samples.empty_store
           new_year_2024).
  - exact valid_new_year_2024.
  - reflexivity.
Defined.

End KeyOrderFacts.

(* ================================================================= *)
(** * Histories *)

Module HistoryFacts.
Import Value Store App AppSpec ReadSpec Samples OrderFacts.

Lemma with_keys_spec (history : list record) : forall keyed,
  with_keys history = Ok keyed ->
  keyed.*2 = history /\ Forall (fun kr => kr.2 !! "timestamp" = Some kr.1) keyed.
Proof.
  induction history as [|r rest IH]; intros keyed; cbn [with_keys].
  - intros [= <-]. split; [reflexivity | constructor].
  - unfold getitem. destruct (r !! "timestamp") as [k|] eqn:E; cbn [bind]; [|discriminate].
    destruct (with_keys rest) as [keyed'|e]; cbn [bind]; [|discriminate].
    intros [= <-]. destruct (IH _ eq_refl) as [H1 H2].
    split; [cbn; now rewrite H1 | constructor; assumption].
Qed.

Lemma with_keys_raises (history : list record) (r : record) :
  r ∈ history -> r !! "timestamp" = None -> with_keys history = Raise KeyError.
Proof.
  induction history as [|r0 rest IH]; intros Hin Hr; [inversion Hin|].
  cbn [with_keys]. unfold getitem.
  destruct (r0 !! "timestamp") as [k|] eqn:E; cbn [bind]; [|reflexivity].
  apply elem_of_cons in Hin as [->|Hin]; [congruence|].
  now rewrite (IH Hin Hr).
Qed.

Lemma insert_value_perm (x : value * record) (l : list (value * record)) : forall l',
  insert_value x l = Ok l' -> l' ≡ₚ x :: l.
Proof.
  induction l as [|y l IH]; intros l'; cbn [insert_value].
  - now intros [= <-].
  - destruct (lt_value x.1 y.1) as [[]|e]; cbn [bind]; [| |discriminate].
    + now intros [= <-].
    + destruct (insert_value x l) as [r|e]; cbn [bind]; [|discriminate].
      intros [= <-]. rewrite (IH _ eq_refl). apply Permutation_swap.
Qed.

Lemma sort_acc_perm (todo : list (value * record)) : forall sorted out,
  sort_acc sorted todo = Ok out -> out ≡ₚ sorted ++ todo.
Proof.
  induction todo as [|x rest IH]; intros sorted out; cbn [sort_acc].
  - intros [= <-]. now rewrite app_nil_r.
  - destruct (insert_value x sorted) as [sorted'|e] eqn:E; cbn [bind]; [|discriminate].
    intros H. rewrite (IH _ _ H), (insert_value_perm _ _ _ E).
    apply Permutation_middle.
Qed.

Lemma sort_by_timestamp_perm (history out : list record) :
  sort_by_timestamp history = Ok out -> out ≡ₚ history.
Proof.
  unfold sort_by_timestamp.
  destruct (with_keys history) as [keyed|e] eqn:E; cbn [bind]; [|discriminate].
  destruct (sort_acc [] keyed) as [sorted|e] eqn:E'; cbn [bind]; [|discriminate].
  intros [= <-]. apply sort_acc_perm in E'. cbn in E'.
  rewrite E'. now destruct (with_keys_spec _ _ E) as [-> _].
Qed.

Lemma process_spec (history : list record) : forall out,
  process history = Ok out -> Forall2 (fun r r' => enrich r = Ok r') history out.
Proof.
  induction history as [|r rest IH]; intros out; cbn [process].
  - intros [= <-]. constructor.
  - destruct (enrich r) as [r'|e] eqn:E; cbn [bind]; [|discriminate].
    destruct (process rest) as [p|e]; cbn [bind]; [|discriminate].
    intros [= <-]. constructor; [exact E | now apply IH].
Qed.

Lemma process_raises (history : list record) (r : record) :
  r ∈ history -> succeeds (enrich r) = false -> succeeds (process history) = false.
Proof.
  induction history as [|r0 rest IH]; intros Hin Hr; [inversion Hin|].
  cbn [process]. destruct (enrich r0) as [r0'|e] eqn:E; cbn [bind]; [|reflexivity].
  apply elem_of_cons in Hin as [->|Hin]; [rewrite E in Hr; discriminate|].
  specialize (IH Hin Hr). destruct (process rest); [discriminate | reflexivity].
Qed.

Lemma enrich_keeps_timestamp (r r' : record) :
  enrich r = Ok r' -> r' !! "timestamp" = r !! "timestamp".
Proof.
  unfold enrich.
  destruct (calculate_total_hardness _ _) as [h|e]; cbn [bind]; [|discriminate].
  destruct (getitem r "TDS") as [tds|e]; cbn [bind]; [|discriminate].
  destruct (classify_water_quality tds h) as [c|e]; cbn [bind]; [|discriminate].
  intros [= <-]. now rewrite !lookup_insert_ne by discriminate.
Qed.

Lemma enrich_adds_fields (r r' : record) :
  enrich r = Ok r' ->
  is_Some (r' !! "total_hardness") /\ is_Some (r' !! "classification") /\
  (forall k, k <> "total_hardness" -> k <> "classification" -> r' !! k = r !! k).
Proof.
  unfold enrich.
  destruct (calculate_total_hardness _ _) as [h|e]; cbn [bind]; [|discriminate].
  destruct (getitem r "TDS") as [tds|e]; cbn [bind]; [|discriminate].
  destruct (classify_water_quality tds h) as [c|e]; cbn [bind]; [|discriminate].
  intros [= <-]. split; [|split].
  - rewrite lookup_insert_ne by discriminate. rewrite lookup_insert_eq. eauto.
  - rewrite lookup_insert_eq. eauto.
  - intros k H1 H2. now rewrite !lookup_insert_ne by congruence.
Qed.

Lemma enrich_needs_tds (r : record) : r !! "TDS" = None -> succeeds (enrich r) = false.
Proof.
  intros H. unfold enrich, getitem. rewrite H.
  destruct (calculate_total_hardness _ _); reflexivity.
Qed.

(** ** The order of the answer *)

Lemma ltb_false_leb (s1 s2 : string) : String.ltb s1 s2 = false -> String.leb s2 s1 = true.
Proof.
  unfold String.ltb, String.leb. rewrite (String.compare_antisym s1 s2).
  destruct (String.compare s2 s1); cbn; congruence.
Qed.

Lemma ltb_true_leb (s1 s2 : string) : String.ltb s1 s2 = true -> String.leb s1 s2 = true.
Proof. unfold String.ltb, String.leb. destruct (String.compare s1 s2); congruence. Qed.

Lemma insert_value_sorted (x : value * record) (l : list (value * record)) :
  str_key x -> Forall str_key l -> StronglySorted keyed_le l ->
  exists l', insert_value x l = Ok l' /\ StronglySorted keyed_le l'.
Proof.
  intros [sx Hx] Hstr Hs. induction Hs as [|y l Hl IH Hy]; cbn [insert_value].
  - eexists. split; [reflexivity|]. repeat constructor.
  - apply Forall_cons in Hstr as [[sy Hsy] Hstr]. rewrite Hx, Hsy. cbn [lt_value bind].
    destruct (String.ltb sx sy) eqn:E.
    + eexists. split; [reflexivity|].
      assert (Hxy : keyed_le x y) by (exists sx, sy; auto using ltb_true_leb).
      constructor; [now constructor|]. constructor; [exact Hxy|].
      eapply Forall_impl; [exact Hy|]. intros z (s1 & s2 & H1 & H2 & H3).
      exists sx, s2. repeat split; [assumption..|].
      rewrite Hsy in H1. injection H1 as <-.
      eapply leb_trans; [apply ltb_true_leb; exact E | exact H3].
    + destruct (IH Hstr) as (l' & El & Hl').
      rewrite El. cbn [bind]. eexists. split; [reflexivity|].
      constructor; [exact Hl'|].
      rewrite (insert_value_perm _ _ _ El). constructor; [|exact Hy].
      exists sy, sx. auto using ltb_false_leb.
Qed.

Lemma sort_acc_sorted (todo : list (value * record)) : forall sorted,
  Forall str_key sorted -> Forall str_key todo -> StronglySorted keyed_le sorted ->
  exists out, sort_acc sorted todo = Ok out /\ StronglySorted keyed_le out.
Proof.
  induction todo as [|x rest IH]; intros sorted Hs Ht Hsorted; cbn [sort_acc].
  - eauto.
  - apply Forall_cons in Ht as [Hx Ht].
    destruct (insert_value_sorted x sorted Hx Hs Hsorted) as (s' & E & Hs').
    rewrite E. cbn [bind]. apply IH; [|assumption..].
    rewrite (insert_value_perm _ _ _ E). now constructor.
Qed.

Lemma StronglySorted_Forall2 {A B} (R : A -> A -> Prop) (R' : B -> B -> Prop)
    (Q : A -> B -> Prop) (l : list A) (l' : list B) :
  (forall x y x' y', R x y -> Q x x' -> Q y y' -> R' x' y') ->
  Forall2 Q l l' -> StronglySorted R l -> StronglySorted R' l'.
Proof.
  intros Hrel H2. induction H2 as [|x x' l l' Hq H2 IH]; intros Hs; [constructor|].
  apply StronglySorted_inv in Hs as [Hs Hall]. constructor; [now apply IH|].
  clear IH Hs. induction H2 as [|y y' l l' Hq' H2 IH]; [constructor|].
  apply Forall_cons in Hall as [Hxy Hall]. constructor; [|now apply IH].
  eapply Hrel; eassumption.
Qed.

Lemma StronglySorted_Forall {A} (R : A -> A -> Prop) (P : A -> Prop) (l : list A) :
  StronglySorted R l -> Forall P l ->
  StronglySorted (fun x y => R x y /\ P x /\ P y) l.
Proof.
  induction 1 as [|x l Hs IH Hall]; intros HP; [constructor|].
  apply Forall_cons in HP as [Hx HP]. constructor; [now apply IH|].
  rewrite Forall_forall in *. intros y Hy. auto.
Qed.

(** What a request that is answered 200 went through. *)
Lemma get_history_200 (area : option string) (DB_REF : option firebase)
    (a : string) (n : nat) (d : list record) :
  get_history area DB_REF = {| status := 200; payload := History a n d |} ->
  exists fb data history,
    area = Some a /\ DB_REF = Some fb /\
    range_get fb (storage_name a) 100 = Ok data /\
    sort_by_timestamp (data.*2) = Ok history /\
    process history = Ok d /\ n = length d.
Proof.
  unfold get_history. destruct (falsy_str area) eqn:Ef; [discriminate|].
  destruct area as [area|]; [|discriminate]. cbn [default from_option id].
  destruct DB_REF as [fb|]; [|discriminate].
  destruct (range_get fb _ 100) as [data|e] eqn:Er; cbn [bind try_except]; [|discriminate].
  destruct data as [|kv data]; [discriminate|].
  destruct (sort_by_timestamp _) as [history|e] eqn:Es; cbn [bind try_except]; [|discriminate].
  destruct (process history) as [processed|e] eqn:Ep; cbn [bind try_except]; [|discriminate].
  intros [= <- <- <-]. exists fb, (kv :: data), history. auto 10.
Qed.

(** X10: a history answered 200 holds the enrichments of the readings
    under the area's (at most) 100 smallest keys, each exactly once, and
    [record_count] counts them: it is the number of readings the area
    holds, capped at 100. *)
Theorem get_history_returns_first_hundred (area : string) (fb : firebase)
    (a : string) (n : nat) (d : list record) :
  get_history (Some area) (Some fb) = {| status := 200; payload := History a n d |} ->
  a = area /\ n = length d /\
  n = Nat.min 100 (size (children fb (storage_name area))) /\
  exists rs, rs ≡ₚ first_hundred fb area /\
             Forall2 (fun r r' => enrich r = Ok r') rs d.
Proof.
  intros H. apply get_history_200 in H as (fb0 & data & history & [= <-] & [= <-] & Hr & Hs & Hp & ->).
  split; [reflexivity|]. split; [reflexivity|].
  unfold range_get in Hr. destruct (fb_raises fb _); [discriminate|]. injection Hr as <-.
  pose proof (process_spec _ _ Hp) as H2.
  pose proof (sort_by_timestamp_perm _ _ Hs) as Hperm.
  split.
  - rewrite <- (Forall2_length _ _ _ H2), Hperm, length_fmap, length_take,
      length_order_by_key. reflexivity.
  - exists history. split; [exact Hperm | exact H2].
Qed.

Lemma get_history_returns_first_hundred_witness :
  "Lab" = "Lab" /\ 2%nat = length MoreSamples.lab_history /\
  2%nat = Nat.min 100 (size (children MoreSamples.lab_two (storage_name "Lab"))) /\
  exists rs, rs ≡ₚ first_hundred MoreSamples.lab_two "Lab" /\
             Forall2 (fun r r' => enrich r = Ok r') rs MoreSamples.lab_history.
Proof.
  apply (get_history_returns_first_hundred "Lab" MoreSamples.lab_two "Lab" 2
           MoreSamples.lab_history).
  vm_compute. reflexivity.
Defined.

(** X11: the records of a history answered 200 come in the order of their
    [timestamp] strings, the earliest first, whenever those are strings
    (as [ingest_data] writes them). *)
Theorem get_history_is_chronological (area : option string) (DB_REF : option firebase)
    (a : string) (n : nat) (d : list record) :
  get_history area DB_REF = {| status := 200; payload := History a n d |} ->
  Forall (fun r => exists s, r !! "timestamp" = Some (VStr s)) d ->
  StronglySorted timestamp_le d.
Proof.
  intros H Hstr.
  apply get_history_200 in H as (fb & data & history & _ & _ & _ & Hs & Hp & _).
  pose proof (process_spec _ _ Hp) as H2.
  unfold sort_by_timestamp in Hs.
  destruct (with_keys (data.*2)) as [keyed|e] eqn:Ek; cbn [bind] in Hs; [|discriminate].
  destruct (sort_acc [] keyed) as [sorted|e] eqn:Ea; cbn [bind] in Hs; [|discriminate].
  injection Hs as <-.
  destruct (with_keys_spec _ _ Ek) as [_ Hkeys].
  pose proof (sort_acc_perm _ _ _ Ea) as Hperm. cbn in Hperm.
  rewrite <- Hperm in Hkeys.
  (* every key is a string *)
  assert (Hsk : Forall str_key sorted).
  { clear Ea Hperm Hp. revert d H2 Hstr.
    induction sorted as [|kr sorted IH]; intros d H2 Hstr; [constructor|].
    cbn in H2. inversion H2 as [|? r' ? d' He H2' ]; subst.
    apply Forall_cons in Hstr as [[s Hs] Hstr]. apply Forall_cons in Hkeys as [Hk Hkeys].
    constructor; [|now apply (IH Hkeys d')].
    exists s. rewrite (enrich_keeps_timestamp _ _ He), Hk in Hs. congruence. }
  destruct (sort_acc_sorted keyed [] (Forall_nil_2 _)) as (out & Eo & Hsorted);
    [now rewrite <- Hperm | constructor|].
  rewrite Ea in Eo. injection Eo as <-.
  apply Forall2_fmap_l in H2.
  pose proof (StronglySorted_Forall _ _ _ Hsorted Hkeys) as Hboth.
  eapply StronglySorted_Forall2; [|exact H2|exact Hboth].
  intros x y x' y' ((s1 & s2 & E1 & E2 & Hle) & K1 & K2) Hx Hy. cbn in Hx, Hy.
  exists s1, s2. rewrite (enrich_keeps_timestamp _ _ Hx), (enrich_keeps_timestamp _ _ Hy).
  rewrite K1, K2, E1, E2. auto.
Qed.

Lemma str_timestamps_checked (d : list record) :
  forallb (fun r => match r !! "timestamp" with Some (VStr _) => true | _ => false end) d
    = true ->
  Forall (fun r => exists s, r !! "timestamp" = Some (VStr s)) d.
Proof.
  induction d as [|r d IH]; cbn [forallb]; intros H; [constructor|].
  apply andb_prop in H as [H1 H2]. constructor; [|now apply IH].
  destruct (r !! "timestamp") as [[]|]; try discriminate. now eexists.
Defined.

Lemma get_history_is_chronological_witness :
  StronglySorted timestamp_le MoreSamples.lab_history.
Proof.
  apply (get_history_is_chronological (Some "Lab") (Some MoreSamples.lab_two) "Lab" 2
           MoreSamples.lab_history).
  - vm_compute. reflexivity.
  - apply str_timestamps_checked. vm_compute. reflexivity.
Defined.

(** X12: one reading is enough to fail the whole request. If, among the
    readings under the area's 100 smallest keys, one has no [timestamp],
    has no [TDS], or cannot be enriched for another reason, the history
    of the area is answered 500, whatever the other readings are. *)
Theorem get_history_fails_on_one_reading (area : string) (fb : firebase) (r : record) :
  area <> EmptyString ->
  r ∈ first_hundred fb area ->
  r !! "timestamp" = None \/ r !! "TDS" = None \/ succeeds (enrich r) = false ->
  exists e, get_history (Some area) (Some fb) =
            {| status := 500; payload := Error "Failed to fetch history: " (Some e) |}.
Proof.
  intros Hne Hin Hbad. unfold get_history.
  assert (E : falsy_str (Some area) = false) by (now apply String.eqb_neq).
  rewrite E. cbn [default from_option id].
  unfold range_get. destruct (fb_raises fb _); cbn [bind try_except]; [eauto|].
  unfold first_hundred in Hin.
  destruct (take 100 _) as [|kv data] eqn:Et; [inversion Hin|].
  destruct (sort_by_timestamp _) as [history|e] eqn:Es; cbn [bind try_except]; [|eauto].
  assert (Hh : r ∈ history) by (now rewrite (sort_by_timestamp_perm _ _ Es)).
  assert (Hen : succeeds (enrich r) = false).
  { destruct Hbad as [Hts|[Htds|Hen]]; [|now apply enrich_needs_tds|exact Hen].
    exfalso. unfold sort_by_timestamp in Es.
    rewrite (with_keys_raises _ r Hin Hts) in Es. discriminate. }
  pose proof (process_raises _ _ Hh Hen) as Hp.
  destruct (process history) as [p|e]; [discriminate|]. cbn [bind try_except]. eauto.
Qed.

Lemma get_history_fails_on_one_reading_witness :
  exists e, get_history (Some "Lab") (Some sparse_store) =
            {| status := 500; payload := Error "Failed to fetch history: " (Some e) |}.
Proof.
  apply (get_history_fails_on_one_reading "Lab" sparse_store sparse_reading).
  - discriminate.
  - replace (first_hundred sparse_store "Lab") with [sparse_reading]
      by (vm_compute; reflexivity).
    apply list_elem_of_here.
  - right. left. vm_compute. reflexivity.
Defined.

End HistoryFacts.

(* ================================================================= *)
(** * An ingested reading is found again *)

Module ReachFacts.
Import Py PyFacts Key KeyFacts Value Store App AppSpec ReadSpec OrderFacts IngestFacts
       ReadFacts HistoryFacts.

Lemma replace_empty (a b : ascii) (s : string) :
  Py.replace a b s = EmptyString -> s = EmptyString.
Proof. destruct s; [reflexivity | discriminate]. Qed.

(** X13: a reading that was accepted can be found again. After an
    accepted write for an area whose name is not empty and holds no [/]
    (so that its key names a child of the root), on a store that
    answers, [get_areas] answers 200 with a list that holds the displayed
    name of the area's key, and [get_history], asked for that displayed
    name, reads the area the reading was written to: it does not answer
    404 (nor 400). *)
Theorem ingested_area_is_listed (secret : option string) (fb : firebase)
    (data : record) (now : datetime) (area : string) :
  valid now ->
  has_all_fields data = true ->
  data !! "area" = Some (VStr area) ->
  area <> EmptyString ->
  segment area = true ->
  (forall c, fb_raises fb c = false) ->
  exists fb' areas,
    ingest_data (Some (expected_token secret)) secret (Some fb) (Some data) now =
      ({| status := 201; payload := Ingested (strftime_iso now) |}, Some fb') /\
    get_areas (Some fb') = {| status := 200; payload := Areas areas |} /\
    display_name (storage_name area) ∈ areas /\
    (status (get_history (Some (display_name (storage_name area))) (Some fb')) = 200 \/
     status (get_history (Some (display_name (storage_name area))) (Some fb')) = 500).
Proof.
  intros Hv Hall Harea Hne _ Hok.
  set (fb' := {| fb_data := <[storage_name area :=
                                <[key_at now := kept (stamped data now)]>
                                  (children fb (storage_name area))]> (fb_data fb);
                 fb_raises := fb_raises fb |}).
  exists fb'. eexists. split; [apply (ingest_writes secret fb data now area); auto|].
  assert (Hl : children fb' (storage_name area) !! key_at now =
               Some (kept (stamped data now))).
  { unfold children, fb'. cbn [fb_data]. rewrite lookup_insert_eq.
    cbn [default from_option id]. apply lookup_insert_eq. }
  split; [|split].
  - unfold get_areas, shallow_get.
    replace (fb_raises fb' ShallowGet) with false by (symmetry; apply Hok).
    reflexivity.
  - apply list_elem_of_fmap_2.
    assert (Hin : (storage_name area,
                   <[key_at now := kept (stamped data now)]>
                     (children fb (storage_name area)))
                  ∈ order_by_key (filter (fun kv => size kv.2 ≠ 0%nat) (fb_data fb'))).
    { apply elem_of_order_by_key. apply map_lookup_filter_Some. split.
      - unfold fb'. cbn [fb_data]. apply lookup_insert_eq.
      - cbn [snd]. rewrite map_size_insert.
        destruct (children fb (storage_name area) !! key_at now) eqn:E; cbn.
        + apply map_size_ne_0_lookup_2 with (key_at now). eauto. 
        + lia. }
    apply (list_elem_of_fmap_2 fst) in Hin. exact Hin.
  - unfold get_history.
    assert (Hname : display_name (storage_name area) <> EmptyString).
    { unfold display_name, storage_name. intros E.
      apply replace_empty in E. apply replace_empty in E. contradiction. }
    cbn [falsy_str]. rewrite (proj2 (String.eqb_neq _ _) Hname).
    cbn [default from_option id].
    rewrite storage_name_listed.
    unfold range_get.
    replace (fb_raises fb' _) with false by (symmetry; apply Hok). cbn [bind].
    destruct (order_by_key (children fb' (storage_name area))) as [|kv rest] eqn:E.
    { apply elem_of_order_by_key in Hl. rewrite E in Hl. inversion Hl. }
    cbn [take]. 
    destruct (sort_by_timestamp _) as [history|e]; cbn [bind try_except]; [|now right].
    destruct (process history) as [p|e]; cbn [bind try_except]; [now left | now right].
Qed.

Lemma ingested_area_is_listed_witness :
  exists fb' areas,
    ingest_data (Some (expected_token (Some "s3cret"))) (Some "s3cret")
      (Some Samples.empty_store) (Some Samples.full_reading) new_year_2024 =
      ({| status := 201; payload := Ingested (strftime_iso new_year_2024) |}, Some fb') /\
    get_areas (Some fb') = {| status := 200; payload := Areas areas |} /\
    display_name (storage_name "Lab") ∈ areas /\
    (status (get_history (Some (display_name (storage_name "Lab"))) (Some fb')) = 200 \/
     status (get_history (Some (display_name (storage_name "Lab"))) (Some fb')) = 500).
Proof.
  apply (ingested_area_is_listed (Some "s3cret") Samples.empty_store
           Samples.full_reading new_year_2024 "Lab").
  - exact valid_new_year_2024.
  - vm_compute. reflexivity.
  - vm_compute. reflexivity.
  - discriminate.
  - reflexivity.
  - intros c. reflexivity.
Defined.

End ReachFacts.

(* ================================================================= *)
(** * Fetching a history *)

Module FetchFacts.
Import Value Modeler ForecastSpec ForecastSamples ForecastFacts.

Lemma index_not_elem (areas : list string) (area : string) :
  area ∉ areas -> index areas area = Raise ValueError.
Proof.
  induction areas as [|a rest IH]; intros Hn; [reflexivity|].
  cbn [index]. destruct (String.eqb_spec a area) as [->|Hne].
  - exfalso. apply Hn, list_elem_of_here.
  - rewrite IH; [reflexivity|]. intros H. apply Hn. now apply list_elem_of_further.
Qed.

Lemma fetch_exhausted (P1 : Z -> reply) :
  fails P1 1 -> fails P1 2 -> fails P1 3 ->
  fetch_attempts P1 [1; 2; 3] = (None, [half_second; one_second]).
Proof.
  assert (E1 : F.mul base_delay (F.of_Z (2 ^ (1 - 1))) = half_second)
    by (vm_compute; reflexivity).
  assert (E2 : F.mul base_delay (F.of_Z (2 ^ (2 - 1))) = one_second)
    by (vm_compute; reflexivity).
  cbn [fetch_attempts].
  change (1 <? max_retries) with true. change (2 <? max_retries) with true.
  change (3 <? max_retries) with false. rewrite E1, E2.
  intros [-> | ->] [-> | ->] [-> | ->]; reflexivity.
Qed.

(** X14: the schedule of [_get_history_df]. The first of the three
    attempts that brings records ends the fetch with source "real" and
    those records; before the second attempt it has slept 0.5 s, before
    the third 1 s more, and it does not sleep after the third. When no
    attempt brings records the generated series is returned with source
    "mock" after 1.5 s of sleep for an area of the known list, and
    [ValueError] is raised for any other area. *)
Theorem history_fetch_schedule (areas : list string) (P1 : Z -> reply)
    (uniform : Z -> F.float) (now : Z -> Z) (area : string) (limit : Z) :
  (forall r rows, P1 1 = Data (r :: rows) ->
     _get_history_df areas P1 uniform now area limit =
       Ok {| df := r :: rows; source := "real"; slept := [] |}) /\
  (fails P1 1 -> forall r rows, P1 2 = Data (r :: rows) ->
     _get_history_df areas P1 uniform now area limit =
       Ok {| df := r :: rows; source := "real"; slept := [half_second] |}) /\
  (fails P1 1 -> fails P1 2 -> forall r rows, P1 3 = Data (r :: rows) ->
     _get_history_df areas P1 uniform now area limit =
       Ok {| df := r :: rows; source := "real";
             slept := [half_second; one_second] |}) /\
  (fails P1 1 -> fails P1 2 -> fails P1 3 ->
     (forall i, index areas area = Ok i ->
        _get_history_df areas P1 uniform now area limit =
          Ok {| df := mock_data i uniform now limit; source := "mock";
                slept := [half_second; one_second] |}) /\
     (area ∉ areas ->
        _get_history_df areas P1 uniform now area limit = Raise ValueError)).
Proof.
  assert (E1 : F.mul base_delay (F.of_Z (2 ^ (1 - 1))) = half_second)
    by (vm_compute; reflexivity).
  assert (E2 : F.mul base_delay (F.of_Z (2 ^ (2 - 1))) = one_second)
    by (vm_compute; reflexivity).
  unfold _get_history_df. cbn [fetch_attempts].
  change (1 <? max_retries) with true. change (2 <? max_retries) with true.
  change (3 <? max_retries) with false. rewrite E1, E2.
  split; [intros r rows ->; reflexivity|].
  split; [intros [-> | ->] r rows ->; reflexivity|].
  split; [intros [-> | ->] [-> | ->] r rows ->; reflexivity|].
  intros [-> | ->] [-> | ->] [-> | ->]; cbn [app bind];
    (split; [intros i ->; reflexivity | intros Hn; now rewrite (index_not_elem _ _ Hn)]).
Qed.

End FetchFacts.

(* ================================================================= *)
(** * The forecast and its routes *)

Module RouteFacts.
Import Value Modeler ForecastSpec ForecastSamples ForecastFacts FetchFacts Routes.

Lemma insert_sample_perm (x : sample) (l : frame) : insert_sample x l ≡ₚ x :: l.
Proof.
  induction l as [|y l IH]; cbn [insert_sample]; [reflexivity|].
  destruct (timestamp x <? timestamp y); [reflexivity|].
  rewrite IH. apply Permutation_swap.
Qed.

Lemma sort_values_perm (d : frame) : sort_values d ≡ₚ d.
Proof.
  unfold sort_values. rewrite <- (app_nil_l d) at 2.
  generalize (@nil sample) as acc.
  induction d as [|x d IH]; intros acc; cbn [fold_left].
  - now rewrite app_nil_r.
  - rewrite IH, insert_sample_perm. apply Permutation_middle.
Qed.

Lemma fold_max_spec (l : list Z) (x : Z) :
  (fold_left Z.max l x = x \/ fold_left Z.max l x ∈ l) /\
  x <= fold_left Z.max l x /\ (forall y, y ∈ l -> y <= fold_left Z.max l x).
Proof.
  revert x. induction l as [|a l IH]; intros x; cbn [fold_left].
  - split; [now left|]. split; [lia|]. intros y Hy. inversion Hy.
  - destruct (IH (Z.max x a)) as (Hin & Hle & Hall). split; [|split].
    + destruct Hin as [E|Hin].
      * destruct (Z.max_spec x a) as [[_ Em]|[_ Em]]; rewrite Em in *.
        { right. rewrite E. apply list_elem_of_here. }
        { now left. }
      * right. now apply list_elem_of_further.
    + lia.
    + intros y Hy. apply elem_of_cons in Hy as [->|Hy]; [lia | now apply Hall].
Qed.

Lemma maximum_newest (d : frame) :
  d <> [] -> newest d (maximum (timestamp <$> sort_values d) 0).
Proof.
  intros Hne.
  assert (Hperm : timestamp <$> sort_values d ≡ₚ timestamp <$> d)
    by (now rewrite sort_values_perm).
  destruct (timestamp <$> sort_values d) as [|x l] eqn:E.
  { apply Permutation_nil_l in Hperm. destruct d; [congruence | discriminate]. }
  cbn [maximum]. destruct (fold_max_spec l x) as (Hin & Hle & Hall).
  assert (Hmem : fold_left Z.max l x ∈ timestamp <$> d).
  { rewrite <- Hperm. destruct Hin as [->|Hin];
      [apply list_elem_of_here | now apply list_elem_of_further]. }
  split.
  - apply list_elem_of_fmap in Hmem as (s & Hs & Hin'). eauto.
  - intros s Hs. assert (H : timestamp s ∈ x :: l).
    { rewrite Hperm. now apply list_elem_of_fmap_2. }
    apply elem_of_cons in H as [->|H]; [exact Hle | now apply Hall].
Qed.

Lemma dated_lookup (last : Z) (Y : list F.float) : forall (i : Z) (k : nat) (p : prediction),
  dated last i Y !! k = Some p ->
  date p = last + DAY * (i + Z.of_nat k + 1) /\ Y !! k = Some (predicted_tds p).
Proof.
  induction Y as [|y Y IH]; intros i k p; cbn [dated]; [discriminate|].
  destruct k as [|k]; cbn [lookup list_lookup].
  - intros [= <-]. cbn. split; [f_equal; lia | reflexivity].
  - intros H. destruct (IH _ _ _ H) as [-> Hy]. split; [f_equal; lia | exact Hy].
Qed.

Section Regression.

Variable model : Type.
Variable fit : list Z -> list F.float -> option model.
Variable predict : model -> list Z -> outcome (list F.float).

(** What [predict] of scikit-learn promises: one value per requested
    offset. *)
Hypothesis predict_length : forall (m : model) (X : list Z),
  X <> [] -> exists Y, predict m X = Ok Y /\ length Y = length X.

(** The forecast, once a history has been fetched. *)
Lemma predict_after_fetch (areas : list string) (P1 : Z -> reply)
    (uniform : Z -> F.float) (now : Z -> Z) (area : string) (future_steps : Z)
    (res : history) :
  _get_history_df areas P1 uniform now area 30 = Ok res ->
  1 <= future_steps ->
  exists r,
    predict_area_trend model fit predict areas P1 uniform now area future_steps = Ok r /\
    (empty (df res) = false -> has_TDS_column (df res) = true ->
     forall fitted, fit (training_X (df res)) (training_y (df res)) = Some fitted ->
       result_source r = Some (source res) /\
       model_used r = "LinearRegression" /\
       exists Y, predict fitted
                   ((fun k => maximum (training_X (df res)) 0 + 1 + k) <$> range future_steps)
                 = Ok Y /\
                 length Y = Z.to_nat future_steps /\
                 predictions r =
                   dated (maximum (timestamp <$> sort_values (df res)) 0) 0 Y).
Proof using predict_length.
  intros Hres Hsteps. unfold predict_area_trend. rewrite Hres. cbn [bind].
  destruct (empty (df res)) eqn:Ee; cbn [orb];
    [eexists; split; [reflexivity | discriminate]|].
  destruct (has_TDS_column (df res)) eqn:Et; cbn [negb];
    [|eexists; split; [reflexivity | discriminate]].
  fold (training_X (df res)). fold (training_y (df res)).
  destruct (fit _ _) as [fitted|];
    [|eexists; split; [reflexivity | intros _ _ f; discriminate]].
  set (future := (fun k => _) <$> range future_steps).
  assert (Hlen : length future = Z.to_nat future_steps)
    by (unfold future; now rewrite length_fmap, length_range).
  assert (Hne : future <> []) by (intros E; rewrite E in Hlen; cbn in Hlen; lia).
  destruct (predict_length fitted future Hne) as (Y & HY & HlenY).
  rewrite HY. cbn [bind].
  assert (HYne : Y <> []) by (intros E; rewrite E in HlenY; cbn in HlenY; lia).
  destruct (last_some Y HYne) as [p Hp]. rewrite Hp. cbn [bind].
  eexists. split; [reflexivity|]. intros _ _ f [= <-].
  cbn [result_source predictions model_used].
  split; [reflexivity|]. split; [reflexivity|].
  exists Y. split; [exact HY|]. split; [lia | reflexivity].
Qed.

(** X15: for a fetched history that has TDS values and that the
    regression accepts, and [future_steps >= 1], the forecast carries the
    source of the history and exactly [future_steps] predictions; the
    [k]-th of them (from 0) is dated [k + 1] days after the newest record
    of the history. *)
Theorem forecast_dates_follow_the_history (areas : list string) (P1 : Z -> reply)
    (uniform : Z -> F.float) (now : Z -> Z) (area : string) (future_steps : Z)
    (res : history) (fitted : model) :
  _get_history_df areas P1 uniform now area 30 = Ok res ->
  empty (df res) = false -> has_TDS_column (df res) = true ->
  fit (training_X (df res)) (training_y (df res)) = Some fitted ->
  1 <= future_steps ->
  exists r last,
    predict_area_trend model fit predict areas P1 uniform now area future_steps = Ok r /\
    result_source r = Some (source res) /\
    length (predictions r) = Z.to_nat future_steps /\
    newest (df res) last /\
    forall (k : nat) (p : prediction),
      predictions r !! k = Some p -> date p = last + DAY * (Z.of_nat k + 1).
Proof using predict_length.
  intros Hres Hne Htds Hfit Hsteps.
  destruct (predict_after_fetch areas P1 uniform now area future_steps res Hres Hsteps)
    as (r & Hr & Hshape).
  destruct (Hshape Hne Htds fitted Hfit) as (Hsrc & _ & Y & _ & HlenY & Hpred).
  exists r, (maximum (timestamp <$> sort_values (df res)) 0).
  split; [exact Hr|]. split; [exact Hsrc|].
  split; [now rewrite Hpred, length_dated|].
  split.
  - apply maximum_newest. destruct (df res); [discriminate | congruence].
  - intros k p Hk. rewrite Hpred in Hk.
    destruct (dated_lookup _ _ _ _ _ Hk) as [-> _]. f_equal.
Qed.

Lemma fetch_succeeds (areas : list string) (P1 : Z -> reply)
    (uniform : Z -> F.float) (now : Z -> Z) (area : string) (limit : Z) :
  area ∈ areas \/ (exists attempt r rows, 1 <= attempt <= 3 /\ P1 attempt = Data (r :: rows)) ->
  exists res, _get_history_df areas P1 uniform now area limit = Ok res.
Proof.
  intros H. unfold _get_history_df.
  destruct (fetch_attempts P1 [1; 2; 3]) as [[data|] sleeps] eqn:E; [eauto|].
  destruct H as [Hin|(attempt & r & rows & Ha & Hd)].
  - destruct (index_elem areas area Hin) as (i & -> & _). cbn [bind]. eauto.
  - exfalso. cbn [fetch_attempts] in E.
    assert (Hc : attempt = 1 \/ attempt = 2 \/ attempt = 3) by lia.
    destruct Hc as [-> | [-> | ->]].
    + rewrite Hd in E. discriminate.
    + rewrite Hd in E. destruct (P1 1) as [|[|]]; cbn in E; discriminate.
    + rewrite Hd in E.
      destruct (P1 1) as [|[|]]; destruct (P1 2) as [|[|]]; cbn in E; discriminate.
Qed.

Lemma fetch_fails (areas : list string) (P1 : Z -> reply)
    (uniform : Z -> F.float) (now : Z -> Z) (area : string) (limit : Z) :
  fails P1 1 -> fails P1 2 -> fails P1 3 -> area ∉ areas ->
  _get_history_df areas P1 uniform now area limit = Raise ValueError.
Proof.
  intros H1 H2 H3 Hn. unfold _get_history_df.
  rewrite (fetch_exhausted P1 H1 H2 H3). now rewrite (index_not_elem _ _ Hn).
Qed.

(** X16: [/predict] of ml_api.py answers 400 to a request without an
    area, 404 (naming the monitored areas) to an area that is not
    monitored, and 200 to every monitored area: whether the three
    attempts on the data layer fail, bring nothing or bring records (of
    time stamps that parse), and whether the training succeeds or not, it
    does not answer 500. *)
Theorem ml_forecast_statuses (areas : list string) (P1 : Z -> reply)
    (uniform : Z -> F.float) (now : Z -> Z) (area : option string) :
  (falsy_str area = true ->
   status (get_forecast model fit predict areas P1 uniform now area) = 400) /\
  (forall a, area = Some a -> a <> EmptyString -> a ∉ areas ->
   get_forecast model fit predict areas P1 uniform now area =
     {| status := 404;
        payload := Error ("Area '" +:+ a +:+ "' not monitored. Available areas: "
                          +:+ Analysis.join ", " areas) None |}) /\
  (forall a, area = Some a -> a <> EmptyString -> a ∈ areas ->
   exists r, get_forecast model fit predict areas P1 uniform now area =
               {| status := 200; payload := Forecast r |}).
Proof using predict_length.
  unfold get_forecast. split; [intros ->; reflexivity|]. split.
  - intros a -> Hne Hn. cbn [falsy_str]. rewrite (proj2 (String.eqb_neq _ _) Hne).
    cbn [default from_option id]. now rewrite bool_decide_eq_false_2.
  - intros a -> Hne Hin. cbn [falsy_str]. rewrite (proj2 (String.eqb_neq _ _) Hne).
    cbn [default from_option id]. rewrite bool_decide_eq_true_2 by exact Hin. cbn [negb].
    destruct (fetch_succeeds areas P1 uniform now a 30 (or_introl Hin)) as [res Hres].
    destruct (predict_after_fetch areas P1 uniform now a 7 res Hres ltac:(lia))
      as (r & -> & _).
    exists r. reflexivity.
Qed.

(** X17: [/predict] of water_modeler.py has no check of the area. For a
    named area it answers 200 when the area is known or when one of the
    three attempts brings records (of time stamps that parse), and 500
    with the [ValueError] of the fall-back ([self.areas.index(area)]) when
    the area is unknown and no attempt brings records. *)
Theorem modeler_forecast_statuses (areas : list string) (P1 : Z -> reply)
    (uniform : Z -> F.float) (now : Z -> Z) (a : string) :
  a <> EmptyString ->
  (a ∈ areas \/
   (exists attempt r rows, 1 <= attempt <= 3 /\ P1 attempt = Data (r :: rows)) ->
   exists r, modeler_get_forecast model fit predict areas P1 uniform now (Some a) =
               {| status := 200; payload := Forecast r |}) /\
  (fails P1 1 -> fails P1 2 -> fails P1 3 -> a ∉ areas ->
   modeler_get_forecast model fit predict areas P1 uniform now (Some a) =
     {| status := 500; payload := Error "Failed to get prediction: " (Some ValueError) |}).
Proof using predict_length.
  intros Hne. unfold modeler_get_forecast. cbn [falsy_str].
  rewrite (proj2 (String.eqb_neq _ _) Hne). cbn [default from_option id]. split.
  - intros H. destruct (fetch_succeeds areas P1 uniform now a 30 H) as [res Hres].
    destruct (predict_after_fetch areas P1 uniform now a 7 res Hres ltac:(lia))
      as (r & -> & _).
    exists r. reflexivity.
  - intros H1 H2 H3 Hn. unfold predict_area_trend.
    now rewrite (fetch_fails areas P1 uniform now a 30 H1 H2 H3 Hn).
Qed.

End Regression.

Lemma modeler_forecast_statuses_witness :
  modeler_get_forecast line ols_fit ols_predict fallback_areas unreachable
    no_jitter at_noon (Some "Hebbal") =
    {| status := 500; payload := Error "Failed to get prediction: " (Some ValueError) |}.
Proof.
  apply (modeler_forecast_statuses line ols_fit ols_predict ols_predict_length
           fallback_areas unreachable no_jitter at_noon "Hebbal").
  - discriminate.
  - left. reflexivity.
  - left. reflexivity.
  - left. reflexivity.
  - unfold fallback_areas. intros Hin.
    repeat (apply elem_of_cons in Hin as [Hin|Hin]; [discriminate Hin|]).
    inversion Hin.
Defined.

Lemma ml_forecast_statuses_witness :
  exists r, get_forecast line ols_fit ols_predict fallback_areas unreachable
              no_jitter at_noon (Some "MG Road") =
              {| status := 200; payload := Forecast r |}.
Proof.
  destruct (ml_forecast_statuses line ols_fit ols_predict ols_predict_length
              fallback_areas unreachable no_jitter at_noon (Some "MG Road"))
    as (_ & _ & H).
  apply (H "MG Road"); [reflexivity | discriminate | apply list_elem_of_here].
Defined.

Lemma forecast_dates_follow_the_history_witness :
  exists r last,
    predict_area_trend line ols_fit ols_predict fallback_areas (serves same_day)
      no_jitter at_noon "MG Road" 7 = Ok r /\
    result_source r = Some "real" /\
    length (predictions r) = Z.to_nat 7 /\
    newest same_day last /\
    forall (k : nat) (p : prediction),
      predictions r !! k = Some p -> date p = last + DAY * (Z.of_nat k + 1).
Proof.
  apply (forecast_dates_follow_the_history line ols_fit ols_predict ols_predict_length
           fallback_areas (serves same_day) no_jitter at_noon "MG Road" 7
           {| df := same_day; source := "real"; slept := [] |}
           MoreSamples.same_day_line).
  - vm_compute. reflexivity.
  - reflexivity.
  - reflexivity.
  - vm_compute. reflexivity.
  - lia.
Defined.

End RouteFacts.

(* ================================================================= *)
(** * Alerts and suitability *)

Module AnalysisFacts.
Import Value Fmt Analysis AnalysisSpec.

Lemma gt_lt_exclusive (c : option comparison) : is_gt c && is_lt c = false.
Proof. destruct c as [[]|]; reflexivity. Qed.

(** X18: [generate_alerts] raises at most three alerts at once: the alert
    on low chlorine is never raised together with the alert on high TDS,
    and it is not raised at all unless TDS is below 500, so that from a
    TDS of exactly 500 on (or a TDS that is not a number) the chlorine
    reading has no influence on the message; and a reading whose TDS, pH
    and turbidity are not numbers is reported as within acceptable
    limits. *)
Theorem alert_limits (tds ph turbidity chlorine : F.float) :
  (length (alerts tds ph turbidity chlorine) <= 3)%nat /\
  (is_lt (F.compare_Z tds 500) = false ->
   forall chlorine', generate_alerts tds ph turbidity chlorine =
                     generate_alerts tds ph turbidity chlorine') /\
  (F.is_nan tds = true -> F.is_nan ph = true -> F.is_nan turbidity = true ->
   generate_alerts tds ph turbidity chlorine = all_clear).
Proof.
  split; [|split].
  - unfold alerts. rewrite !length_app.
    pose proof (gt_lt_exclusive (F.compare_Z tds 500)) as Hx.
    destruct (is_gt (F.compare_Z tds 500)); destruct (is_lt (F.compare_Z tds 500));
      try discriminate Hx; rewrite ?andb_false_r;
      repeat match goal with |- context [if ?b then _ else _] => destruct b end;
      cbn [length]; lia.
  - intros Hlt chlorine'. unfold generate_alerts, alerts.
    now rewrite Hlt, !andb_false_r.
  - intros Ht Hp Hb. destruct tds; try discriminate Ht. destruct ph; try discriminate Hp.
    destruct turbidity; try discriminate Hb.
    unfold generate_alerts, alerts. cbn [F.compare_Z is_gt is_lt].
    rewrite andb_false_r. reflexivity.
Qed.

Lemma unknown_chore_lookup (chore : string) :
  chore ∉ known_chores -> optimal_map !! chore = None.
Proof.
  intros Hn. unfold optimal_map. cbn [list_to_map foldr].
  rewrite !lookup_insert_ne; [apply lookup_empty|..];
    intros <-; apply Hn; unfold known_chores;
    repeat first [apply list_elem_of_here | apply list_elem_of_further].
Qed.

Lemma unknown_chore_eqb (chore name : string) :
  chore ∉ known_chores -> name ∈ known_chores -> String.eqb chore name = false.
Proof. intros Hn Hin. apply String.eqb_neq. intros ->. contradiction. Qed.

(** X19: for a chore that is named but is none of the four the modeller
    knows (Drinking/Cooking, Washing/Laundry, Gardening and Dishwashing
    (Machine), spelled so), [determine_suitability] does not fail: it
    returns the "Task not recognized" text as the analysis together with
    the default targets, hardness 50 - 150 mg/L, TDS 100 - 500 mg/L and
    pH 6.5 - 8.5, and advice computed for a hardness of 150, whatever the
    measurements. *)
Theorem unknown_chore_gets_defaults (tds hardness ph chlorine volume : F.float)
    (chore : string) :
  chore <> EmptyString ->
  chore ∉ known_chores ->
  determine_suitability tds hardness ph chlorine (Some chore) volume =
    Focused not_recognized "50 - 150 mg/L" "100 - 500 mg/L" "6.5 - 8.5"
      {| ca_target := "Max 60.0 mg/L (as CaCO3 equiv.)";
         mg_target := "Max 36.6 mg/L (as CaCO3 equiv.)";
         notes := "For " +:+ chore +:+ ", the target maximum Hardness is 150 mg/L. This implies Calcium (Ca) should be less than 60.0 mg/L and Magnesium (Mg) less than 36.6 mg/L in the final water to prevent scaling and residue. Conversion via Softener or RO is recommended." |}.
Proof.
  intros Hne Hn. unfold determine_suitability. cbn [falsy_str].
  rewrite (proj2 (String.eqb_neq _ _) Hne). cbn [negb default from_option id].
  unfold _get_chore_specific_analysis, _get_optimal_parameters_and_conversion.
  rewrite (unknown_chore_lookup chore Hn).
  rewrite !(unknown_chore_eqb chore _ Hn)
    by (unfold known_chores; repeat first [apply list_elem_of_here | apply list_elem_of_further]).
  cbn [orb default from_option id].
  assert (E1 : format_f 1 (F.div (F.of_Z 150) (F.lit 25 10)) = "60.0")
    by (vm_compute; reflexivity).
  assert (E2 : format_f 1 (F.div (F.of_Z 150) (F.lit 41 10)) = "36.6")
    by (vm_compute; reflexivity).
  cbn [default_optimal opt_Hardness opt_TDS opt_pH optimal_hardness optimal_tds
       optimal_ph advice fst snd].
  rewrite E1, E2. reflexivity.
Qed.

Lemma unknown_chore_gets_defaults_witness :
  determine_suitability (F.of_Z 400) (F.of_Z 120) (F.of_Z 7) (S754_zero false)
    (Some "Bathing") (F.of_Z 1) =
    Focused not_recognized "50 - 150 mg/L" "100 - 500 mg/L" "6.5 - 8.5"
      {| ca_target := "Max 60.0 mg/L (as CaCO3 equiv.)";
         mg_target := "Max 36.6 mg/L (as CaCO3 equiv.)";
         notes := "For " +:+ "Bathing" +:+ ", the target maximum Hardness is 150 mg/L. This implies Calcium (Ca) should be less than 60.0 mg/L and Magnesium (Mg) less than 36.6 mg/L in the final water to prevent scaling and residue. Conversion via Softener or RO is recommended." |}.
Proof.
  apply (unknown_chore_gets_defaults (F.of_Z 400) (F.of_Z 120) (F.of_Z 7)
           (S754_zero false) (F.of_Z 1) "Bathing").
  - discriminate.
  - unfold known_chores. intros Hin.
    repeat (apply elem_of_cons in Hin as [Hin|Hin]; [discriminate Hin|]).
    inversion Hin.
Defined.

End AnalysisFacts.

(* ================================================================= *)
(** * The analysis of a sample *)

Module MlApiFacts.
Import Value Fmt Analysis MlApi.

Lemma classify_float (h : F.float) :
  exists s, Modeler.classify_hardness (VFloat h) = Ok s.
Proof.
  unfold Modeler.classify_hardness, lt_int, compare_int. cbn [bind].
  repeat match goal with |- context [if ?b then _ else _] => destruct b end; eauto.
Qed.

Lemma has_all_fields_lookup (data : record) (field : string) :
  has_all_fields data = true -> field ∈ required_fields -> is_Some (data !! field).
Proof.
  unfold has_all_fields. rewrite forallb_forall. intros H Hin.
  eapply bool_decide_eq_true_1. apply H. now apply list_elem_of_In.
Qed.

Lemma missing_field (data : record) (field : string) :
  field ∈ required_fields -> data !! field = None -> has_all_fields data = false.
Proof.
  intros Hin Hn. destruct (has_all_fields data) eqn:E; [|reflexivity].
  destruct (has_all_fields_lookup data field E Hin) as [v Hv]. congruence.
Qed.

Section AnalyzeSample.

Variable float_of_str : string -> outcome F.float.
Variable repr_float : F.float -> string.

Local Abbreviation to_float := (to_float float_of_str).
Local Abbreviation analyze_sample := (analyze_sample float_of_str repr_float).
Local Abbreviation chore_name := (chore_name repr_float).

(** X20: [/analyze_sample] answers 400 when [get_json] returns [None]
    (a body that is the JSON [null]) and when it returns an object that
    lacks one of the seven required fields. When the seven are present
    but one of the six measurements cannot be converted to a number (null,
    a list and an object never can: the presence test accepts them, the
    conversion raises), the answer is 500. *)
Theorem analyze_sample_validation (json : option record) :
  (json = None \/
   (exists data field, json = Some data /\ field ∈ required_fields /\
                       data !! field = None) ->
   status (analyze_sample json) = 400) /\
  (forall data field v,
     json = Some data -> has_all_fields data = true ->
     field ∈ measurements -> data !! field = Some v ->
     succeeds (to_float v) = false ->
     status (analyze_sample json) = 500) /\
  to_float VNone = Raise TypeError.
Proof.
  split; [|split; [|reflexivity]].
  - intros [->|(data & field & -> & Hin & Hn)]; [reflexivity|].
    unfold MlApi.analyze_sample. now rewrite (missing_field data field Hin Hn).
  - intros data field v -> Hall Hin Hv Hfail. unfold MlApi.analyze_sample.
    rewrite Hall. cbn [negb]. unfold getitem.
    assert (Hstep : forall name (k : F.float -> outcome response),
              (name = field \/ forall x, status (try_except (k x)
                 (fun e => {| status := 500;
                              payload := Error "Internal ML analysis failed: " (Some e) |})) = 500) ->
              is_Some (data !! name) ->
              status (try_except
                (bind (bind (match data !! name with
                             | Some v => Ok v | None => Raise KeyError end)
                            (fun v => to_float v)) k)
                (fun e => {| status := 500;
                             payload := Error "Internal ML analysis failed: " (Some e) |})) = 500).
    { intros name k Hk [w Hw]. rewrite Hw. cbn [bind].
      destruct (to_float w) as [x|e] eqn:Ew; cbn [bind try_except]; [|reflexivity].
      destruct Hk as [->|Hk]; [|apply Hk].
      rewrite Hv in Hw. injection Hw as <-. rewrite Ew in Hfail. discriminate. }
    unfold measurements in Hin.
    repeat (apply elem_of_cons in Hin as [Hin|Hin]);
      [..|inversion Hin];
      repeat first
        [ apply Hstep;
          [ first [ left; symmetry; exact Hin | right; intros ? ]
          | apply (has_all_fields_lookup data _ Hall); unfold required_fields;
            repeat first [apply list_elem_of_here | apply list_elem_of_further] ] ].
Qed.

(** X21: [/analyze_sample] does not fail on measurements. When the seven
    fields are present, the six measurements convert to numbers and the
    target chore, if any, is not a list or an object, the answer is 200;
    it echoes the measurements as floats, its hardness is
    [Ca * 2.497 + Mg * 4.118] as the modeller computes it, not rounded,
    its status is the modeller's class of that hardness, and its alert and
    suitability are those of [generate_alerts] and
    [determine_suitability] on these values. *)
Theorem analyze_sample_on_numbers (data : record) (area : value)
    (tds ph ca mg turbidity chlorine : F.float) (chore : option string) :
  data !! "area" = Some area ->
  (exists v, data !! "TDS" = Some v /\ to_float v = Ok tds) ->
  (exists v, data !! "pH" = Some v /\ to_float v = Ok ph) ->
  (exists v, data !! "Ca" = Some v /\ to_float v = Ok ca) ->
  (exists v, data !! "Mg" = Some v /\ to_float v = Ok mg) ->
  (exists v, data !! "turbidity" = Some v /\ to_float v = Ok turbidity) ->
  (exists v, data !! "chlorine" = Some v /\ to_float v = Ok chlorine) ->
  chore_name (get data "target_chore") = Ok chore ->
  exists r,
    analyze_sample (Some data) = {| status := 200; payload := Result r |} /\
    (r_area r, r_TDS r, r_pH r, r_Ca r, r_Mg r, r_turbidity r, r_chlorine r) =
      (area, tds, ph, ca, mg, turbidity, chlorine) /\
    calculated_hardness r =
      F.add (F.mul ca Modeler.CA_FACTOR) (F.mul mg Modeler.MG_FACTOR) /\
    Modeler.classify_hardness (VFloat (calculated_hardness r)) = Ok (r_status r) /\
    alert_message r = generate_alerts tds ph turbidity chlorine /\
    household_suitability r =
      determine_suitability tds (calculated_hardness r) ph chlorine chore (F.of_Z 1).
Proof.
  intros Ha (v1 & L1 & C1) (v2 & L2 & C2) (v3 & L3 & C3) (v4 & L4 & C4)
         (v5 & L5 & C5) (v6 & L6 & C6) Hchore.
  unfold MlApi.analyze_sample.
  assert (Hall : has_all_fields data = true).
  { unfold has_all_fields, required_fields. cbn [forallb].
    rewrite Ha, L1, L2, L3, L4, L5, L6.
    rewrite !bool_decide_eq_true_2 by eauto. reflexivity. }
  rewrite Hall. cbn [negb]. unfold getitem.
  rewrite Ha, L1, L2, L3, L4, L5, L6. cbn [bind].
  rewrite C1, C2, C3, C4, C5, C6. cbn [bind].
  unfold Modeler.calculate_total_hardness, mul_const. cbn [promote bind].
  destruct (classify_float (F.add (F.mul ca Modeler.CA_FACTOR) (F.mul mg Modeler.MG_FACTOR)))
    as [s Hs].
  rewrite Hs. cbn [bind]. rewrite Hchore. cbn [bind try_except].
  eexists. split; [reflexivity|].
  cbn [r_area r_TDS r_pH r_Ca r_Mg r_turbidity r_chlorine calculated_hardness
       r_status alert_message household_suitability].
  repeat split. exact Hs.
Qed.

End AnalyzeSample.

Lemma analyze_sample_on_numbers_witness :
  exists r,
    analyze_sample MoreSamples.no_parse MoreSamples.no_repr (Some Samples.full_reading) =
      {| status := 200; payload := Result r |} /\
    (r_area r, r_TDS r, r_pH r, r_Ca r, r_Mg r, r_turbidity r, r_chlorine r) =
      (VStr "Lab", F.of_Z 400, F.of_Z 7, F.of_Z 80, F.of_Z 20, F.of_Z 1, F.of_Z 0) /\
    calculated_hardness r =
      F.add (F.mul (F.of_Z 80) Modeler.CA_FACTOR) (F.mul (F.of_Z 20) Modeler.MG_FACTOR) /\
    Modeler.classify_hardness (VFloat (calculated_hardness r)) = Ok (r_status r) /\
    alert_message r = generate_alerts (F.of_Z 400) (F.of_Z 7) (F.of_Z 1) (F.of_Z 0) /\
    household_suitability r =
      determine_suitability (F.of_Z 400) (calculated_hardness r) (F.of_Z 7) (F.of_Z 0)
        None (F.of_Z 1).
Proof.
  apply (analyze_sample_on_numbers MoreSamples.no_parse MoreSamples.no_repr
           Samples.full_reading (VStr "Lab") (F.of_Z 400) (F.of_Z 7) (F.of_Z 80)
           (F.of_Z 20) (F.of_Z 1) (F.of_Z 0) None).
  - vm_compute. reflexivity.
  - exists (VInt 400). split; vm_compute; reflexivity.
  - exists (VInt 7). split; vm_compute; reflexivity.
  - exists (VInt 80). split; vm_compute; reflexivity.
  - exists (VInt 20). split; vm_compute; reflexivity.
  - exists (VInt 1). split; vm_compute; reflexivity.
  - exists (VInt 0). split; vm_compute; reflexivity.
  - vm_compute. reflexivity.
Defined.

End MlApiFacts.

(* ================================================================= *)
(** * Treatment jobs: what a request changes, and how a job ends *)

Module JobFrameFacts.
Import Value Jobs JobSpec JobFrameSpec JobsFacts.
Local Open Scope jobs_scope.

Lemma frames_refl (id : string) (w : world) : same_elsewhere id w w /\ seen_grows w w.
Proof. split; [intros id' _; reflexivity | exists []; now rewrite app_nil_r]. Qed.

Lemma frames_trans (id : string) (w1 w2 w3 : world) :
  same_elsewhere id w1 w2 /\ seen_grows w1 w2 ->
  same_elsewhere id w2 w3 /\ seen_grows w2 w3 ->
  same_elsewhere id w1 w3 /\ seen_grows w1 w3.
Proof.
  intros [H1 [m1 S1]] [H2 [m2 S2]]. split.
  - intros id' Hne. now rewrite H2, H1.
  - exists (m1 ++ m2). now rewrite S2, S1, app_assoc.
Qed.

Lemma frames_ret {A} (id : string) (a : A) : frames id (ret a).
Proof. intros w r w' [= <- <-]. apply frames_refl. Qed.

Lemma frames_lift {A} (id : string) (o : outcome A) : frames id (lift o).
Proof. intros w r w' [= <- <-]. apply frames_refl. Qed.

Lemma frames_bind {A B} (id : string) (m : M A) (k : A -> M B) :
  frames id m -> (forall a, frames id (k a)) -> frames id (mbind m k).
Proof.
  intros Hm Hk w r w'. unfold mbind. destruct (m w) as [[a|e] w1] eqn:E.
  - intros H. eapply frames_trans; [apply (Hm _ _ _ E) | apply (Hk _ _ _ _ H)].
  - intros [= <- <-]. apply (Hm _ _ _ E).
Qed.

Lemma frames_bind_with {A B} (id : string) (m : M A) (k : A -> M B) (P : A -> Prop) :
  frames id m -> (forall w a w', m w = (Ok a, w') -> P a) ->
  (forall a, P a -> frames id (k a)) -> frames id (mbind m k).
Proof.
  intros Hm HP Hk w r w'. unfold mbind. destruct (m w) as [[a|e] w1] eqn:E.
  - intros H. eapply frames_trans; [apply (Hm _ _ _ E) | apply (Hk a (HP _ _ _ E) _ _ _ H)].
  - intros [= <- <-]. apply (Hm _ _ _ E).
Qed.

Lemma frames_try {A} (id : string) (m : M A) (h : exn -> M A) :
  frames id m -> (forall e, frames id (h e)) -> frames id (try_catch m h).
Proof.
  intros Hm Hh w r w'. unfold try_catch. destruct (m w) as [[a|e] w1] eqn:E.
  - intros [= <- <-]. apply (Hm _ _ _ E).
  - intros H. eapply frames_trans; [apply (Hm _ _ _ E) | apply (Hh _ _ _ _ H)].
Qed.

Lemma frames_locked {A} (id : string) (m : M A) : frames id m -> frames id (locked m).
Proof.
  intros Hm w r w'. unfold locked. destruct (m w) as [r1 w1] eqn:E.
  intros [= <- <-]. destruct (Hm _ _ _ E) as [H1 [ms S1]]. split.
  - exact H1.
  - exists (ms ++ [JOBS w1]). cbn [seen]. now rewrite S1, app_assoc.
Qed.

Lemma frames_update (id : string) (f : job -> job) : frames id (update id f).
Proof.
  intros w r w'. unfold update. destruct (JOBS w !! id) as [j|].
  - intros [= <- <-]. split.
    + intros id' Hne. cbn [JOBS]. now rewrite lookup_insert_ne by congruence.
    + exists []. cbn [seen]. now rewrite app_nil_r.
  - intros [= <- <-]. apply frames_refl.
Qed.

Lemma frames_register (id : string) (j : job) : frames id (register id j).
Proof.
  intros w r w' [= <- <-]. split.
  - intros id' Hne. cbn [JOBS]. now rewrite lookup_insert_ne by congruence.
  - exists []. cbn [seen]. now rewrite app_nil_r.
Qed.

Lemma frames_for_each {A} (id : string) (l : list A) (body : A -> M unit) :
  (forall x, frames id (body x)) -> frames id (for_each l body).
Proof.
  intros Hb. induction l as [|x l IH]; cbn [for_each].
  - apply frames_ret.
  - apply frames_bind; [apply Hb | intros _; exact IH].
Qed.

Lemma frames_worker (scale : outcome F.float) (sleep : F.float -> outcome unit)
    (id : string) (d : F.float) (dev ar : value) (vol : F.float)
    (ch : option F.float) (re : F.float) :
  frames id (_run_treatment_job scale sleep id d dev ar vol ch re).
Proof.
  unfold _run_treatment_job. apply frames_try.
  - apply frames_bind;
      [apply frames_locked, frames_bind; [apply frames_update | intro; apply frames_update]
      | intros _].
    apply frames_bind; [apply frames_lift | intros scale'].
    apply frames_bind; [apply frames_lift | intros q].
    apply frames_bind.
    + apply frames_for_each. intros i.
      apply frames_bind; [apply frames_lift | intros _].
      apply frames_bind; [apply frames_lift | intros p].
      apply frames_locked, frames_update.
    + intros _. apply frames_locked.
      apply frames_bind; [apply frames_update | intros _].
      apply frames_bind; [apply frames_update | intros _; apply frames_update].
  - intros e. apply frames_locked.
    apply frames_bind; [apply frames_update | intros _; apply frames_update].
Qed.

(** X22: a treatment request, run to the end of its worker, changes no job
    but the one it registers under the identifier drawn, and whatever an
    observer has seen before stays seen. *)
Theorem treatment_touches_its_job_only (scale : outcome F.float)
    (sleep : F.float -> outcome unit) (area device : value)
    (volume_liters removal_efficiency flow_L_per_min : outcome F.float)
    (latest_hardness : option F.float) (uuid4 : string) (w0 : world) :
  let run := start_and_run
               (start_treatment scale sleep area device volume_liters
                  removal_efficiency flow_L_per_min latest_hardness uuid4) w0 in
  (forall id, id <> uuid4 -> JOBS run.2 !! id = JOBS w0 !! id) /\
  (exists ms, seen run.2 = seen w0 ++ ms).
Proof.
  cbn zeta.
  assert (H : frames uuid4
                (start_and_run
                   (start_treatment scale sleep area device volume_liters
                      removal_efficiency flow_L_per_min latest_hardness uuid4))).
  { unfold start_and_run.
    apply (frames_bind_with uuid4 _ _
             (fun r => match r.2 with Some t => frames uuid4 t | None => True end)).
    - unfold start_treatment.
      apply frames_try; [|intro; apply frames_ret].
      repeat (apply frames_bind; [apply frames_lift | intro]).
      destruct (negb _); [apply frames_ret|].
      apply frames_bind; [apply frames_locked, frames_register | intro; apply frames_ret].
    - intros w r w'. unfold start_treatment, try_catch, mbind, lift, ret.
      destruct volume_liters as [vol|e]; [|intros [= <- _]; exact I].
      destruct removal_efficiency as [re|e]; [|intros [= <- _]; exact I].
      destruct flow_L_per_min as [flow|e]; [|intros [= <- _]; exact I].
      destruct (negb _); [intros [= <- _]; exact I|].
      unfold locked, register. intros [= <- _]. cbn [snd]. apply frames_worker.
    - intros [r [t|]]; cbn [snd fst]; intros Ht.
      + apply frames_bind; [|intro; apply frames_ret].
        apply frames_try; [exact Ht | intro; apply frames_ret].
      + apply frames_bind; [apply frames_ret | intro; apply frames_ret]. }
  destruct (start_and_run _ w0) as [r w1] eqn:E. exact (H _ _ _ E).
Qed.

(** X23: a request that is not accepted leaves no trace. When one of the
    three conversions to [float] raises, in the order volume, removal
    efficiency, flow, the answer is the 500 response with that exception;
    when they succeed and the area or the device is missing or empty, or
    the volume is not greater than 0 (a NaN included), the answer is the
    400 response. In both cases no job is registered, no worker is started
    and the job map is what it was. *)
Theorem rejected_treatment_leaves_no_trace (scale : outcome F.float)
    (sleep : F.float -> outcome unit) (area device : value)
    (volume_liters removal_efficiency flow_L_per_min : outcome F.float)
    (latest_hardness : option F.float) (uuid4 : string) (w0 : world) :
  let request := start_treatment scale sleep area device volume_liters
                   removal_efficiency flow_L_per_min latest_hardness uuid4 in
  (forall e, volume_liters = Raise e ->
     request w0 = (Ok (ServerError e, None), w0)) /\
  (forall v e, volume_liters = Ok v -> removal_efficiency = Raise e ->
     request w0 = (Ok (ServerError e, None), w0)) /\
  (forall v r e, volume_liters = Ok v -> removal_efficiency = Ok r ->
     flow_L_per_min = Raise e ->
     request w0 = (Ok (ServerError e, None), w0)) /\
  (forall v r f, volume_liters = Ok v -> removal_efficiency = Ok r ->
     flow_L_per_min = Ok f ->
     truthy area = false \/ truthy device = false \/ F.is_nan v = true \/
     is_le (F.compare_Z v 0) = true ->
     request w0 = (Ok (MissingParameters, None), w0) /\
     start_and_run request w0 = (Ok MissingParameters, w0)).
Proof.
  cbn zeta. unfold start_and_run, start_treatment, try_catch, mbind, lift, ret.
  split; [intros e ->; reflexivity|].
  split; [intros v e -> ->; reflexivity|].
  split; [intros v r e -> -> ->; reflexivity|].
  intros v r f -> -> -> H.
  assert (E : truthy area && truthy device && is_gt (F.compare_Z v 0) = false).
  { destruct H as [->|[->|[Hn|Hle]]]; [reflexivity|now rewrite andb_false_r| |].
    - destruct v; try discriminate Hn. now rewrite andb_false_r.
    - destruct (F.compare_Z v 0) as [[]|]; try discriminate Hle; now rewrite andb_false_r. }
  rewrite E. cbn [negb]. split; reflexivity.
Qed.

Section Outcome.

Variable scale : outcome F.float.
Variable sleep : F.float -> outcome unit.
Variables ar dev : value.
Variables v r f : F.float.
Variable latest_hardness : option F.float.
Variable uuid4 : string.
Variable w0 : world.

(** The request is accepted. *)
Hypothesis accepted : truthy ar && truthy dev && is_gt (F.compare_Z v 0) = true.

Let est : option F.float :=
  if is_gt (F.compare_Z f 0) then Some (F.div v f) else None.
Let job0 : job :=
  {| job_id := uuid4; status := queued; progress := 0; area := ar;
     device := dev; volume_liters := v; estimated_minutes := est;
     result := None; error := None |}.
Let request : M (reply * option (M unit)) :=
  start_treatment scale sleep ar dev (Ok v) (Ok r) (Ok f) latest_hardness uuid4.

Lemma accepted_request :
  exists w0',
    request w0 =
      (Ok (Started uuid4 est,
           Some (_run_treatment_job scale sleep uuid4 (or_zero est) dev ar v
                   (Some (or_zero latest_hardness)) r)), w0') /\
    JOBS w0' !! uuid4 = Some job0.
Proof using accepted.
  eexists. unfold request, start_treatment, try_catch, mbind, lift. rewrite accepted.
  cbn [negb]. unfold locked, register, ret. cbn [fst snd JOBS seen].
  split; [reflexivity|]. apply lookup_insert_eq.
Qed.

Lemma run_after_request (w0' w1 : world) (t : M unit) (res : outcome unit) :
  request w0 = (Ok (Started uuid4 est, Some t), w0') ->
  t w0' = (res, w1) ->
  start_and_run request w0 = (Ok (Started uuid4 est), w1).
Proof.
  intros Hreq Ht. unfold start_and_run, mbind. rewrite Hreq. cbn [snd fst].
  unfold try_catch. rewrite Ht. destruct res; reflexivity.
Qed.

(** X24: when the time scale of the environment cannot be read as a
    number, or is zero, every accepted job ends failed: its last state,
    the one [job_status] keeps returning, has status "failed", progress
    0, no result, and the exception as its error. *)
Theorem bad_time_scale_fails_the_job (e : exn) :
  scale = Raise e \/
  (exists s, scale = Ok s /\ is_zero s = true /\ e = ZeroDivisionError) ->
  exists w1 j,
    start_and_run request w0 = (Ok (Started uuid4 est), w1) /\
    job_status uuid4 w1 = Some j /\
    status j = failed /\ progress j = 0 /\ result j = None /\ error j = Some e.
Proof using accepted.
  intros Hscale.
  destruct accepted_request as (w0' & Hreq & Hj).
  destruct (locked_update2 uuid4 (with_status running) (with_progress 0) w0' job0 Hj)
    as (w1 & E1 & A1).
  destruct (locked_update2 uuid4 (with_status failed) (with_error e) w1 _ (proj1 A1))
    as (w2 & E2 & A2).
  exists w2. eexists. split; [|split; [exact (proj1 A2)|repeat split]].
  eapply run_after_request; [exact Hreq|].
  unfold _run_treatment_job, try_catch. unfold mbind at 1. rewrite E1.
  unfold mbind at 1. unfold lift at 1.
  destruct Hscale as [->|(s & -> & Hz & ->)]; [exact E2|].
  unfold mbind at 1. unfold lift at 1.
  assert (Hdiv : truediv (or_zero est) s = Raise ZeroDivisionError)
    by (destruct s; try discriminate Hz; reflexivity).
  rewrite Hdiv. exact E2.
Qed.

Lemma final_hardness_unknown (re : F.float) :
  final_hardness re (or_zero None) = S754_zero false.
Proof.
  unfold final_hardness, or_zero.
  destruct (F.sub (F.of_Z 1) re) as [s|s| |s m e]; try destruct s; reflexivity.
Qed.

(** X25: when the time scale is a number other than zero and [sleep]
    accepts its durations, every accepted job ends completed: its last
    state has status "completed", progress 100, no error, and a result
    that names the device, the area and the volume of the request and
    carries the hardness after one pass,
    [round(max(0.0, (1 - removal_efficiency) * hardness), 2)], the
    hardness being 0.0 when none was found for the area: the final
    hardness is never null, and it is 0.0 when the hardness is unknown. *)
Theorem good_run_completes_the_job (s : F.float) :
  scale = Ok s ->
  is_zero s = false ->
  (forall d, sleep d = Ok tt) ->
  exists w1 j,
    start_and_run request w0 = (Ok (Started uuid4 est), w1) /\
    job_status uuid4 w1 = Some j /\
    status j = completed /\ progress j = 100 /\ error j = None /\
    result j = Some {| final_hardness_mg_l :=
                         Some (final_hardness r (or_zero latest_hardness));
                       result_device := dev; result_area := ar;
                       result_volume_liters := v |} /\
    (latest_hardness = None ->
     final_hardness r (or_zero latest_hardness) = S754_zero false).
Proof using accepted.
  intros Hscale Hnz Hsleep.
  destruct accepted_request as (w0' & Hreq & Hj).
  destruct (locked_update2 uuid4 (with_status running) (with_progress 0) w0' job0 Hj)
    as (w1 & E1 & A1).
  set (j1 := with_progress 0 (with_status running job0)) in *.
  assert (Hq : exists q, truediv (or_zero est) s = Ok q).
  { unfold truediv. destruct s; try discriminate Hnz; eauto. }
  destruct Hq as [q Hq].
  set (step_sleep := F.div (F.max (F.lit 1 10) q) (F.of_Z steps)).
  destruct (loop_runs uuid4 sleep step_sleep [0; 1; 2; 3; 4; 5; 6; 7; 8; 9]
              (Hsleep _) ltac:(repeat (constructor; [lia|]); constructor)
              w1 j1 (proj1 A1)) as (w2 & E2 & S2).
  set (res := {| final_hardness_mg_l :=
                   Some (final_hardness r (or_zero latest_hardness));
                 result_device := dev; result_area := ar;
                 result_volume_liters := v |}).
  destruct (locked_update3 uuid4 (with_status completed) (with_progress 100)
              (with_result res) w2 _ (proj1 S2)) as (w3 & E3 & A3).
  exists w3. eexists. split; [|split; [exact (proj1 A3)|]].
  - eapply run_after_request; [exact Hreq|].
    unfold _run_treatment_job, try_catch. unfold mbind at 1. rewrite E1.
    unfold mbind at 1. unfold lift at 1. rewrite Hscale.
    unfold mbind at 1. unfold lift at 1. rewrite Hq.
    change (Modeler.range steps) with [0; 1; 2; 3; 4; 5; 6; 7; 8; 9].
    fold step_sleep. fold (loop_body uuid4 sleep step_sleep).
    unfold mbind at 1. rewrite E2.
    match goal with
    | |- (let (o, w') := ?X in _) = _ =>
        replace X with (@Ok unit tt, w3) by (symmetry; exact E3)
    end.
    reflexivity.
  - repeat split. intros ->. apply final_hardness_unknown.
Qed.

End Outcome.

Lemma good_run_completes_the_job_witness :
  exists w1 j,
    start_and_run
      (start_treatment (Ok (F.of_Z 1)) (always (Ok tt)) (VStr "Whitefield")
         (VStr "Household RO (medium)") (Ok (F.of_Z 10)) (Ok (F.lit 95 100))
         (Ok (F.lit 166 1000)) None "job-1") fresh_world =
      (Ok (Started "job-1"
             (if is_gt (F.compare_Z (F.lit 166 1000) 0)
              then Some (F.div (F.of_Z 10) (F.lit 166 1000)) else None)), w1) /\
    job_status "job-1" w1 = Some j /\
    status j = completed /\ progress j = 100 /\ error j = None /\
    result j = Some {| final_hardness_mg_l :=
                         Some (final_hardness (F.lit 95 100) (or_zero None));
                       result_device := VStr "Household RO (medium)";
                       result_area := VStr "Whitefield";
                       result_volume_liters := F.of_Z 10 |} /\
    (@None F.float = None ->
     final_hardness (F.lit 95 100) (or_zero None) = S754_zero false).
Proof.
  apply (good_run_completes_the_job (Ok (F.of_Z 1)) (always (Ok tt))
           (VStr "Whitefield") (VStr "Household RO (medium)") (F.of_Z 10)
           (F.lit 95 100) (F.lit 166 1000) None "job-1" fresh_world
           ltac:(vm_compute; reflexivity) (F.of_Z 1)).
  - reflexivity.
  - vm_compute. reflexivity.
  - intros d. reflexivity.
Defined.

Lemma bad_time_scale_fails_the_job_witness :
  exists w1 j,
    start_and_run
      (start_treatment (Raise ValueError) (always (Ok tt)) (VStr "Whitefield")
         (VStr "Household RO (medium)") (Ok (F.of_Z 10)) (Ok (F.lit 95 100))
         (Ok (F.lit 166 1000)) (Some (F.of_Z 300)) "job-1") fresh_world =
      (Ok (Started "job-1"
             (if is_gt (F.compare_Z (F.lit 166 1000) 0)
              then Some (F.div (F.of_Z 10) (F.lit 166 1000)) else None)), w1) /\
    job_status "job-1" w1 = Some j /\
    status j = failed /\ progress j = 0 /\ result j = None /\
    error j = Some ValueError.
Proof.
  apply (bad_time_scale_fails_the_job (Raise ValueError) (always (Ok tt))
           (VStr "Whitefield") (VStr "Household RO (medium)") (F.of_Z 10)
           (F.lit 95 100) (F.lit 166 1000) (Some (F.of_Z 300)) "job-1" fresh_world).
  - vm_compute. reflexivity.
  - left. reflexivity.
Defined.

End JobFrameFacts.
